(** * Developer-Fixes: the commit-history correlation engine

    A shallow embedding of the Python sources under [Scripts/]:
    - [utils.py]: [get_attr], [remove_loc_info], [get_node_and_node_path];
    - [objects.py]: the [Vulnerability] class with its [__eq__] and [__hash__];
    - [contracts.py]: [trim_bytecode], [complie_solc],
      [verify_contract_deployment_address];
    - [detector_slither.py], [detector_oyente.py]: the two adapters;
    - [patches.py]: the commit loop of [process_repo].

    Python values that come out of [json.loads] are modelled by [pyval];
    exceptions by the error monad [result]. *)

From stdpp Require Import base tactics option list strings sorting pretty gmap.
From Stdlib Require Import ZArith Lia Ascii.

Local Open Scope Z_scope.

(** ** Exceptions and the error monad *)

Inductive exn : Type :=
  | KeyError (key : string)
  | TypeError
  | AttributeError
  | ValueError
  | IndexError
  | UnboundLocalError
  | AstNodeNotFound          (* Exception('AST-Node not found') *)
  | InvalidCompilation
  | DoesNotExist.

Inductive result (A : Type) : Type :=
  | Ok (a : A)
  | Raise (e : exn).
Arguments Ok {A} a.
Arguments Raise {A} e.

Definition result_bind {A B} (f : A -> result B) (m : result A) : result B :=
  match m with
  | Ok a => f a
  | Raise e => Raise e
  end.

#[global] Instance result_ret : MRet result := fun _ a => Ok a.
#[global] Instance result_mbind : MBind result := fun _ _ f m => result_bind f m.

(** [try: m except: d] is [try: m  except Exception: d]. *)
Definition try_except {A} (m : result A) (handler : exn -> result A) : result A :=
  match m with
  | Ok a => Ok a
  | Raise e => handler e
  end.

Definition is_ok {A} (m : result A) : bool :=
  match m with Ok _ => true | Raise _ => false end.

(** ** Python values

    The values [json.loads] produces: [None], booleans, integers, strings,
    lists and dictionaries with string keys.  A dictionary keeps its
    insertion order and has pairwise distinct keys ([wf_pyval]).  Strings
    are sequences of code points below 256; floating-point numbers do not
    occur in the syntax trees and detector reports and are left out. *)

#[local] Unset Elimination Schemes.
Inductive pyval : Type :=
  | PNone
  | PBool (b : bool)
  | PInt (z : Z)
  | PStr (s : string)
  | PList (l : list pyval)
  | PDict (d : list (string * pyval)).
#[local] Set Elimination Schemes.

Fixpoint assoc {A} (k : string) (d : list (string * A)) : option A :=
  match d with
  | [] => None
  | (k', v) :: d' => if String.eqb k k' then Some v else assoc k d'
  end.

Fixpoint wf_pyval (v : pyval) : bool :=
  match v with
  | PList l => forallb wf_pyval l
  | PDict d =>
      (fix go (d : list (string * pyval)) : bool :=
         match d with
         | [] => true
         | (k, x) :: d' =>
             negb (existsb (String.eqb k) (map fst d')) && wf_pyval x && go d'
         end) d
  | _ => true
  end.

(** [source[key]] for a string key. *)
Definition getitem (source : pyval) (key : string) : result pyval :=
  match source with
  | PDict d =>
      match assoc key d with
      | Some v => Ok v
      | None => Raise (KeyError key)
      end
  | _ => Raise TypeError
  end.

(** [utils.get_attr]: the subscript with every exception turned into [None]. *)
Definition get_attr (source : pyval) (key : string) : pyval :=
  match getitem source key with
  | Ok v => v
  | Raise _ => PNone
  end.

Fixpoint chars (s : string) : list pyval :=
  match s with
  | EmptyString => []
  | String c s' => PStr (String c EmptyString) :: chars s'
  end.

(** The items a [for] loop visits: the elements of a list, the keys of a
    dictionary, the characters of a string; anything else is not iterable. *)
Definition py_iter (v : pyval) : result (list pyval) :=
  match v with
  | PList l => Ok l
  | PDict d => Ok (map (fun kv => PStr (fst kv)) d)
  | PStr s => Ok (chars s)
  | _ => Raise TypeError
  end.

(** Truth value, as tested by [if x:] and [not x]. *)
Definition truthy (v : pyval) : bool :=
  match v with
  | PNone => false
  | PBool b => b
  | PInt z => negb (z =? 0)
  | PStr s => negb (String.eqb s EmptyString)
  | PList l => match l with [] => false | _ => true end
  | PDict d => match d with [] => false | _ => true end
  end.

Definition as_number (v : pyval) : option Z :=
  match v with
  | PBool b => Some (if b then 1 else 0)
  | PInt z => Some z
  | _ => None
  end.

(** [a == b].  Booleans are integers ([True == 1]); lists compare element
    by element; dictionaries compare as maps: the same number of keys and,
    for every key of the one, an equal value under that key in the other
    (keys being pairwise distinct, the entry of [e] with key [k] is [e[k]]). *)
Fixpoint py_eq (a b : pyval) : bool :=
  match a with
  | PNone => match b with PNone => true | _ => false end
  | PBool x =>
      match as_number b with Some z => (if x then 1 else 0) =? z | None => false end
  | PInt x =>
      match as_number b with Some z => x =? z | None => false end
  | PStr s => match b with PStr t => String.eqb s t | _ => false end
  | PList l =>
      match b with
      | PList m =>
          (fix go (l m : list pyval) : bool :=
             match l, m with
             | [], [] => true
             | x :: l', y :: m' => py_eq x y && go l' m'
             | _, _ => false
             end) l m
      | _ => false
      end
  | PDict d =>
      match b with
      | PDict e =>
          (length d =? length e)%nat &&
          forallb (fun kx =>
                     existsb (fun ky => String.eqb (fst kx) (fst ky) &&
                                        py_eq (snd kx) (snd ky)) e) d
      | _ => false
      end
  end.

(** ** [utils.remove_loc_info] *)

Fixpoint remove_loc_info (d : pyval) : pyval :=
  match d with
  | PList l => PList (map remove_loc_info l)
  | PDict kv =>
      PDict ((fix go (kv : list (string * pyval)) : list (string * pyval) :=
                match kv with
                | [] => []
                | (k, v) :: kv' =>
                    if String.eqb k "loc" then go kv'
                    else (k, remove_loc_info v) :: go kv'
                end) kv)
  | _ => d
  end.

(** ** [utils.get_node_and_node_path] *)

(** [x in (s1, s2, ...)] for a tuple of string literals. *)
Definition in_strs (x : pyval) (l : list string) : bool :=
  existsb (fun s => py_eq x (PStr s)) l.
Arguments in_strs : simpl never.

(** [n['loc']['start']['line']] *)
Definition start_line (n : pyval) : result pyval :=
  loc ← getitem n "loc";
  start ← getitem loc "start";
  getitem start "line".

(** [n['loc']['start']['line'] == line] *)
Definition starts_at (n line : pyval) : result bool :=
  l ← start_line n;
  mret (py_eq l line).

Definition located : Type := pyval * list string.

(** The innermost loops: the first item that starts at [line] is returned,
    with [suffix] appended to the path built so far. *)
Fixpoint scan_items (line : pyval) (node_path suffix : list string)
    (items : list pyval) : result (option located) :=
  match items with
  | [] => mret None
  | item :: rest =>
      b ← starts_at item line;
      if b : bool then mret (Some (remove_loc_info item, node_path ++ suffix))
      else scan_items line node_path suffix rest
  end.

Definition scan_subNode (line : pyval) (node_path : list string)
    (subNode : pyval) : result (option located) :=
  ty ← getitem subNode "type";
  if in_strs ty ["StateVariableDeclaration"; "UsingForDeclaration"; "EventDefinition"]
  then
    b ← starts_at subNode line;
    if b : bool then mret (Some (remove_loc_info subNode, node_path)) else mret None
  else if in_strs ty ["StructDefinition"; "EnumDefinition"]
  then
    members ← getitem subNode "members";
    ms ← py_iter members;
    scan_items line node_path ["member"; "[*]"] ms
  else if in_strs ty ["FunctionDefinition"; "ModifierDefinition"]
  then
    let statements := get_attr (get_attr subNode "body") "statements" in
    if truthy statements
    then
      ss ← py_iter statements;
      scan_items line node_path ["body"; "statements"; "[*]"] ss
    else mret None
  else mret None.

Fixpoint scan_subNodes (line : pyval) (node_path : list string)
    (subNodes : list pyval) : result (option located) :=
  match subNodes with
  | [] => mret None
  | subNode :: rest =>
      r ← scan_subNode line node_path subNode;
      match r with
      | Some found => mret (Some found)
      | None => scan_subNodes line node_path rest
      end
  end.

(** The outer loop.  [node_path] is extended once for every contract
    definition the loop enters, and is not reset between them. *)
Fixpoint scan_children (line : pyval) (node_path : list string)
    (children : list pyval) : result located :=
  match children with
  | [] => Raise AstNodeNotFound
  | child :: rest =>
      ty ← getitem child "type";
      if py_eq ty (PStr "ContractDefinition")
      then
        let node_path := node_path ++ ["subNodes"; "[*]"] in
        subNodes ← getitem child "subNodes";
        sns ← py_iter subNodes;
        r ← scan_subNodes line node_path sns;
        match r with
        | Some found => mret found
        | None => scan_children line node_path rest
        end
      else scan_children line node_path rest
  end.

Definition get_node_and_node_path (node line : pyval) : result located :=
  children ← getitem node "children";
  cs ← py_iter children;
  scan_children line ["children"; "[*]"] cs.

(** *** The candidate nodes of a tree

    The nodes the locator compares with the line, in the order it visits
    them, each with the path it would return and its start line.  Used to
    state what the nest of loops computes. *)

Record candidate : Type := Candidate {
  cand_node : pyval;
  cand_path : list string;
  cand_line : pyval
}.

Fixpoint items_candidates (node_path suffix : list string)
    (items : list pyval) : result (list candidate) :=
  match items with
  | [] => mret []
  | item :: rest =>
      l ← start_line item;
      cs ← items_candidates node_path suffix rest;
      mret (Candidate item (node_path ++ suffix) l :: cs)
  end.

Definition subNode_candidates (node_path : list string)
    (subNode : pyval) : result (list candidate) :=
  ty ← getitem subNode "type";
  if in_strs ty ["StateVariableDeclaration"; "UsingForDeclaration"; "EventDefinition"]
  then
    l ← start_line subNode;
    mret [Candidate subNode node_path l]
  else if in_strs ty ["StructDefinition"; "EnumDefinition"]
  then
    members ← getitem subNode "members";
    ms ← py_iter members;
    items_candidates node_path ["member"; "[*]"] ms
  else if in_strs ty ["FunctionDefinition"; "ModifierDefinition"]
  then
    let statements := get_attr (get_attr subNode "body") "statements" in
    if truthy statements
    then
      ss ← py_iter statements;
      items_candidates node_path ["body"; "statements"; "[*]"] ss
    else mret []
  else mret [].

Fixpoint subNodes_candidates (node_path : list string)
    (subNodes : list pyval) : result (list candidate) :=
  match subNodes with
  | [] => mret []
  | subNode :: rest =>
      cs ← subNode_candidates node_path subNode;
      cs' ← subNodes_candidates node_path rest;
      mret (cs ++ cs')
  end.

Fixpoint children_candidates (node_path : list string)
    (children : list pyval) : result (list candidate) :=
  match children with
  | [] => mret []
  | child :: rest =>
      ty ← getitem child "type";
      if py_eq ty (PStr "ContractDefinition")
      then
        let node_path := node_path ++ ["subNodes"; "[*]"] in
        subNodes ← getitem child "subNodes";
        sns ← py_iter subNodes;
        cs ← subNodes_candidates node_path sns;
        cs' ← children_candidates node_path rest;
        mret (cs ++ cs')
      else children_candidates node_path rest
  end.

Definition candidates (node : pyval) : result (list candidate) :=
  children ← getitem node "children";
  cs ← py_iter children;
  children_candidates ["children"; "[*]"] cs.

(** The first candidate whose start line equals [line]. *)
Definition first_at (line : pyval) (cs : list candidate) : option located :=
  match find (fun c => py_eq (cand_line c) line) cs with
  | Some c => Some (remove_loc_info (cand_node c), cand_path c)
  | None => None
  end.

(** The shape of a returned path: [children.[*]], then [subNodes.[*]] once
    per contract definition entered, then the suffix of the node kind. *)
Definition path_shape (p : list string) : Prop :=
  exists (k : nat) (suffix : list string),
    p = ["children"; "[*]"] ++ concat (replicate (S k) ["subNodes"; "[*]"]) ++ suffix /\
    (suffix = [] \/ suffix = ["member"; "[*]"] \/
     suffix = ["body"; "statements"; "[*]"]).

(** *** A small syntax tree to run the locator on

    [contract C { uint x;  function f() { a();  b(
      ); } }] with the second statement spanning lines 5 to 6. *)

Definition mk_loc (start_l end_l : Z) : pyval :=
  PDict [("start", PDict [("line", PInt start_l); ("column", PInt 0)]);
         ("end", PDict [("line", PInt end_l); ("column", PInt 0)])].

Definition sample_stmt (name : string) (start_l end_l : Z) : pyval :=
  PDict [("type", PStr "ExpressionStatement");
         ("expression", PDict [("type", PStr "FunctionCall");
                               ("name", PStr name);
                               ("loc", mk_loc start_l end_l)]);
         ("loc", mk_loc start_l end_l)].

Definition sample_function : pyval :=
  PDict [("type", PStr "FunctionDefinition");
         ("name", PStr "f");
         ("body", PDict [("type", PStr "Block");
                         ("statements",
                          PList [sample_stmt "a" 4 4; sample_stmt "b" 5 6]);
                         ("loc", mk_loc 3 7)]);
         ("loc", mk_loc 3 7)].

Definition sample_statevar : pyval :=
  PDict [("type", PStr "StateVariableDeclaration");
         ("variables", PList [PDict [("name", PStr "x"); ("loc", mk_loc 2 2)]]);
         ("loc", mk_loc 2 2)].

Definition sample_tree : pyval :=
  PDict [("type", PStr "SourceUnit");
         ("children",
          PList [PDict [("type", PStr "ContractDefinition");
                        ("name", PStr "C");
                        ("subNodes", PList [sample_statevar; sample_function]);
                        ("loc", mk_loc 1 8)]])].

(** ** Induction over Python values *)

Section pyval_induction.
Variable P : pyval -> Prop.
Hypothesis HNone : P PNone.
Hypothesis HBool : forall b, P (PBool b).
Hypothesis HInt : forall z, P (PInt z).
Hypothesis HStr : forall s, P (PStr s).
Hypothesis HList : forall l, Forall P l -> P (PList l).
Hypothesis HDict : forall d, Forall (fun kv => P (snd kv)) d -> P (PDict d).

Fixpoint pyval_ind (v : pyval) : P v :=
  match v with
  | PNone => HNone
  | PBool b => HBool b
  | PInt z => HInt z
  | PStr s => HStr s
  | PList l =>
      HList l ((fix go (l : list pyval) : Forall P l :=
                  match l with
                  | [] => List.Forall_nil P
                  | x :: l' => @List.Forall_cons _ P x l' (pyval_ind x) (go l')
                  end) l)
  | PDict d =>
      HDict d ((fix go (d : list (string * pyval))
                  : Forall (fun kv => P (snd kv)) d :=
                  match d with
                  | [] => List.Forall_nil _
                  | kv :: d' =>
                      @List.Forall_cons _ (fun kv => P (snd kv)) kv d'
                        (pyval_ind (snd kv)) (go d')
                  end) d)
  end.
End pyval_induction.

Definition base_path (k : nat) : list string :=
  ["children"; "[*]"] ++ concat (replicate k ["subNodes"; "[*]"]).

Definition path_suffix_ok (suffix : list string) : Prop :=
  suffix = [] \/ suffix = ["member"; "[*]"] \/
  suffix = ["body"; "statements"; "[*]"].

(** [n['loc']['end']['line']] *)
Definition end_line (n : pyval) : result pyval :=
  loc ← getitem n "loc";
  e ← getitem loc "end";
  getitem e "line".

(** ** [objects.Vulnerability] *)

Record Vulnerability : Type := mkVulnerability {
  vuln_name : pyval;
  contract_file_path : string;
  contract_name : pyval;
  function_name : pyval;
  line_num : list Z;
  ast_node_path : string;
  ast_node : pyval
}.

(** *** [not DeepDiff(a, b, ignore_order=True)]

    Modelled from the documentation of the deepdiff library (not part of
    the repository): values of different types differ; dictionaries are
    compared key by key (keys added, keys removed, values changed); with
    [ignore_order=True] (and the default
    [report_repetition=False]) two lists differ only when one has an item
    without an equal item in the other, so order and repetition are both
    ignored, at every depth. *)
Fixpoint deep_equal (a b : pyval) : bool :=
  match a, b with
  | PNone, PNone => true
  | PBool x, PBool y => Bool.eqb x y
  | PInt x, PInt y => x =? y
  | PStr s, PStr t => String.eqb s t
  | PList l, PList m =>
      forallb (fun x => existsb (fun y => deep_equal x y) m) l &&
      forallb (fun y => existsb (fun x => deep_equal x y) l) m
  | PDict d, PDict e =>
      forallb (fun kx =>
                 existsb (fun ky => String.eqb (fst kx) (fst ky) &&
                                    deep_equal (snd kx) (snd ky)) e) d &&
      forallb (fun ky => existsb (fun kx => String.eqb (fst kx) (fst ky)) d) e
  | _, _ => false
  end.

(** [Vulnerability.__eq__]; the file path and the line numbers take no part. *)
Definition Vulnerability__eq__ (self other : Vulnerability) : bool :=
  String.eqb (ast_node_path self) (ast_node_path other) &&
  deep_equal (ast_node self) (ast_node other) &&
  py_eq (contract_name self) (contract_name other) &&
  py_eq (function_name self) (function_name other) &&
  py_eq (vuln_name self) (vuln_name other).

(** *** [json.dumps(x, sort_keys=True)] *)

Definition hex_digit (n : N) : ascii :=
  match n with
  | 0 => "0" | 1 => "1" | 2 => "2" | 3 => "3" | 4 => "4" | 5 => "5"
  | 6 => "6" | 7 => "7" | 8 => "8" | 9 => "9" | 10 => "a" | 11 => "b"
  | 12 => "c" | 13 => "d" | 14 => "e" | _ => "f"
  end%char%N.

(** The double-quote character. *)
Definition dquote : string := String (ascii_of_N 34) EmptyString.

(** One character of a JSON string under [ensure_ascii=True]. *)
Definition json_escape_char (c : ascii) : string :=
  let n := N_of_ascii c in
  if (n =? 34)%N then "\" +:+ dquote
  else if (n =? 92)%N then "\\"
  else if (n =? 10)%N then "\n"
  else if (n =? 13)%N then "\r"
  else if (n =? 9)%N then "\t"
  else if (n =? 8)%N then "\b"
  else if (n =? 12)%N then "\f"
  else if ((n <? 32) || (126 <? n))%N
  then "\u00" +:+ String (hex_digit (n / 16)) (String (hex_digit (n mod 16)) EmptyString)
  else String c EmptyString.

Fixpoint json_escape (s : string) : string :=
  match s with
  | EmptyString => EmptyString
  | String c s' => json_escape_char c +:+ json_escape s'
  end.

Definition json_quote (s : string) : string :=
  dquote +:+ json_escape s +:+ dquote.

Fixpoint join (sep : string) (l : list string) : string :=
  match l with
  | [] => EmptyString
  | [x] => x
  | x :: l' => x +:+ sep +:+ join sep l'
  end.

Definition key_le (p q : string * string) : Prop := String.le (fst p) (fst q).

#[global] Instance key_le_dec : RelDecision key_le.
Proof. intros p q. unfold key_le. apply _. Defined.

(** [sorted(d.items())] on the already serialised items. *)
Definition sort_items (items : list (string * string)) : list (string * string) :=
  merge_sort key_le items.

Fixpoint json_dumps (v : pyval) : string :=
  match v with
  | PNone => "null"
  | PBool b => if b then "true" else "false"
  | PInt z => pretty z
  | PStr s => json_quote s
  | PList l =>
      "[" +:+ join ", " (map json_dumps l) +:+ "]"
  | PDict d =>
      let items :=
        (fix go (d : list (string * pyval)) : list (string * string) :=
           match d with
           | [] => []
           | (k, x) :: d' => (k, json_dumps x) :: go d'
           end) d in
      "{" +:+ join ", " (map (fun kv => json_quote (fst kv) +:+ ": " +:+ snd kv)
                           (sort_items items)) +:+ "}"
  end.

(** *** Hashing

    [hash] of a string depends on the interpreter (algorithm and per-process
    key) and [hash(None)] on the interpreter version; both are parameters. *)

Class PyHash : Type := {
  str_hash : string -> Z;
  hash_None : Z
}.

(** [hash] of an integer: reduction modulo the Mersenne prime [2^61 - 1],
    with [-1] reserved. *)
Definition hash_int (z : Z) : Z :=
  let r := Z.sgn z * (Z.abs z mod (2 ^ 61 - 1)) in
  if r =? -1 then -2 else r.

Section hashing.
Context `{PyHash}.

(** The builtin [hash] on a value; lists and dictionaries are unhashable. *)
Definition hash_pyval (v : pyval) : result Z :=
  match v with
  | PNone => Ok hash_None
  | PBool b => Ok (if b then 1 else 0)
  | PInt z => Ok (hash_int z)
  | PStr s => Ok (str_hash s)
  | PList _ | PDict _ => Raise TypeError
  end.

(** [Vulnerability.__hash__] *)
Definition Vulnerability__hash__ (self : Vulnerability) : result Z :=
  let h_path := str_hash (ast_node_path self) in
  let h_node := str_hash (json_dumps (ast_node self)) in
  h_contract ← hash_pyval (contract_name self);
  h_function ← hash_pyval (function_name self);
  h_vuln ← hash_pyval (vuln_name self);
  mret (Z.lxor (Z.lxor (Z.lxor (Z.lxor h_path h_node) h_contract) h_function) h_vuln).

(** [hash(v)] for an instance: the value of [__hash__], reduced like an
    integer when it does not fit a machine word, with [-1] reserved. *)
Definition hash_Vulnerability (v : Vulnerability) : result Z :=
  r ← Vulnerability__hash__ v;
  mret (if (- 2 ^ 63 <=? r) && (r <? 2 ^ 63)
        then (if r =? -1 then -2 else r)
        else hash_int r).
End hashing.

(** The same-value relation that keeps the order of list items: types must
    agree, lists are compared position by position, dictionaries as maps. *)
Fixpoint strict_equal (a b : pyval) : bool :=
  match a, b with
  | PNone, PNone => true
  | PBool x, PBool y => Bool.eqb x y
  | PInt x, PInt y => x =? y
  | PStr s, PStr t => String.eqb s t
  | PList l, PList m =>
      (fix go (l m : list pyval) : bool :=
         match l, m with
         | [], [] => true
         | x :: l', y :: m' => strict_equal x y && go l' m'
         | _, _ => false
         end) l m
  | PDict d, PDict e =>
      (length d =? length e)%nat &&
      forallb (fun kx =>
                 existsb (fun ky => String.eqb (fst kx) (fst ky) &&
                                    strict_equal (snd kx) (snd ky)) e) d
  | _, _ => false
  end.

(** *** CPython's string hash

    SipHash with [c] compression and [d] finalisation rounds over the bytes
    of the string, keyed by the per-process secret [(k0, k1)]; CPython 3.11
    uses SipHash-1-3, earlier versions SipHash-2-4.  The empty string hashes
    to 0 and the value [-1] is replaced by [-2]. *)

Definition u64 (x : Z) : Z := x mod 2 ^ 64.

Definition rotl64 (x b : Z) : Z :=
  u64 (Z.lor (Z.shiftl x b) (Z.shiftr x (64 - b))).

Definition sip_state : Type := Z * Z * Z * Z.

Definition sipround (s : sip_state) : sip_state :=
  let '(v0, v1, v2, v3) := s in
  let v0 := u64 (v0 + v1) in
  let v1 := Z.lxor (rotl64 v1 13) v0 in
  let v0 := rotl64 v0 32 in
  let v2 := u64 (v2 + v3) in
  let v3 := Z.lxor (rotl64 v3 16) v2 in
  let v0 := u64 (v0 + v3) in
  let v3 := Z.lxor (rotl64 v3 21) v0 in
  let v2 := u64 (v2 + v1) in
  let v1 := Z.lxor (rotl64 v1 17) v2 in
  let v2 := rotl64 v2 32 in
  (v0, v1, v2, v3).

Fixpoint siprounds (n : nat) (s : sip_state) : sip_state :=
  match n with
  | O => s
  | S n' => siprounds n' (sipround s)
  end.

Definition sip_absorb (c : nat) (s : sip_state) (m : Z) : sip_state :=
  let '(v0, v1, v2, v3) := s in
  let '(v0, v1, v2, v3) := siprounds c (v0, v1, v2, Z.lxor v3 m) in
  (Z.lxor v0 m, v1, v2, v3).

(** Little-endian value of at most eight bytes. *)
Fixpoint le_bytes (bs : list Z) : Z :=
  match bs with
  | [] => 0
  | b :: bs' => b + 256 * le_bytes bs'
  end.

Fixpoint sip_blocks (fuel : nat) (c : nat) (s : sip_state) (bs : list Z)
    : sip_state * list Z :=
  match fuel with
  | O => (s, bs)
  | S fuel' =>
      if (8 <=? length bs)%nat
      then sip_blocks fuel' c (sip_absorb c s (le_bytes (take 8 bs))) (drop 8 bs)
      else (s, bs)
  end.

Fixpoint string_bytes (s : string) : list Z :=
  match s with
  | EmptyString => []
  | String a s' => Z.of_N (N_of_ascii a) :: string_bytes s'
  end.

Definition siphash (c d : nat) (k0 k1 : Z) (bs : list Z) : Z :=
  let s0 := (Z.lxor k0 0x736f6d6570736575, Z.lxor k1 0x646f72616e646f6d,
             Z.lxor k0 0x6c7967656e657261, Z.lxor k1 0x7465646279746573) in
  let '(s1, tail) := sip_blocks (length bs) c s0 bs in
  let last := Z.lor (Z.shiftl (Z.of_nat (length bs) mod 256) 56) (le_bytes tail) in
  let '(v0, v1, v2, v3) := sip_absorb c s1 last in
  let '(v0, v1, v2, v3) := siprounds d (v0, v1, Z.lxor v2 0xff, v3) in
  Z.lxor (Z.lxor v0 v1) (Z.lxor v2 v3).

Definition to_signed64 (x : Z) : Z :=
  if x <? 2 ^ 63 then x else x - 2 ^ 64.

Definition cpython_str_hash (c d : nat) (k0 k1 : Z) (s : string) : Z :=
  match s with
  | EmptyString => 0
  | _ =>
      let x := to_signed64 (siphash c d k0 k1 (string_bytes s)) in
      if x =? -1 then -2 else x
  end.

(** CPython 3.12 started with [PYTHONHASHSEED=0] (an all-zero key). *)
Definition cpython312_seed0 : PyHash :=
  {| str_hash := cpython_str_hash 1 3 0 0; hash_None := 0xFCA86420 |}.

(** ** Line-number drift

    [drift l1 l2 a b]: the trees [a] and [b] are the same except for the
    values of their ['loc'] fields, and line [l1] of the one designates what
    line [l2] designates in the other: corresponding nodes pass or fail the
    start-line test together. *)

#[global] Instance exn_eq_dec : EqDecision exn.
Proof. solve_decision. Defined.

#[global] Instance result_eq_dec {A} `{EqDecision A} : EqDecision (result A).
Proof. solve_decision. Defined.

Fixpoint drift (l1 l2 : pyval) (a b : pyval) : bool :=
  match a, b with
  | PNone, PNone => true
  | PBool x, PBool y => Bool.eqb x y
  | PInt x, PInt y => x =? y
  | PStr s, PStr t => String.eqb s t
  | PList xs, PList ys =>
      (fix go (xs ys : list pyval) : bool :=
         match xs, ys with
         | [], [] => true
         | x :: xs', y :: ys' => drift l1 l2 x y && go xs' ys'
         | _, _ => false
         end) xs ys
  | PDict d, PDict e =>
      bool_decide (starts_at a l1 = starts_at b l2) &&
      (fix go (d e : list (string * pyval)) : bool :=
         match d, e with
         | [], [] => true
         | (k, x) :: d', (k', y) :: e' =>
             String.eqb k k' && (String.eqb k "loc" || drift l1 l2 x y) && go d' e'
         | _, _ => false
         end) d e
  | _, _ => false
  end.

(** [sample_tree] after two lines were inserted above the contract. *)
Definition sample_stmt_shifted (name : string) (start_l end_l : Z) : pyval :=
  PDict [("type", PStr "ExpressionStatement");
         ("expression", PDict [("type", PStr "FunctionCall");
                               ("name", PStr name);
                               ("loc", mk_loc (start_l + 2) (end_l + 2))]);
         ("loc", mk_loc (start_l + 2) (end_l + 2))].

Definition sample_tree_shifted : pyval :=
  PDict [("type", PStr "SourceUnit");
         ("children",
          PList [PDict [("type", PStr "ContractDefinition");
                        ("name", PStr "C");
                        ("subNodes",
                         PList [PDict [("type", PStr "StateVariableDeclaration");
                                       ("variables",
                                        PList [PDict [("name", PStr "x");
                                                      ("loc", mk_loc 4 4)]]);
                                       ("loc", mk_loc 4 4)];
                                PDict [("type", PStr "FunctionDefinition");
                                       ("name", PStr "f");
                                       ("body",
                                        PDict [("type", PStr "Block");
                                               ("statements",
                                                PList [sample_stmt_shifted "a" 4 4;
                                                       sample_stmt_shifted "b" 5 6]);
                                               ("loc", mk_loc 5 9)]);
                                       ("loc", mk_loc 5 9)]]);
                        ("loc", mk_loc 3 10)]])].

(** Two findings for [sample_tree]: the same statement, reported against
    two different files. *)
Definition sample_finding (file : string) : Vulnerability :=
  mkVulnerability (PStr "reentrancy") file (PStr "C") (PStr "f") [5]
    "children.[*].subNodes.[*].body.statements.[*]"
    (remove_loc_info (sample_stmt "b" 5 6)).

(** [__eq__] with the subtree comparison replaced by [strict_equal]. *)
Definition eq_keeping_list_order (self other : Vulnerability) : bool :=
  String.eqb (ast_node_path self) (ast_node_path other) &&
  strict_equal (ast_node self) (ast_node other) &&
  py_eq (contract_name self) (contract_name other) &&
  py_eq (function_name self) (function_name other) &&
  py_eq (vuln_name self) (vuln_name other).

(** Two findings whose subtrees differ in the order of two call arguments. *)
Definition call_node (args : list string) : pyval :=
  PDict [("type", PStr "FunctionCall");
         ("expression", PDict [("type", PStr "Identifier"); ("name", PStr "pay")]);
         ("arguments",
          PList (map (fun a => PDict [("type", PStr "Identifier"); ("name", PStr a)])
                   args))].

Definition call_finding (args : list string) : Vulnerability :=
  mkVulnerability (PStr "reentrancy") "contracts/A.sol" (PStr "C") (PStr "f") [5]
    "children.[*].subNodes.[*].body.statements.[*]" (call_node args).

(** Two outcomes agree: the same exception, or values related by [R]. *)
Definition result_rel {A} (R : A -> A -> Prop) (r1 r2 : result A) : Prop :=
  match r1, r2 with
  | Ok x, Ok y => R x y
  | Raise e1, Raise e2 => e1 = e2
  | _, _ => False
  end.

(** ** [contracts.trim_bytecode] *)

(** *** The string operations it uses *)

(** [sub in s] *)
Fixpoint contains (s sub : string) : bool :=
  String.prefix sub s ||
  match s with
  | EmptyString => false
  | String _ s' => contains s' sub
  end.

(** [s.rfind(sub)]: the highest index at which [sub] occurs in [s], or -1. *)
Fixpoint rfind (s sub : string) : Z :=
  match s with
  | EmptyString => if String.prefix sub EmptyString then 0 else -1
  | String _ s' =>
      let r := rfind s' sub in
      if 0 <=? r then r + 1
      else if String.prefix sub s then 0 else -1
  end.

Definition strlen (s : string) : Z := Z.of_nat (String.length s).

(** A slice bound as Python normalises it: negative bounds count from the
    end, and every bound is clipped to [0, len]. *)
Definition slice_bound (len i : Z) : Z :=
  if i <? 0 then Z.max (i + len) 0 else Z.min i len.

(** [s[i:j]]; [None] stands for an omitted bound. *)
Definition py_slice (s : string) (i j : option Z) : string :=
  let len := strlen s in
  let lo := match i with Some i => slice_bound len i | None => 0 end in
  let hi := match j with Some j => slice_bound len j | None => len end in
  if lo <? hi then String.substring (Z.to_nat lo) (Z.to_nat (hi - lo)) s
  else EmptyString.

(** *** Compiler versions

    A release version [major.minor.patch], as [semantic_version.Version]
    parses it from the version string; pre-release versions are left out. *)
Record Version : Type := mkVersion {
  major : N;
  minor : N;
  patch : N
}.

(** [SimpleSpec('>=M.m.p').match(v)] *)
Definition version_ge (v w : Version) : bool :=
  match (major v ?= major w)%N with
  | Gt => true
  | Lt => false
  | Eq =>
      match (minor v ?= minor w)%N with
      | Gt => true
      | Lt => false
      | Eq => (patch w <=? patch v)%N
      end
  end.

Definition trim_bytecode (bytecode : string) (compiler_version : Version) : string :=
  if version_ge compiler_version (mkVersion 0 6 0) then
    let startswith := rfind bytecode "6080604052" in
    let endswith := rfind bytecode "a264697066735822" in
    py_slice bytecode (Some startswith) (Some endswith)
  else if version_ge compiler_version (mkVersion 0 4 22) then
    let startswith := rfind bytecode "6080604052" in
    let endswith := rfind bytecode "a165627a7a72305820" in
    py_slice bytecode (Some startswith) (Some endswith)
  else if version_ge compiler_version (mkVersion 0 4 7) then
    let startswith := rfind bytecode "6060604052" in
    py_slice bytecode (Some startswith) None
  else bytecode.

(** The last character of a string (the empty string has none). *)
Fixpoint last_char (s : string) : string :=
  match s with
  | EmptyString => EmptyString
  | String c EmptyString => s
  | String _ s' => last_char s'
  end.

(** ** [contracts.verify_contract_deployment_address] *)

(** [objects.DeploymentAddressDetails], a document of the local database,
    with the compiler version already parsed. *)
Module DeploymentAddressDetails.
Record t : Type := mk {
  deployment_address : string;
  contract_name : string;
  compiler_version : Version;
  optimized : bool;
  optimized_runs : Z;
  blockchain_bytecode : string
}.
End DeploymentAddressDetails.

(** What is scraped from the page of an address. *)
Record etherscan_page : Type := mkPage {
  page_contract_name : string;
  page_compiler_version : Version;
  page_optimized : bool;
  page_runs : Z;
  page_verified_bytecode : string
}.

(** One invocation of the compiler. *)
Record compile_call : Type := mkCall {
  call_source : string;
  call_remaps : string;
  call_version : Version;
  call_args : string;
  call_contract : string
}.

(** The state the matcher works on: the collection of cached deployment
    records, keyed by address, and the compiler invocations made so far. *)
Record world : Type := mkWorld {
  db : gmap string DeploymentAddressDetails.t;
  solc_calls : list compile_call
}.

(** Computations that read and update the world and may raise. *)
Definition M (A : Type) : Type := world -> result A * world.

Definition M_ret {A} (a : A) : M A := fun w => (Ok a, w).

Definition M_bind {A B} (m : M A) (f : A -> M B) : M B :=
  fun w =>
    match m w with
    | (Ok a, w') => f a w'
    | (Raise e, w') => (Raise e, w')
    end.

Notation "x <-- m ;; k" := (M_bind m (fun x => k))
  (at level 100, m at next level, right associativity).

Section matcher.
Import DeploymentAddressDetails.

(** The external collaborators: the page of an address on Etherscan
    (the request or the scraping may fail), and the compiler front end
    [CryticCompile(source, ...).bytecode_runtime(name)]. *)
Variable etherscan : string -> result etherscan_page.
Variable solc : compile_call -> result string.

Definition record_of_page (deployment_address : string) (p : etherscan_page) : t :=
  mk deployment_address (page_contract_name p) (page_compiler_version p)
     (page_optimized p) (page_runs p)
     (trim_bytecode (page_verified_bytecode p) (page_compiler_version p)).

(** [get_contract_details_from_etherscan]: the cached record if there is
    one; otherwise the page is fetched, its bytecode trimmed, and the
    record saved. *)
Definition get_contract_details_from_etherscan (deployment_address : string)
    : M t :=
  fun w =>
    match db w !! deployment_address with
    | Some obj => (Ok obj, w)
    | None =>
        match etherscan deployment_address with
        | Ok page =>
            let obj := record_of_page deployment_address page in
            (Ok obj, mkWorld (<[deployment_address := obj]> (db w)) (solc_calls w))
        | Raise e => (Raise e, w)
        end
    end.

(** [complie_solc]: the trimmed runtime bytecode, or [None] when the
    compilation is invalid; any other exception propagates. *)
Definition complie_solc (source contract_name : string)
    (compiler_version : Version) (remappings solc_args : string)
    : M (option string) :=
  fun w =>
    let call := mkCall source remappings compiler_version solc_args contract_name in
    let w' := mkWorld (db w) (solc_calls w ++ [call]) in
    match solc call with
    | Ok bytecode => (Ok (Some (trim_bytecode bytecode compiler_version)), w')
    | Raise InvalidCompilation => (Ok None, w')
    | Raise e => (Raise e, w')
    end.

Definition solc_args_of (obj : t) : string :=
  if optimized obj
  then "--optimize --optimize-runs " +:+ pretty (optimized_runs obj)
  else EmptyString.

(** [bytecode == obj.blockchain_bytecode] *)
Definition bytecode_eq (bytecode : option string) (expected : string) : bool :=
  match bytecode with
  | Some b => String.eqb b expected
  | None => false
  end.

Fixpoint verify_contract_deployment_address (contract_name contract_file : string)
    (deployment_addresses : list string) (remappings : string)
    : M (option string * option Version) :=
  match deployment_addresses with
  | [] => M_ret (None, None)
  | deployment_address :: rest =>
      obj <-- get_contract_details_from_etherscan deployment_address ;;
      bytecode <-- complie_solc contract_file (DeploymentAddressDetails.contract_name obj)
                     (compiler_version obj) remappings (solc_args_of obj) ;;
      if bytecode_eq bytecode (blockchain_bytecode obj)
      then M_ret (Some deployment_address, Some (compiler_version obj))
      else verify_contract_deployment_address contract_name contract_file
             rest remappings
  end.

(** *** What the matcher is expected to compute *)

(** The record of an address in a given world. *)
Definition details (w : world) (deployment_address : string) : result t :=
  match db w !! deployment_address with
  | Some obj => Ok obj
  | None => page ← etherscan deployment_address;
            mret (record_of_page deployment_address page)
  end.

Definition call_for (contract_file remappings : string) (obj : t) : compile_call :=
  mkCall contract_file remappings (compiler_version obj) (solc_args_of obj)
    (DeploymentAddressDetails.contract_name obj).

(** The compiled-and-trimmed bytecode of a candidate; [None] when the
    compilation is invalid. *)
Definition compiled (contract_file remappings : string) (obj : t)
    : result (option string) :=
  match solc (call_for contract_file remappings obj) with
  | Ok bytecode => Ok (Some (trim_bytecode bytecode (compiler_version obj)))
  | Raise InvalidCompilation => Ok None
  | Raise e => Raise e
  end.

(** The candidate's record is available and compiling against it gives
    exactly its on-chain trimmed bytecode. *)
Definition candidate_matches (w : world) (contract_file remappings : string)
    (deployment_address : string) (obj : t) : Prop :=
  details w deployment_address = Ok obj /\
  compiled contract_file remappings obj = Ok (Some (blockchain_bytecode obj)).

(** The candidate's record is available and compiling against it fails as
    an invalid compilation or gives another bytecode. *)
Definition candidate_mismatches (w : world) (contract_file remappings : string)
    (deployment_address : string) : Prop :=
  exists obj bytecode,
    details w deployment_address = Ok obj /\
    compiled contract_file remappings obj = Ok bytecode /\
    bytecode <> Some (blockchain_bytecode obj).

(** The compiler invocations for a list of candidates, one each. *)
Definition calls_for (w : world) (contract_file remappings : string)
    (deployment_addresses : list string) : list compile_call :=
  flat_map (fun a => match details w a with
                     | Ok obj => [call_for contract_file remappings obj]
                     | Raise _ => []
                     end) deployment_addresses.
End matcher.

(** A scenario for the matcher: two candidate addresses recorded for the
    contract [Token]; the page of the first shows another bytecode than the
    file compiles to, the page of the second the same. *)
Definition scenario_etherscan (deployment_address : string) : result etherscan_page :=
  if String.eqb deployment_address "0xA1"
  then Ok (mkPage "Token" (mkVersion 0 6 0) false 0
             "60806040521111a264697066735822ab")
  else if String.eqb deployment_address "0xB2"
  then Ok (mkPage "Token" (mkVersion 0 6 2) true 200
             "60806040522222a264697066735822cd")
  else Raise DoesNotExist.

Definition scenario_solc (call : compile_call) : result string :=
  if String.eqb (call_contract call) "Token"
  then Ok "60806040522222a264697066735822ef"
  else Raise InvalidCompilation.

Definition empty_world : world := mkWorld ∅ [].

(** ** More of Python's strings: [split], [str], [int] *)

(** [s.split(sep)] for a one-character separator. *)
Fixpoint split_on (sep : ascii) (s : string) : list string :=
  match s with
  | EmptyString => [EmptyString]
  | String c s' =>
      match split_on sep s' with
      | [] => []
      | p :: ps =>
          if Ascii.eqb c sep then EmptyString :: p :: ps else String c p :: ps
      end
  end.

(** The white space [int] accepts around a number (code points below 256). *)
Definition is_int_space (c : ascii) : bool :=
  let n := N_of_ascii c in
  ((9 <=? n) && (n <=? 13) || (n =? 32) || (n =? 133) || (n =? 160))%N.

Definition digit_value (c : ascii) : option Z :=
  let n := N_of_ascii c in
  if ((48 <=? n) && (n <=? 57))%N then Some (Z.of_N n - 48) else None.

Fixpoint all_int_space (s : string) : bool :=
  match s with
  | EmptyString => true
  | String c s' => is_int_space c && all_int_space s'
  end.

(** Digits with single underscores between them, then trailing white space. *)
Fixpoint parse_digits (s : string) (acc : Z) (after_digit : bool) : option Z :=
  match s with
  | EmptyString => if after_digit then Some acc else None
  | String c s' =>
      match digit_value c with
      | Some d => parse_digits s' (10 * acc + d) true
      | None =>
          if Ascii.eqb c "_"
          then (if after_digit then parse_digits s' acc false else None)
          else if is_int_space c && after_digit && all_int_space s'
               then Some acc else None
      end
  end.

Fixpoint skip_int_space (s : string) : string :=
  match s with
  | String c s' => if is_int_space c then skip_int_space s' else s
  | EmptyString => s
  end.

(** [int(s)] for a string; [None] stands for the [ValueError]. *)
Definition py_int (s : string) : option Z :=
  match skip_int_space s with
  | String "+" s' => parse_digits s' 0 false
  | String "-" s' => z ← parse_digits s' 0 false; Some (- z)
  | s' => parse_digits s' 0 false
  end.

(** [str(v)] for the values whose text is needed; the text of a list or a
    dictionary (which starts with a bracket or a brace) is not produced. *)
Definition py_str (v : pyval) : option string :=
  match v with
  | PNone => Some "None"
  | PBool b => Some (if b then "True" else "False")
  | PInt z => Some (pretty z)
  | PStr s => Some s
  | PList _ | PDict _ => None
  end.

(** The converter of [Vulnerability.line_num]:
    [tuple(int(y) for y in x.split(':'))]. *)
Fixpoint ints_of (pieces : list string) : result (list Z) :=
  match pieces with
  | [] => mret []
  | y :: ys =>
      match py_int y with
      | Some z => zs ← ints_of ys; mret (z :: zs)
      | None => Raise ValueError
      end
  end.

Definition line_num_converter (x : string) : result (list Z) :=
  ints_of (split_on ":" x).

(** [Vulnerability(vuln_name, contract_file_path, contract_name,
    function_name, line_num, ast_node_path, ast_node)]; the conversion of the
    path to a [Path] object is not modelled. *)
Definition new_Vulnerability (vuln_name : pyval) (contract_file_path : string)
    (contract_name function_name : pyval) (line_num : string)
    (ast_node_path : string) (ast_node : pyval) : result Vulnerability :=
  lines ← line_num_converter line_num;
  mret (mkVulnerability vuln_name contract_file_path contract_name function_name
          lines ast_node_path ast_node).

(** [':'.join(str(l) for l in lines)] followed by the conversion above.  The
    text of a list or dictionary can never be converted: whatever the pieces
    its text falls into, one of them holds its opening bracket. *)
Definition join_lines (lines : list pyval) : result string :=
  match mapM py_str lines with
  | Some texts => Ok (join ":" texts)
  | None => Raise ValueError
  end.

(** ** [detector_oyente] *)

(** [line >= v] and [line <= v] for an integer [line]: defined against
    numbers only. *)
Definition int_ge (line : Z) (v : pyval) : result bool :=
  match as_number v with
  | Some z => Ok (z <=? line)
  | None => Raise TypeError
  end.

Definition int_le (line : Z) (v : pyval) : result bool :=
  match as_number v with
  | Some z => Ok (line <=? z)
  | None => Raise TypeError
  end.

(** [line >= start and line <= stop] *)
Definition within (line : Z) (start stop : pyval) : result bool :=
  b ← int_ge line start;
  if b : bool then int_le line stop else mret false.

(** The inner loop of [get_function_name]. *)
Fixpoint function_name_in (line : Z) (subNodes : list pyval)
    : result (option pyval) :=
  match subNodes with
  | [] => mret None
  | subNode :: rest =>
      start_line_subNode ← start_line subNode;
      end_line_subNode ← end_line subNode;
      ty ← getitem subNode "type";
      hit ← (if py_eq ty (PStr "FunctionDefinition")
             then within line start_line_subNode end_line_subNode
             else mret false);
      if hit : bool then name ← getitem subNode "name"; mret (Some name)
      else function_name_in line rest
  end.

Fixpoint function_name_of_children (line : Z) (children : list pyval)
    : result pyval :=
  match children with
  | [] => mret (PStr "unknown")
  | child :: rest =>
      start ← start_line child;
      stop ← end_line child;
      inside ← within line start stop;
      if inside : bool then
        if negb (truthy (get_attr child "subNodes"))
        then function_name_of_children line rest
        else
          subNodes ← getitem child "subNodes";
          sns ← py_iter subNodes;
          r ← function_name_in line sns;
          match r with
          | Some name => mret name
          | None => function_name_of_children line rest
          end
      else function_name_of_children line rest
  end.

Definition get_function_name (node : pyval) (line : Z) : result pyval :=
  children ← getitem node "children";
  cs ← py_iter children;
  function_name_of_children line cs.

(** [int(line_num)] *)
Definition int_of_str (s : string) : result Z :=
  match py_int s with
  | Some z => Ok z
  | None => Raise ValueError
  end.

(** [get_vuln_object]; [None] is returned when the locator raises. *)
Definition get_vuln_object (vuln_name : pyval) (contract_file_path : string)
    (contract_name : pyval) (line_num : string) (ast : pyval)
    : result (option Vulnerability) :=
  line ← int_of_str line_num;
  function_name ← get_function_name ast line;
  match get_node_and_node_path ast (PInt line) with
  | Raise _ => mret None
  | Ok (ast_node, ast_node_path) =>
      v ← new_Vulnerability vuln_name contract_file_path contract_name
            function_name line_num (join "." ast_node_path) ast_node;
      mret (Some v)
  end.

(** [d.items()]; only a dictionary has the method. *)
Definition dict_items (d : pyval) : result (list (string * pyval)) :=
  match d with
  | PDict kv => Ok kv
  | _ => Raise AttributeError
  end.

(** A loop that appends to one list: the items contributed by each element,
    in order; an exception ends the loop and the function. *)
Fixpoint collect {A B} (f : A -> result (list B)) (l : list A) : result (list B) :=
  match l with
  | [] => mret []
  | x :: l' =>
      ys ← f x;
      zs ← collect f l';
      mret (ys ++ zs)
  end.

(** [v.split(':')[1]] *)
Definition second_piece (v : pyval) : result string :=
  match v with
  | PStr s =>
      match split_on ":" s with
      | _ :: line_num :: _ => Ok line_num
      | _ => Raise IndexError
      end
  | _ => Raise AttributeError
  end.

(** The body of the loop over one list of occurrences. *)
Definition oyente_occurrence (v_name c_filepath c_name : string) (ast : pyval)
    (vuln : pyval) : result (list (option Vulnerability)) :=
  match vuln with
  | PStr _ =>
      line_num ← second_piece vuln;
      o ← get_vuln_object (PStr v_name) c_filepath (PStr c_name) line_num ast;
      mret [o]
  | PList vs =>
      collect (fun v =>
                 line_num ← second_piece v;
                 o ← get_vuln_object (PStr v_name) c_filepath (PStr c_name)
                       line_num ast;
                 mret [o]) vs
  | _ => mret []
  end.

Definition parse_oyente_output (out_json ast : pyval) (sol_file : string)
    : result (list (option Vulnerability)) :=
  files ← dict_items out_json;
  collect (fun cf : string * pyval =>
    let (c_filepath, f) := cf in
    if negb (String.eqb c_filepath sol_file) then mret []
    else
      contracts ← dict_items f;
      collect (fun cd : string * pyval =>
        let (c_name, data) := cd in
        vulnerabilities ← getitem data "vulnerabilities";
        kinds ← dict_items vulnerabilities;
        collect (fun vv : string * pyval =>
          let (v_name, vulns) := vv in
          if truthy vulns then
            occurrences ← py_iter vulns;
            collect (oyente_occurrence v_name c_filepath c_name ast) occurrences
          else mret []) kinds) contracts) files.

(** ** [detector_slither] *)

(** The variables that live across the iterations of the loop over the
    detectors: [function_name] and [contract_name] are unbound until an
    element of type ['function'] has been seen. *)
Record slither_state : Type := mkSlitherState {
  st_function_name : option pyval;
  st_contract_name : option pyval;
  st_vulns : list Vulnerability
}.

Record element_state : Type := mkElementState {
  es_function_name : option pyval;
  es_contract_name : option pyval;
  es_lines : list pyval;
  es_isImported : bool
}.

(** The loop over the elements of one detector result; it ends at the first
    element of another file. *)
Fixpoint slither_elements (sol_file : string) (st : element_state)
    (elements : list pyval) : result element_state :=
  match elements with
  | [] => mret st
  | element :: rest =>
      st1 ←
        (if py_eq (get_attr element "type") (PStr "function") then
           mret (mkElementState
                   (Some (get_attr element "name"))
                   (Some (get_attr (get_attr (get_attr element "type_specific_fields")
                                      "parent") "name"))
                   (es_lines st) (es_isImported st))
         else if py_eq (get_attr element "type") (PStr "node") then
           more ← py_iter (get_attr (get_attr element "source_mapping") "lines");
           mret (mkElementState (es_function_name st) (es_contract_name st)
                   (es_lines st ++ more) (es_isImported st))
         else mret st);
      let file_name_used :=
        get_attr (get_attr element "source_mapping") "filename_used" in
      if negb (py_eq file_name_used (PStr sol_file))
      then mret (mkElementState (es_function_name st1) (es_contract_name st1)
                   (es_lines st1) true)
      else slither_elements sol_file st1 rest
  end.

(** A name that may still be unbound. *)
Definition bound (name : option pyval) : result pyval :=
  match name with
  | Some v => Ok v
  | None => Raise UnboundLocalError
  end.

(** One iteration of the loop over the detectors. *)
Definition slither_detector (ast : pyval) (sol_file : string)
    (st : slither_state) (detector : pyval) : result slither_state :=
  let elements := get_attr detector "elements" in
  if negb (truthy elements) then mret st
  else
    es ← py_iter elements;
    est ← slither_elements sol_file
            (mkElementState (st_function_name st) (st_contract_name st) [] false) es;
    let st' := mkSlitherState (es_function_name est) (es_contract_name est)
                 (st_vulns st) in
    match es_lines est with
    | [] => mret st'
    | first_line :: _ =>
        if es_isImported est then mret st'
        else
          let vuln_name := get_attr detector "check" in
          match join_lines (es_lines est), get_node_and_node_path ast first_line with
          | _, Raise _ => mret st'
          | line_num, Ok (ast_node, ast_node_path) =>
              contract_name ← bound (es_contract_name est);
              function_name ← bound (es_function_name est);
              line_num ← line_num;
              v ← new_Vulnerability vuln_name sol_file contract_name function_name
                    line_num (join "." ast_node_path) ast_node;
              mret (mkSlitherState (es_function_name est) (es_contract_name est)
                      (st_vulns st ++ [v]))
          end
    end.

Fixpoint slither_detectors (ast : pyval) (sol_file : string)
    (st : slither_state) (detectors : list pyval) : result slither_state :=
  match detectors with
  | [] => mret st
  | detector :: rest =>
      st' ← slither_detector ast sol_file st detector;
      slither_detectors ast sol_file st' rest
  end.

Definition parse_slither_output (out_json ast : pyval) (sol_file : string)
    : result (list Vulnerability) :=
  let detectors := get_attr (get_attr out_json "results") "detectors" in
  if negb (truthy detectors) then mret []
  else
    ds ← py_iter detectors;
    st ← slither_detectors ast sol_file (mkSlitherState None None []) ds;
    mret (st_vulns st).

(** No character of the string is a colon. *)
Fixpoint no_colon (s : string) : bool :=
  match s with
  | EmptyString => true
  | String c s' => negb (Ascii.eqb c ":") && no_colon s'
  end.

(** *** Well-formed detector reports

    The shape of the reports the two detectors print, used to state what the
    adapters make of a batch. *)

Record slither_finding : Type := mkSlitherFinding {
  sf_check : string;
  sf_function : string;
  sf_contract : string;
  sf_lines : list Z
}.

(** One entry of [results.detectors]: the function the finding is in and the
    node that triggers it, both in the file under analysis. *)
Definition slither_result (sol_file : string) (r : slither_finding) : pyval :=
  PDict
    [("elements",
      PList
        [PDict [("type", PStr "function");
                ("name", PStr (sf_function r));
                ("source_mapping",
                 PDict [("filename_used", PStr sol_file);
                        ("lines", PList (map PInt (sf_lines r)))]);
                ("type_specific_fields",
                 PDict [("parent", PDict [("type", PStr "contract");
                                          ("name", PStr (sf_contract r))])])];
         PDict [("type", PStr "node");
                ("name", PStr "statement");
                ("source_mapping",
                 PDict [("filename_used", PStr sol_file);
                        ("lines", PList (map PInt (sf_lines r)))])]]);
     ("check", PStr (sf_check r));
     ("impact", PStr "High")].

Definition slither_json (detectors : list pyval) : pyval :=
  PDict [("success", PBool true);
         ("error", PNone);
         ("results", PDict [("detectors", PList detectors)])].

(** What the Slither adapter is expected to make of one entry: nothing when
    the node of its first line cannot be located. *)
Definition slither_expected (ast : pyval) (sol_file : string)
    (r : slither_finding) : list Vulnerability :=
  match sf_lines r with
  | [] => []
  | first_line :: _ =>
      match get_node_and_node_path ast (PInt first_line) with
      | Ok (ast_node, ast_node_path) =>
          [mkVulnerability (PStr (sf_check r)) sol_file (PStr (sf_contract r))
             (PStr (sf_function r)) (sf_lines r) (join "." ast_node_path) ast_node]
      | Raise _ => []
      end
  end.

(** One occurrence in an Oyente report: its text ["file:line"], the line it
    names and the function that line belongs to. *)
Record oyente_occurrence_info : Type := mkOccurrence {
  oc_text : string;
  oc_line : Z;
  oc_function : pyval
}.

Definition oyente_json (sol_file c_name : string)
    (kinds : list (string * list oyente_occurrence_info)) : pyval :=
  PDict
    [(sol_file,
      PDict
        [(c_name,
          PDict
            [("vulnerabilities",
              PDict (map (fun k => (fst k,
                                    PList (map (fun o => PStr (oc_text o)) (snd k))))
                       kinds));
             ("evm_code_coverage", PStr "99.0")])])].

Definition occurrence_ok (ast : pyval) (o : oyente_occurrence_info) : Prop :=
  (line_num ← second_piece (PStr (oc_text o)); int_of_str line_num) = Ok (oc_line o) /\
  get_function_name ast (oc_line o) = Ok (oc_function o).

(** What the Oyente adapter is expected to make of one occurrence: [None]
    when the node of its line cannot be located. *)
Definition oyente_expected (ast : pyval) (sol_file c_name v_name : string)
    (o : oyente_occurrence_info) : option Vulnerability :=
  match get_node_and_node_path ast (PInt (oc_line o)) with
  | Ok (ast_node, ast_node_path) =>
      Some (mkVulnerability (PStr v_name) sol_file (PStr c_name) (oc_function o)
              [oc_line o] (join "." ast_node_path) ast_node)
  | Raise _ => None
  end.

(** Reports on [sample_tree]: line 5 starts a statement of [f], line 6 lies
    inside it. *)
Definition sample_slither_findings : list slither_finding :=
  [mkSlitherFinding "reentrancy-eth" "f" "C" [6];
   mkSlitherFinding "arbitrary-send" "f" "C" [5; 6]].

Definition sample_oyente_kinds : list (string * list oyente_occurrence_info) :=
  [("callstack", []);
   ("reentrancy", [mkOccurrence "A.sol:6" 6 (PStr "f");
                   mkOccurrence "A.sol:5" 5 (PStr "f")])].

(** ** [patches.process_repo]: the commit loop *)

(** *** Python sets and dictionaries of findings

    A set keeps, for every element, its hash next to it.  An element is
    found when an entry has the same hash and compares equal; the entries
    with that hash are visited in the order they were added.  [None] may sit
    in the set next to findings (the Oyente adapter returns it). *)

Definition elem : Type := option Vulnerability.
Definition pyset : Type := list (Z * elem).

(** [stored == key] as the set evaluates it.  Comparing [None] with a
    finding ends in [Vulnerability.__eq__(v, None)], which reads
    [None.ast_node_path]. *)
Definition elem_eq (stored key : elem) : result bool :=
  match stored, key with
  | None, None => Ok true
  | Some a, Some b => Ok (Vulnerability__eq__ a b)
  | _, _ => Raise AttributeError
  end.

Fixpoint set_lookkey (s : pyset) (key : elem) (h : Z) : result bool :=
  match s with
  | [] => mret false
  | (h', stored) :: s' =>
      if h' =? h then
        same ← elem_eq stored key;
        if same : bool then mret true else set_lookkey s' key h
      else set_lookkey s' key h
  end.

(** Adding an entry whose hash is known. *)
Definition set_insert (s : pyset) (entry : Z * elem) : result pyset :=
  found ← set_lookkey s (snd entry) (fst entry);
  mret (if found : bool then s else s ++ [entry]).

(** [a.union(b)] *)
Fixpoint set_union (a b : pyset) : result pyset :=
  match b with
  | [] => mret a
  | entry :: b' => a' ← set_insert a entry; set_union a' b'
  end.

Section finding_sets.
Context `{PyHash}.

Definition elem_hash (key : elem) : result Z :=
  match key with
  | None => Ok hash_None
  | Some v => hash_Vulnerability v
  end.

(** [key in s] *)
Definition set_contains (s : pyset) (key : elem) : result bool :=
  h ← elem_hash key;
  set_lookkey s key h.

(** [s.add(key)] *)
Definition set_add (s : pyset) (key : elem) : result pyset :=
  h ← elem_hash key;
  set_insert s (h, key).

(** [set(v for v in items)] *)
Fixpoint set_of (s : pyset) (items : list elem) : result pyset :=
  match items with
  | [] => mret s
  | v :: rest => s' ← set_add s v; set_of s' rest
  end.
End finding_sets.

(** The key [(function_name, contract_name)] of the two dictionaries of new
    findings.  Both names have been hashed before a key is built; two keys
    are the same when their components are equal. *)
Definition vkey : Type := pyval * pyval.

Definition vkey_eq (k k' : vkey) : bool :=
  py_eq (fst k) (fst k') && py_eq (snd k) (snd k').

Definition vdict : Type := list (vkey * pyset).

Fixpoint vdict_get (d : vdict) (key : vkey) : option pyset :=
  match d with
  | [] => None
  | (k, s) :: d' => if vkey_eq k key then Some s else vdict_get d' key
  end.

Definition vdict_size (d : vdict) : nat :=
  sum_list (map (fun ks => length (snd ks)) d).

(** An element of [functions_meta]. *)
Definition meta : Type := pyval * pyval * string.

Definition meta_eq (m m' : meta) : bool :=
  py_eq (fst (fst m)) (fst (fst m')) && py_eq (snd (fst m)) (snd (fst m')) &&
  String.eqb (snd m) (snd m').

(** [functions_meta.add(m)] *)
Definition meta_add (ms : list meta) (m : meta) : list meta :=
  if existsb (fun m' => meta_eq m' m) ms then ms else ms ++ [m].

(** *** One commit *)

(** What the loop over the findings of a commit builds. *)
Record findings_state : Type := mkFindingsState {
  total_vuln : pyset;
  functions_meta : list meta;
  new_vulns_slither : vdict;
  new_vulns_oyente : vdict
}.

Inductive detector_name : Type := slither | oyente.

(** One output row; the pull-request and issue data fetched for the commit
    are attached unchanged and are left out here, as is the rendering of the
    groups into the text of the [Vulnerabilities] column. *)
Record patch_row : Type := mkPatchRow {
  row_commits : list string;
  row_contract_name : pyval;
  row_function_name : pyval;
  row_contract_file_path : string;
  row_groups : list (string * pyset)
}.

Section commit_loop.
Context `{PyHash}.

(** [new_vulns.setdefault(key, set()).add(v)] *)
Fixpoint vdict_add (d : vdict) (key : vkey) (v : Vulnerability) : result vdict :=
  match d with
  | [] => s ← set_add [] (Some v); mret [(key, s)]
  | (k, s) :: d' =>
      if vkey_eq k key
      then s' ← set_add s (Some v); mret ((k, s') :: d')
      else d'' ← vdict_add d' key v; mret ((k, s) :: d'')
  end.

(** The body of [for v in vulns]. *)
Definition visit (detector : detector_name) (st : findings_state) (v : elem)
    : result findings_state :=
  match v with
  | None => mret st
  | Some vu =>
      seen ← set_contains (total_vuln st) v;
      if seen : bool then mret st
      else
        total_vuln' ← set_add (total_vuln st) v;
        let functions_meta' :=
          meta_add (functions_meta st)
            (function_name vu, contract_name vu, contract_file_path vu) in
        let key := (function_name vu, contract_name vu) in
        match detector with
        | slither =>
            d ← vdict_add (new_vulns_slither st) key vu;
            mret (mkFindingsState total_vuln' functions_meta' d
                    (new_vulns_oyente st))
        | oyente =>
            d ← vdict_add (new_vulns_oyente st) key vu;
            mret (mkFindingsState total_vuln' functions_meta'
                    (new_vulns_slither st) d)
        end
  end.

Fixpoint visit_all (detector : detector_name) (st : findings_state)
    (vulns : list elem) : result findings_state :=
  match vulns with
  | [] => mret st
  | v :: rest => st' ← visit detector st v; visit_all detector st' rest
  end.

(** The loop over [get_vulnerabilities(...).items()]: Slither's findings
    first, then Oyente's. *)
Definition collect_new (total_vuln : pyset)
    (vulnerabilities : list Vulnerability * list elem) : result findings_state :=
  st ← visit_all slither (mkFindingsState total_vuln [] [] [])
         (map Some (fst vulnerabilities));
  visit_all oyente st (snd vulnerabilities).

(** The groups of one function: found by both detectors, by Slither only,
    by Oyente only. *)
Definition groups_of (st : findings_state) (key : vkey)
    : result (list (string * pyset)) :=
  match vdict_get (new_vulns_slither st) key, vdict_get (new_vulns_oyente st) key with
  | Some s, Some o =>
      common_vulns ← set_union s o;
      mret (match common_vulns with
            | [] => []
            | _ => [("Slither|Oyente", common_vulns)]
            end)
  | Some s, None =>
      mret (match s with [] => [] | _ => [("Slither", s)] end)
  | None, Some o =>
      mret (match o with [] => [] | _ => [("Oyente", o)] end)
  | None, None => mret []
  end.

Fixpoint rows_of (st : findings_state) (total_commits : list string)
    (ms : list meta) : result (list patch_row) :=
  match ms with
  | [] => mret []
  | (function_name, contract_name, contract_file_path) :: rest =>
      groups ← groups_of st (function_name, contract_name);
      rows ← rows_of st total_commits rest;
      mret (mkPatchRow total_commits contract_name function_name
              contract_file_path groups :: rows)
  end.
End commit_loop.

(** *** The walk *)

(** [s.endswith(suffix)] *)
Definition ends_with (s suffix : string) : bool :=
  let r := rfind s suffix in
  (0 <=? r) && (r + strlen suffix =? strlen s).

(** The files of a commit the detectors are run on. *)
Fixpoint changed_sol_files (repo_path : string) (current_sol_files files : list string)
    : list string :=
  match files with
  | [] => []
  | f :: rest =>
      if String.eqb f EmptyString then []
      else if negb (ends_with f ".sol") || contains f "node_modules" ||
              contains f "mocks" || contains f "test"
      then changed_sol_files repo_path current_sol_files rest
      else
        let sol_file := repo_path +:+ "/" +:+ f in
        if existsb (String.eqb sol_file) current_sol_files
        then sol_file :: changed_sol_files repo_path current_sol_files rest
        else changed_sol_files repo_path current_sol_files rest
  end.

Record commit : Type := mkCommit {
  commit_hash : string;
  commit_files : list string  (* the lines of [git log -m -1 --name-only] *)
}.

Record walk_state : Type := mkWalkState {
  seen : pyset;                  (* [total_vuln] *)
  total_commits : list string
}.

(** What one commit of the walk produced: the findings it introduced, by
    detector, and the rows written for it. *)
Record commit_output : Type := mkCommitOutput {
  out_new_slither : vdict;
  out_new_oyente : vdict;
  out_rows : list patch_row
}.

Definition new_findings (o : commit_output) : nat :=
  (vdict_size (out_new_slither o) + vdict_size (out_new_oyente o))%nat.

Section walk.
Context `{PyHash}.

(** The detectors run on the working tree of a commit: Slither's findings
    and Oyente's (the latter with [None] placeholders). *)
Variable get_vulnerabilities :
  string -> list string -> result (list Vulnerability * list elem).
Variables (repo_path : string) (current_sol_files : list string).

Definition process_commit (st : walk_state) (c : commit)
    : result (walk_state * commit_output) :=
  let total_commits := total_commits st ++ [commit_hash c] in
  match changed_sol_files repo_path current_sol_files (commit_files c) with
  | [] => mret (mkWalkState (seen st) total_commits, mkCommitOutput [] [] [])
  | sol_files =>
      vulnerabilities ← get_vulnerabilities (commit_hash c) sol_files;
      fs ← collect_new (seen st) vulnerabilities;
      match functions_meta fs with
      | [] =>
          mret (mkWalkState (total_vuln fs) total_commits,
                mkCommitOutput (new_vulns_slither fs) (new_vulns_oyente fs) [])
      | ms =>
          rows ← rows_of fs total_commits ms;
          mret (mkWalkState (total_vuln fs) [],
                mkCommitOutput (new_vulns_slither fs) (new_vulns_oyente fs) rows)
      end
  end.

Fixpoint walk (st : walk_state) (commits : list commit)
    : result (walk_state * list commit_output) :=
  match commits with
  | [] => mret (st, [])
  | c :: rest =>
      '(st', o) ← process_commit st c;
      '(st'', os) ← walk st' rest;
      mret (st'', o :: os)
  end.

(** [process_repo] from the seeding of [total_vuln] on: the findings of the
    checked-out head, then the commits, newest first. *)
Definition process_repo (head : string) (commit_hashes : list commit)
    : result (walk_state * list commit_output) :=
  vulnerabilities ← get_vulnerabilities head current_sol_files;
  total_vuln ← set_of [] (map Some (fst vulnerabilities) ++ snd vulnerabilities);
  walk (mkWalkState total_vuln []) commit_hashes.
End walk.

(** *** A small walk

    Three commits, newest first.  At [c2] Slither reports the statement at
    line 5 and Oyente an occurrence it cannot locate and a second finding;
    at [c1] both detectors report the finding of line 5 again; [c0] touches
    a test file only. *)

Definition finding_of_line_5 : Vulnerability :=
  mkVulnerability (PStr "reentrancy") "/repo/contracts/A.sol" (PStr "C") (PStr "f") [5]
    "children.[*].subNodes.[*].body.statements.[*]"
    (remove_loc_info (sample_stmt "b" 5 6)).

Definition finding_of_line_4 : Vulnerability :=
  mkVulnerability (PStr "callstack") "/repo/contracts/A.sol" (PStr "C") (PStr "f") [4]
    "children.[*].subNodes.[*].body.statements.[*]"
    (remove_loc_info (sample_stmt "a" 4 4)).

Definition scenario_get_vulnerabilities (checkout : string) (sol_files : list string)
    : result (list Vulnerability * list elem) :=
  if String.eqb checkout "c2"
  then Ok ([finding_of_line_5], [None; Some finding_of_line_4])
  else if String.eqb checkout "c1"
  then Ok ([finding_of_line_5], [Some finding_of_line_5])
  else Ok ([], []).

Definition scenario_commits : list commit :=
  [mkCommit "c2" ["contracts/A.sol"; EmptyString];
   mkCommit "c1" ["contracts/A.sol"; "README.md"; EmptyString];
   mkCommit "c0" ["test/T.sol"; EmptyString]].

Definition in_band_0_4_7 (v : Version) : Prop :=
  version_ge v (mkVersion 0 4 7) = true /\ version_ge v (mkVersion 0 4 22) = false.

(** An absent key: every entry with its hash compares unequal, without
    raising. *)
Definition misses (key : elem) (h : Z) (entry : Z * elem) : Prop :=
  (fst entry =? h) = true -> elem_eq (snd entry) key = Ok false.

(** Every set of a dictionary of new findings holds entries of the seen
    set only. *)
Definition within_seen (tv : pyset) (d : vdict) : Prop :=
  Forall (fun ks => snd ks ⊆ tv) d.

Definition new_size (st : findings_state) : nat :=
  (vdict_size (new_vulns_slither st) + vdict_size (new_vulns_oyente st))%nat.

Definition dicts_within_seen (st : findings_state) : Prop :=
  within_seen (total_vuln st) (new_vulns_slither st) /\
  within_seen (total_vuln st) (new_vulns_oyente st).

(** *** When the walk does not raise *)

(** The placeholders [None] of a set are stored under the hash of [None]. *)
Definition none_under `{PyHash} (s : pyset) : Prop :=
  Forall (fun entry => snd entry = None -> fst entry = hash_None) s.

(** Placeholders under the hash of [None], findings under other hashes. *)
Definition hashes_kept_apart `{PyHash} (s : pyset) : Prop :=
  Forall (fun entry => match snd entry with
                       | None => fst entry = hash_None
                       | Some _ => fst entry <> hash_None
                       end) s.

(** A finding that can be hashed, to a value other than the hash of [None]. *)
Definition hashes_apart `{PyHash} (v : Vulnerability) : Prop :=
  exists h, hash_Vulnerability v = Ok h /\ h <> hash_None.

Definition elem_hashes_apart `{PyHash} (v : elem) : Prop :=
  match v with
  | Some vu => hashes_apart vu
  | None => True
  end.

(** A set, or every set of a dictionary, without placeholders. *)
Definition findings_only (s : pyset) : Prop :=
  Forall (fun entry => snd entry <> None) s.

Definition dict_findings_only (d : vdict) : Prop :=
  Forall (fun ks => findings_only (snd ks)) d.

(** What holds of the state between two findings of a commit. *)
Definition visit_invariant `{PyHash} (st : findings_state) : Prop :=
  none_under (total_vuln st) /\
  dicts_within_seen st /\
  dict_findings_only (new_vulns_slither st) /\
  dict_findings_only (new_vulns_oyente st).

(** The detectors do not raise and report findings that can be hashed. *)
Definition detectors_behave `{PyHash}
    (get_vulnerabilities :
       string -> list string -> result (list Vulnerability * list elem)) : Prop :=
  forall checkout sol_files,
    exists vs, get_vulnerabilities checkout sol_files = Ok vs /\
               Forall hashes_apart (fst vs) /\
               Forall elem_hashes_apart (snd vs).

(** ** Values without location fields *)

(** No dictionary of the value, at any depth, has the key ['loc']. *)
Fixpoint loc_free (v : pyval) : bool :=
  match v with
  | PList l => forallb loc_free l
  | PDict d =>
      (fix go (d : list (string * pyval)) : bool :=
         match d with
         | [] => true
         | (k, x) :: d' => negb (String.eqb k "loc") && loc_free x && go d'
         end) d
  | _ => true
  end.

(** A contract definition among the children of the tree. *)
Definition is_contract (child : pyval) : bool :=
  match getitem child "type" with
  | Ok ty => py_eq ty (PStr "ContractDefinition")
  | Raise _ => false
  end.

Fixpoint contracts_in (children : list pyval) : nat :=
  match children with
  | [] => 0%nat
  | child :: rest => ((if is_contract child then 1 else 0) + contracts_in rest)%nat
  end.

(** The nodes of a subNode that the locator compares with the line, each
    with the path suffix of its kind: the subNode itself, a member of a
    struct or an enum, a statement of the body of a function or modifier. *)
Definition compared_in (subNode m : pyval) (suffix : list string) : Prop :=
  exists ty,
    getitem subNode "type" = Ok ty /\
    if in_strs ty ["StateVariableDeclaration"; "UsingForDeclaration"; "EventDefinition"]
    then m = subNode /\ suffix = []
    else if in_strs ty ["StructDefinition"; "EnumDefinition"]
    then exists members ms,
           getitem subNode "members" = Ok members /\ py_iter members = Ok ms /\
           m ∈ ms /\ suffix = ["member"; "[*]"]
    else if in_strs ty ["FunctionDefinition"; "ModifierDefinition"]
    then exists ss,
           truthy (get_attr (get_attr subNode "body") "statements") = true /\
           py_iter (get_attr (get_attr subNode "body") "statements") = Ok ss /\
           m ∈ ss /\ suffix = ["body"; "statements"; "[*]"]
    else False.

(** What the locator returns for [line] from the subNodes of a contract:
    the stripped form of a compared node of one of them that starts at
    [line], under the path built so far and the suffix of the node kind. *)
Definition located_at (line : pyval) (node_path : list string)
    (subNodes : list pyval) (r : located) : Prop :=
  exists (subNode m : pyval) (suffix : list string),
    subNode ∈ subNodes /\
    compared_in subNode m suffix /\
    starts_at m line = Ok true /\
    r = (remove_loc_info m, node_path ++ suffix).

(** The same for a tree: the node sits in the subNodes of a contract
    definition among [tree['children']], and the path has [subNodes.[*]]
    once for every contract definition up to that one. *)
Definition located_in (tree line : pyval) (r : located) : Prop :=
  exists (children : pyval) (cs : list pyval) (i : nat)
         (child subNodes : pyval) (sns : list pyval),
    getitem tree "children" = Ok children /\ py_iter children = Ok cs /\
    cs !! i = Some child /\ is_contract child = true /\
    getitem child "subNodes" = Ok subNodes /\ py_iter subNodes = Ok sns /\
    located_at line (base_path (contracts_in (take (S i) cs))) sns r.

(** The marker of the metadata trailer [trim_bytecode] looks for, from
    0.4.22 on. *)
Definition trailer_marker (v : Version) : string :=
  if version_ge v (mkVersion 0 6 0) then "a264697066735822"
  else "a165627a7a72305820".

(** The candidate cannot be checked: its record is neither cached nor
    fetched, or compiling against it raises something else than an invalid
    compilation. *)
Definition candidate_fails (etherscan : string -> result etherscan_page)
    (solc : compile_call -> result string) (w : world)
    (contract_file remappings : string) (deployment_address : string)
    (e : exn) : Prop :=
  details etherscan w deployment_address = Raise e \/
  exists obj, details etherscan w deployment_address = Ok obj /\
              compiled solc contract_file remappings obj = Raise e.

(** ** [contracts.get_contract_deploymentaddr_map] *)

(** The loop over the rows of [verified-contractaddress.csv]: each row is
    unpacked into three fields, and the address is appended to the list of
    its contract name ([setdefault(name, []).append(address)]).  The
    dictionary is only ever asked for a key, so its key order is not
    modelled. *)
Fixpoint deploymentaddr_rows (m : gmap string (list string))
    (rows : list (list string)) : result (gmap string (list string)) :=
  match rows with
  | [] => mret m
  | row :: rest =>
      match row with
      | [_; ContractAddress; ContractName] =>
          deploymentaddr_rows
            (<[ContractName := default [] (m !! ContractName) ++ [ContractAddress]]> m)
            rest
      | _ => Raise ValueError
      end
  end.

(** [get_contract_deploymentaddr_map], from the rows [read_csv] returned;
    the first row is the header. *)
Definition get_contract_deploymentaddr_map (verified_deployment_addr : list (list string))
    : result (gmap string (list string)) :=
  deploymentaddr_rows ∅ (drop 1 verified_deployment_addr).

(** The addresses recorded for a contract name, in file order. *)
Definition addresses_of (name : string) (rows : list (list string)) : list string :=
  flat_map (fun row => match row with
                       | [_; a; n] => if String.eqb n name then [a] else []
                       | _ => []
                       end) rows.

(** ** [sol_parser] *)

(** [d.get(key)]: only a dictionary has the method. *)
Definition dict_get (d : pyval) (key : string) : result pyval :=
  match d with
  | PDict kv => Ok (default PNone (assoc key kv))
  | _ => Raise AttributeError
  end.

(** *** [sol_parser.get_node_from_line] *)

(** The innermost loop: the first subNode whose range contains the line. *)
Fixpoint node_in_subNodes (line : Z) (subNodes : list pyval)
    : result (option (pyval * pyval)) :=
  match subNodes with
  | [] => mret None
  | subNode :: rest =>
      subNodeStart ← start_line subNode;
      subNodeEnd ← end_line subNode;
      hit ← within line subNodeStart subNodeEnd;
      if hit : bool then
        ty ← getitem subNode "type";
        name ← getitem subNode "name";
        mret (Some (ty, name))
      else node_in_subNodes line rest
  end.

(** The loop over the lines, for one child. *)
Fixpoint node_for_lines (child start stop : pyval) (lines : list string)
    : result (option (pyval * pyval)) :=
  match lines with
  | [] => mret None
  | line :: rest =>
      z ← int_of_str line;
      inside ← within z start stop;
      if inside : bool then
        sns ← py_iter (get_attr child "subNodes");
        r ← node_in_subNodes z sns;
        match r with
        | Some found => mret (Some found)
        | None => node_for_lines child start stop rest
        end
      else node_for_lines child start stop rest
  end.

Fixpoint node_of_children (lines : list string) (children : list pyval)
    : result (pyval * pyval) :=
  match children with
  | [] => mret (PStr EmptyString, PStr EmptyString)
  | child :: rest =>
      start ← start_line child;
      stop ← end_line child;
      r ← node_for_lines child start stop lines;
      match r with
      | Some found => mret found
      | None => node_of_children lines rest
      end
  end.

Definition get_node_from_line (data : pyval) (lines : string)
    : result (pyval * pyval) :=
  let lines := split_on ":" lines in
  let children := get_attr data "children" in
  if negb (truthy children) then mret (PStr EmptyString, PStr EmptyString)
  else
    cs ← py_iter children;
    node_of_children lines cs.

(** *** [sol_parser.get_lines_from_node] *)

(** [':'.join([str(line) for line in range(start, end + 1)])] *)
Definition range_text (start stop : pyval) : result string :=
  match as_number start, as_number stop with
  | Some s, Some e => Ok (join ":" (map pretty (seqZ s (e + 1 - s))))
  | _, _ => Raise TypeError
  end.

Fixpoint lines_in_subNodes (node_type node_name : pyval) (subNodes : list pyval)
    : result (option string) :=
  match subNodes with
  | [] => mret None
  | subNode :: rest =>
      if py_eq (get_attr subNode "type") node_type &&
         py_eq (get_attr subNode "name") node_name
      then
        subNodeStart ← start_line subNode;
        subNodeEnd ← end_line subNode;
        lines ← range_text subNodeStart subNodeEnd;
        mret (Some lines)
      else lines_in_subNodes node_type node_name rest
  end.

Fixpoint lines_of_children (node_type node_name : pyval) (children : list pyval)
    : result string :=
  match children with
  | [] => mret EmptyString
  | child :: rest =>
      subNodes ← dict_get child "subNodes";
      if negb (truthy subNodes) then lines_of_children node_type node_name rest
      else
        sns ← py_iter (get_attr child "subNodes");
        r ← lines_in_subNodes node_type node_name sns;
        match r with
        | Some lines => mret lines
        | None => lines_of_children node_type node_name rest
        end
  end.

Definition get_lines_from_node (data node_type node_name : pyval) : result string :=
  if negb (truthy (get_attr data "children")) then mret EmptyString
  else
    cs ← py_iter (get_attr data "children");
    lines_of_children node_type node_name cs.

(** A subNode with the given type and name whose range is [s..e]. *)
Definition named_range (node_type node_name : pyval) (s e : Z) (subNode : pyval)
    : Prop :=
  py_eq (get_attr subNode "type") node_type = true /\
  py_eq (get_attr subNode "name") node_name = true /\
  exists sv ev, start_line subNode = Ok sv /\ end_line subNode = Ok ev /\
                as_number sv = Some s /\ as_number ev = Some e.

(** A child none of whose lines is inside its range. *)
Definition child_passed_over (lines : list string) (child : pyval) : Prop :=
  exists start stop,
    start_line child = Ok start /\ end_line child = Ok stop /\
    Forall (fun line => exists z, int_of_str line = Ok z /\
                                  within z start stop = Ok false) lines.

(** A file that starts with a pragma in line 1, in front of the contract of
    [sample_tree]. *)
Definition sample_pragma : pyval :=
  PDict [("type", PStr "PragmaDirective");
         ("name", PStr "solidity");
         ("value", PStr "^0.4.24");
         ("loc", mk_loc 1 1)].

Definition sample_tree_with_pragma : pyval :=
  PDict [("type", PStr "SourceUnit");
         ("children",
          PList [sample_pragma;
                 PDict [("type", PStr "ContractDefinition");
                        ("name", PStr "C");
                        ("subNodes", PList [sample_statevar; sample_function]);
                        ("loc", mk_loc 2 8)]])].

(** ** [patches.get_vulnerabilities] *)

(** The search for the version pragma: the value of the first child that is
    a [PragmaDirective] named [solidity], or the empty string. *)
Fixpoint pragma_version (children : list pyval) : result pyval :=
  match children with
  | [] => mret (PStr EmptyString)
  | child :: rest =>
      ty ← getitem child "type";
      if py_eq ty (PStr "PragmaDirective") then
        name ← getitem child "name";
        if py_eq name (PStr "solidity") then getitem child "value"
        else pragma_version rest
      else pragma_version rest
  end.

Section vulnerabilities.
(** The external collaborators: [sol_parser.parse_solc], which returns the
    pair [(ast, err)]; [get_solc_version]; the two detector runs, which
    return the parsed report or the string ['null'] and never raise; and the
    remappings read from the working tree. *)
Variable parse_solc : string -> result (pyval * pyval).
Variable get_solc_version : pyval -> result pyval.
Variable execute_slither : string -> pyval -> string -> pyval.
Variable execute_oyente : string -> string -> pyval -> string -> pyval.
Variable get_remappings : string -> result string.
Variable OYENTE_PATH : string.

(** The loop over the files; [vulns] holds the two lists built so far.  An
    unparsable file is skipped; a file without a usable version ends the
    loop. *)
Fixpoint vulnerabilities_of_files (remapping : string)
    (vulns : list Vulnerability * list elem) (sol_files : list string)
    : result (list Vulnerability * list elem) :=
  match sol_files with
  | [] => mret vulns
  | sol_file :: rest =>
      '(ast, err) ← parse_solc sol_file;
      if truthy err then vulnerabilities_of_files remapping vulns rest
      else
        children ← getitem ast "children";
        cs ← py_iter children;
        version_str ← pragma_version cs;
        version ← get_solc_version version_str;
        if negb (truthy version) then mret vulns
        else
          let out_json := execute_slither sol_file version remapping in
          found_slither ←
            (if negb (py_eq out_json (PStr "null"))
             then parse_slither_output out_json ast sol_file else mret []);
          let out_json := execute_oyente OYENTE_PATH sol_file version remapping in
          found_oyente ←
            (if negb (py_eq out_json (PStr "null"))
             then parse_oyente_output out_json ast sol_file else mret []);
          vulnerabilities_of_files remapping
            (fst vulns ++ found_slither, snd vulns ++ found_oyente) rest
  end.

Definition get_vulnerabilities (repo_path : string) (sol_files : list string)
    : result (list Vulnerability * list elem) :=
  remapping ← get_remappings repo_path;
  vulnerabilities_of_files remapping ([], []) sol_files.

(** A file that is parsed but for which no usable compiler version is
    found. *)
Definition incompatible (sol_file : string) : Prop :=
  exists ast err children cs version_str version,
    parse_solc sol_file = Ok (ast, err) /\ truthy err = false /\
    getitem ast "children" = Ok children /\ py_iter children = Ok cs /\
    pragma_version cs = Ok version_str /\
    get_solc_version version_str = Ok version /\ truthy version = false.

(** A file the parser reports an error for. *)
Definition unparsable (sol_file : string) : Prop :=
  exists ast err, parse_solc sol_file = Ok (ast, err) /\ truthy err = true.
End vulnerabilities.

(** Every finding of the list, placeholders apart, names one of the files. *)
Definition names_one_of (files : list string) (o : elem) : Prop :=
  match o with
  | Some v => contract_file_path v ∈ files
  | None => True
  end.

(** A subNode that is a function definition whose range contains the line. *)
Definition function_around (line : Z) (name : pyval) (subNode : pyval) : Prop :=
  exists sv ev ty,
    start_line subNode = Ok sv /\ end_line subNode = Ok ev /\
    within line sv ev = Ok true /\
    getitem subNode "type" = Ok ty /\ py_eq ty (PStr "FunctionDefinition") = true /\
    getitem subNode "name" = Ok name.

(** [subNode] is one of [child['subNodes']] and [child] is one of
    [node['children']]. *)
Definition subNode_of_child (node child subNode : pyval) : Prop :=
  exists (children : pyval) (cs : list pyval) (subNodes : pyval) (sns : list pyval),
    getitem node "children" = Ok children /\ py_iter children = Ok cs /\
    child ∈ cs /\
    getitem child "subNodes" = Ok subNodes /\ py_iter subNodes = Ok sns /\
    subNode ∈ sns.

(** The same with the attribute access of [sol_parser]: [subNode] is one
    of [child.subNodes] and [child] is one of [data.children]. *)
Definition subNode_of_data (data child subNode : pyval) : Prop :=
  exists (cs sns : list pyval),
    py_iter (get_attr data "children") = Ok cs /\ child ∈ cs /\
    py_iter (get_attr child "subNodes") = Ok sns /\ subNode ∈ sns.

(** No element of the list is of type ['function']. *)
Definition no_function_element (elements : list pyval) : Prop :=
  Forall (fun element => py_eq (get_attr element "type") (PStr "function") = false)
    elements.
(** An entry of [results.detectors] that has a node element only. *)
Definition node_only_result (sol_file check : string) (lines : list Z) : pyval :=
  PDict
    [("elements",
      PList
        [PDict [("type", PStr "node");
                ("name", PStr "statement");
                ("source_mapping",
                 PDict [("filename_used", PStr sol_file);
                        ("lines", PList (map PInt lines))])]]);
     ("check", PStr check);
     ("impact", PStr "High")].

(** A run of [get_vulnerabilities]: [A.sol] parses and asks for 0.4.24,
    [old.sol] parses and has no usable version, any other file does not
    parse; Slither reports line 5 of a file, Oyente nothing. *)
Definition scenario_parse_solc (sol_file : string) : result (pyval * pyval) :=
  if String.eqb sol_file "/repo/A.sol" then Ok (sample_tree_with_pragma, PNone)
  else if String.eqb sol_file "/repo/old.sol"
  then Ok (PDict [("type", PStr "SourceUnit"); ("children", PList [])], PNone)
  else Ok (PNone, PStr "ParserError").

Definition scenario_get_solc_version (version_str : pyval) : result pyval :=
  if truthy version_str then Ok (PStr "0.4.24") else Ok PNone.

Definition scenario_execute_slither (sol_file : string) (version : pyval)
    (remapping : string) : pyval :=
  slither_json [slither_result sol_file (mkSlitherFinding "reentrancy-eth" "f" "C" [5])].

Definition scenario_execute_oyente (oyente_root sol_file : string) (version : pyval)
    (remapping : string) : pyval :=
  PStr "null".

(** ** What the walk reports *)

(** The [Commits] column of the rows written for a commit (the same in
    every row), empty when no row was written. *)
Definition reported_commits (o : commit_output) : list string :=
  match out_rows o with
  | [] => []
  | r :: _ => row_commits r
  end.

(** The entries of the sets of a dictionary of new findings, and the new
    findings reported for a commit. *)
Definition dict_entries (d : vdict) : list (Z * elem) := flat_map snd d.

Definition reported (o : commit_output) : list (Z * elem) :=
  dict_entries (out_new_slither o) ++ dict_entries (out_new_oyente o).

(** The entry holds a finding that the set does not contain. *)
Definition new_to (tv : pyset) (entry : Z * elem) : Prop :=
  exists v, snd entry = Some v /\ set_lookkey tv (Some v) (fst entry) = Ok false.
(** What holds of the dictionaries of new findings, relative to the set
    [tv0] the commit started from. *)
Definition all_new_to (tv0 : pyset) (st : findings_state) : Prop :=
  Forall (new_to tv0) (dict_entries (new_vulns_slither st)) /\
  Forall (new_to tv0) (dict_entries (new_vulns_oyente st)).

(** A second small walk: at [c2] Slither reports the finding of line 5; at
    [c1] it reports it again and Oyente the finding of line 4. *)
Definition scenario_two_reports (checkout : string) (sol_files : list string)
    : result (list Vulnerability * list elem) :=
  if String.eqb checkout "c2" then Ok ([finding_of_line_5], [])
  else if String.eqb checkout "c1"
  then Ok ([finding_of_line_5], [Some finding_of_line_4])
  else Ok ([], []).

(** ** [objects.convert_vuln] and the [Vulnerabilities] column *)

(** [detectors, vuls = x.split(sep, maxsplit=1)]: the text in front of the
    first separator and the text behind it; [None] stands for the
    [ValueError] of the unpacking when the separator does not occur. *)
Fixpoint split_once (sep : ascii) (s : string) : option (string * string) :=
  match s with
  | EmptyString => None
  | String c s' =>
      if Ascii.eqb c sep then Some (EmptyString, s')
      else
        match split_once sep s' with
        | Some (a, b) => Some (String c a, b)
        | None => None
        end
  end.

(** [re.split('\)\|*', s)]: the text is cut at every closing parenthesis,
    together with the bars that follow it.  [skipping] holds while the bars
    behind a parenthesis are being consumed. *)
Fixpoint re_split_go (skipping : bool) (s : string) : list string :=
  match s with
  | EmptyString => [EmptyString]
  | String c s' =>
      if skipping && Ascii.eqb c "|" then re_split_go true s'
      else if Ascii.eqb c ")" then EmptyString :: re_split_go true s'
      else
        match re_split_go false s' with
        | p :: ps => String c p :: ps
        | [] => []
        end
  end.

Definition re_split_paren_bars (s : string) : list string := re_split_go false s.

(** [tuple(v + ')' for v in re.split('\)\|*', vuls) if v)] *)
Definition vuls_of (vuls : string) : list string :=
  map (fun v => v +:+ ")")
    (List.filter (fun v => negb (String.eqb v EmptyString)) (re_split_paren_bars vuls)).

(** The dictionary [convert_vuln] builds: from a tuple of detector names to
    a tuple of texts, in insertion order. *)
Definition vuln_dict : Type := list (list string * list string).

(** [d[key] = value]: the value of a key that is present is replaced where
    it stands. *)
Fixpoint vuln_dict_set (d : vuln_dict) (key value : list string) : vuln_dict :=
  match d with
  | [] => [(key, value)]
  | (k, v) :: d' =>
      if bool_decide (k = key) then (k, value) :: d'
      else (k, v) :: vuln_dict_set d' key value
  end.

Fixpoint convert_pieces (d : vuln_dict) (pieces : list string) : result vuln_dict :=
  match pieces with
  | [] => mret d
  | x :: rest =>
      match split_once ":" x with
      | None => Raise ValueError
      | Some (detectors, vuls) =>
          convert_pieces (vuln_dict_set d (split_on "|" detectors) (vuls_of vuls)) rest
      end
  end.

Definition convert_vuln (value : string) : result vuln_dict :=
  convert_pieces [] (split_on ";" value).

(** The [Vulnerabilities] cell of [toDictWriterRow]:
    [';'.join(F'{"|".join(detector)}:{"|".join(vuls)}' for detector, vuls in
    self.Vulnerabilities.items())]. *)
Definition vulnerabilities_entry (dv : list string * list string) : string :=
  join "|" (fst dv) +:+ ":" +:+ join "|" (snd dv).

Definition vulnerabilities_text (d : vuln_dict) : string :=
  join ";" (map vulnerabilities_entry d).

(** The character does not occur in the string. *)
Fixpoint no_char (c : ascii) (s : string) : bool :=
  match s with
  | EmptyString => true
  | String a s' => negb (Ascii.eqb a c) && no_char c s'
  end.

(** The shape of what the dataset writes into the column: detector names
    without bar, colon or semicolon; texts [name(lines)] that end with their
    only closing parenthesis, have no semicolon and do not start with a
    bar. *)
Definition plain_detector (s : string) : Prop :=
  no_char "|" s = true /\ no_char ":" s = true /\ no_char ";" s = true.

Definition vul_text (t : string) : Prop :=
  exists body, t = body +:+ ")" /\ body <> EmptyString /\
               no_char ")" body = true /\ no_char ";" body = true /\
               String.prefix "|" body = false.

Definition column_ok (d : vuln_dict) : Prop :=
  d <> [] /\ NoDup (map fst d) /\
  Forall (fun kv => fst kv <> [] /\ Forall plain_detector (fst kv) /\
                    Forall vul_text (snd kv)) d.
(** ** [objects.Patch] *)

(** A record of [patches.csv].  [ContractFilePath] holds the text of the
    [Path] object. *)
Record Patch : Type := mkPatch {
  RepoName : pyval;
  PRID : option Z;
  IssueIDs : option (list Z);
  Commits : list string;
  Merged : bool;
  ContractName : pyval;
  FunctionName : pyval;
  ContractFilePath : string;
  Vulnerabilities : vuln_dict
}.

(** The converters of the attributes, on the strings the columns hold. *)

(** [None if x == 'null' else int(x)] *)
Definition PRID_converter (x : string) : result (option Z) :=
  if String.eqb x "null" then Ok None
  else match py_int x with
       | Some z => Ok (Some z)
       | None => Raise ValueError
       end.

(** [tuple(int(y) for y in x.split(';') if y) if x != 'null' else None] *)
Definition IssueIDs_converter (x : string) : result (option (list Z)) :=
  if negb (String.eqb x "null") then
    ids ← ints_of (List.filter (fun y => negb (String.eqb y EmptyString))
                     (split_on ";" x));
    mret (Some ids)
  else mret None.

(** [tuple(y for y in x.split(';'))] *)
Definition Commits_converter (x : string) : list string := split_on ";" x.

(** [bool(x)] *)
Definition Merged_converter (x : string) : bool := negb (String.eqb x EmptyString).

Section patch_records.
(** [str(Path(x))], the text of the path object made of [x]. *)
Variable path_text : string -> string.

(** [Patch(RepoName, PRID, IssueIDs, Commits, Merged, ContractName,
    FunctionName, ContractFilePath, Vulnerabilities)]: the converters run in
    the order of the attributes. *)
Definition new_Patch (RepoName : pyval) (PRID IssueIDs Commits Merged : string)
    (ContractName FunctionName : pyval) (ContractFilePath Vulnerabilities : string)
    : result Patch :=
  prid ← PRID_converter PRID;
  issue_ids ← IssueIDs_converter IssueIDs;
  vulnerabilities ← convert_vuln Vulnerabilities;
  mret (mkPatch RepoName prid issue_ids (Commits_converter Commits)
          (Merged_converter Merged) ContractName FunctionName
          (path_text ContractFilePath) vulnerabilities).
End patch_records.

(** [Patch.toDictWriterRow] *)
Definition Patch_toDictWriterRow (self : Patch) : list (string * pyval) :=
  [("RepoName", RepoName self);
   ("PRID", PStr (match PRID self with
                  | Some prid => pretty prid
                  | None => "null"
                  end));
   ("IssueIDs", PStr (match IssueIDs self with
                      | Some (id :: ids) => join ";" (map pretty (id :: ids))
                      | _ => "null"
                      end));
   ("Commits", PStr (join ";" (Commits self)));
   ("Merged", PStr (if Merged self then "True" else "False"));
   ("ContractName", ContractName self);
   ("FunctionName", FunctionName self);
   ("ContractFilePath", PStr (ContractFilePath self));
   ("Vulnerabilities", PStr (vulnerabilities_text (Vulnerabilities self)))].

(** ** The kinds the two detectors name *)

(** [detector_slither.SLITHER_DETECTORS]: the checks Slither is run with
    ([--detect]); the [check] of every entry of its report, which becomes
    the [vuln_name] of the finding, is one of them. *)
Definition SLITHER_DETECTORS : string :=
  "name-reused,rtlo,shadowing-state,suicidal,uninitialized-state,uninitialized-storage,arbitrary-send,controlled-delegatecall,reentrancy-eth,incorrect-equality,locked-ether,reentrancy-no-eth,unchecked-send,reentrancy-benign,reentrancy-events".

Definition slither_checks : list string := split_on "," SLITHER_DETECTORS.

(** The finding-identity relation without the kind: same path, same
    subtree, same contract and function names. *)
Definition same_place (a b : Vulnerability) : bool :=
  String.eqb (ast_node_path a) (ast_node_path b) &&
  deep_equal (ast_node a) (ast_node b) &&
  py_eq (contract_name a) (contract_name b) &&
  py_eq (function_name a) (function_name b).

(** Slither's report of the statement of line 5 of [sample_tree], and a run
    of the detectors in which Slither and Oyente both report it, each under
    its own kind name. *)
Definition finding_of_line_5_by_slither : Vulnerability :=
  mkVulnerability (PStr "reentrancy-eth") "/repo/contracts/A.sol" (PStr "C") (PStr "f")
    [5; 6] "children.[*].subNodes.[*].body.statements.[*]"
    (remove_loc_info (sample_stmt "b" 5 6)).

Definition scenario_both_detectors (checkout : string) (sol_files : list string)
    : result (list Vulnerability * list elem) :=
  Ok ([finding_of_line_5_by_slither], [Some finding_of_line_5]).

(** *** Distinct new findings *)

(** The set holds a finding equal to [v], stored under the hash [h]: what
    [v in total_vuln] asks for a finding of hash [h]. *)
Definition holds (s : pyset) (h : Z) (v : Vulnerability) : Prop :=
  exists a, (h, Some a) ∈ s /\ Vulnerability__eq__ a v = true.

Section distinct_new_findings.
Context `{PyHash}.

(** [added] holds the distinct new findings among [reports], relative to
    the set [s]: every entry is one of the reports, stored under its hash;
    no entry is held by [s] or by the entries in front of it; and every
    report is held by [s] with the entries. *)
Definition distinct_new (s : pyset) (reports : list Vulnerability)
    (added : list (Z * elem)) : Prop :=
  (forall h e, (h, e) ∈ added ->
     exists v, e = Some v /\ hash_Vulnerability v = Ok h /\ v ∈ reports) /\
  (forall before h v after,
     added = before ++ (h, Some v) :: after -> ~ holds (s ++ before) h v) /\
  (forall v, v ∈ reports ->
     exists h, hash_Vulnerability v = Ok h /\ holds (s ++ added) h v).

(** The findings the detectors report for a commit of the walk, in the
    order the loop visits them: Slither's, then Oyente's, the placeholders
    left out; none when the commit changes no contract file, as the
    detectors are not run then. *)
Definition detector_reports
    (get_vulnerabilities :
       string -> list string -> result (list Vulnerability * list elem))
    (repo_path : string) (current_sol_files : list string) (c : commit)
    : list Vulnerability :=
  match changed_sol_files repo_path current_sol_files (commit_files c) with
  | [] => []
  | sol_files =>
      match get_vulnerabilities (commit_hash c) sol_files with
      | Ok vs => fst vs ++ omap id (snd vs)
      | Raise _ => []
      end
  end.
End distinct_new_findings.

(** * Theorems *)

(** ** Properties of the locator *)

Lemma result_bind_ok {A B} (m : result A) (f : A -> result B) b :
  m ≫= f = Ok b -> exists a, m = Ok a /\ f a = Ok b.
Proof. destruct m as [a|e]; simpl; [eauto | discriminate]. Qed.

Ltac inv_bind H :=
  let a := fresh "a" in
  let Ha := fresh "Ha" in
  apply result_bind_ok in H as (a & Ha & H).

Lemma scan_items_first line node_path suffix items cs :
  items_candidates node_path suffix items = Ok cs ->
  scan_items line node_path suffix items = Ok (first_at line cs).
Proof.
  revert cs. induction items as [|item rest IH]; intros cs H; simpl in *.
  - by inversion H.
  - inv_bind H. inv_bind H. inversion H; subst; clear H.
    unfold starts_at. rewrite Ha. simpl. unfold first_at. simpl.
    destruct (py_eq a line); [done |].
    by rewrite (IH _ Ha0).
Qed.

Lemma first_at_app line cs cs' :
  first_at line (cs ++ cs') =
  match first_at line cs with
  | Some r => Some r
  | None => first_at line cs'
  end.
Proof.
  unfold first_at. induction cs as [|c cs IH]; simpl; [by destruct (find _ cs') |].
  by destruct (py_eq (cand_line c) line).
Qed.

Lemma scan_subNode_first line node_path subNode cs :
  subNode_candidates node_path subNode = Ok cs ->
  scan_subNode line node_path subNode = Ok (first_at line cs).
Proof.
  unfold subNode_candidates, scan_subNode. intros H.
  inv_bind H. rewrite Ha. simpl.
  destruct (in_strs a _).
  { inv_bind H. inversion H; subst; clear H. unfold starts_at. rewrite Ha0.
    simpl. unfold first_at. simpl. by destruct (py_eq a0 line). }
  destruct (in_strs a _).
  { inv_bind H. inv_bind H. rewrite Ha0. simpl. rewrite Ha1. simpl.
    by apply scan_items_first. }
  destruct (in_strs a _); [| by inversion H].
  destruct (truthy _); [| by inversion H].
  inv_bind H. rewrite Ha0. simpl. by apply scan_items_first.
Qed.

Lemma scan_subNodes_first line node_path subNodes cs :
  subNodes_candidates node_path subNodes = Ok cs ->
  scan_subNodes line node_path subNodes = Ok (first_at line cs).
Proof.
  revert cs. induction subNodes as [|sn rest IH]; intros cs H; simpl in *.
  - by inversion H.
  - inv_bind H. inv_bind H. inversion H; subst; clear H.
    rewrite (scan_subNode_first _ _ _ _ Ha). simpl.
    rewrite first_at_app. destruct (first_at line a); [done |]. by apply IH.
Qed.

Lemma scan_children_first line node_path children cs :
  children_candidates node_path children = Ok cs ->
  scan_children line node_path children =
  match first_at line cs with
  | Some r => Ok r
  | None => Raise AstNodeNotFound
  end.
Proof.
  revert node_path cs.
  induction children as [|c rest IH]; intros node_path cs H; simpl in *.
  - by inversion H.
  - inv_bind H. rewrite Ha. simpl.
    destruct (py_eq a _); [| by apply IH].
    inv_bind H. inv_bind H. inv_bind H. inv_bind H.
    inversion H; subst; clear H.
    rewrite Ha0. simpl. rewrite Ha1. simpl.
    rewrite (scan_subNodes_first _ _ _ _ Ha2). simpl.
    rewrite first_at_app. destruct (first_at line a2); [done |]. by apply IH.
Qed.

Lemma items_candidates_path node_path suffix items cs c :
  items_candidates node_path suffix items = Ok cs ->
  c ∈ cs -> cand_path c = node_path ++ suffix.
Proof.
  revert cs. induction items as [|item rest IH]; intros cs H Hc; simpl in *.
  - inversion H; subst. by apply elem_of_nil in Hc.
  - inv_bind H. inv_bind H. inversion H; subst; clear H.
    apply elem_of_cons in Hc as [-> | Hc]; [done | eauto].
Qed.

Lemma subNode_candidates_path node_path subNode cs c :
  subNode_candidates node_path subNode = Ok cs ->
  c ∈ cs -> exists suffix, cand_path c = node_path ++ suffix /\ path_suffix_ok suffix.
Proof.
  unfold subNode_candidates, path_suffix_ok. intros H Hc. inv_bind H.
  destruct (in_strs a _).
  { inv_bind H. inversion H; subst; clear H.
    apply list_elem_of_singleton in Hc as ->. exists []. simpl.
    by rewrite app_nil_r; auto. }
  destruct (in_strs a _).
  { inv_bind H. inv_bind H. eexists. split; [by eapply items_candidates_path |].
    auto. }
  destruct (in_strs a _); [| inversion H; subst; by apply elem_of_nil in Hc].
  destruct (truthy _); [| inversion H; subst; by apply elem_of_nil in Hc].
  inv_bind H. eexists. split; [by eapply items_candidates_path |]. auto.
Qed.

Lemma subNodes_candidates_path node_path subNodes cs c :
  subNodes_candidates node_path subNodes = Ok cs ->
  c ∈ cs -> exists suffix, cand_path c = node_path ++ suffix /\ path_suffix_ok suffix.
Proof.
  revert cs. induction subNodes as [|sn rest IH]; intros cs H Hc; simpl in *.
  - inversion H; subst. by apply elem_of_nil in Hc.
  - inv_bind H. inv_bind H. inversion H; subst; clear H.
    apply elem_of_app in Hc as [Hc | Hc]; [by eapply subNode_candidates_path | eauto].
Qed.

Lemma base_path_S k : base_path k ++ ["subNodes"; "[*]"] = base_path (S k).
Proof.
  unfold base_path. rewrite <- app_assoc. f_equal.
  change ["subNodes"; "[*]"] with (concat (replicate 1 ["subNodes"; "[*]"])) at 2.
  rewrite <- concat_app, <- replicate_add.
  by replace (k + 1)%nat with (S k) by lia.
Qed.

Lemma children_candidates_path (k : nat) node_path children cs c :
  node_path = base_path k ->
  children_candidates node_path children = Ok cs ->
  c ∈ cs -> path_shape (cand_path c).
Proof.
  revert k node_path cs.
  induction children as [|ch rest IH]; intros k node_path cs -> H Hc.
  - inversion H; subst. by apply elem_of_nil in Hc.
  - cbn [children_candidates] in H. inv_bind H.
    destruct (py_eq a _); [| by eapply IH].
    inv_bind H. inv_bind H. inv_bind H. inv_bind H. inversion H; subst; clear H.
    rewrite base_path_S in Ha2, Ha3.
    apply elem_of_app in Hc as [Hc | Hc]; [| by eapply (IH (S k))].
    destruct (subNodes_candidates_path _ _ _ _ Ha2 Hc) as (suffix & Hs & Hok).
    exists k, suffix. split; [| done].
    rewrite Hs. unfold base_path. by rewrite <- app_assoc.
Qed.

(** C5 (amended): on a tree whose candidate nodes can all be enumerated,
    [get_node_and_node_path] returns the first candidate, in visiting order,
    whose START line equals [line] (location fields stripped) together with
    its path, and raises the node-not-found error when no candidate starts at
    [line]; every path begins [children.[*].subNodes.[*]] and ends with the
    suffix of the node kind. *)
Theorem locator_returns_first_start_match (tree line : pyval) (cs : list candidate) :
  candidates tree = Ok cs ->
  get_node_and_node_path tree line =
    match first_at line cs with
    | Some r => Ok r
    | None => Raise AstNodeNotFound
    end /\
  Forall (fun c => path_shape (cand_path c)) cs.
Proof.
  unfold candidates, get_node_and_node_path. intros H.
  inv_bind H. inv_bind H. rewrite Ha. simpl. rewrite Ha0. simpl. split.
  - by apply scan_children_first.
  - apply Forall_forall. intros c Hc.
    by eapply (children_candidates_path 0).
Qed.

Lemma locator_returns_first_start_match_witness :
  get_node_and_node_path sample_tree (PInt 5) =
    Ok (remove_loc_info (sample_stmt "b" 5 6),
        ["children"; "[*]"; "subNodes"; "[*]"; "body"; "statements"; "[*]"]).
Proof.
  destruct (locator_returns_first_start_match sample_tree (PInt 5) _ eq_refl)
    as [H _].
  exact H.
Defined.

(** C5 as stated fails: line 6 lies inside the range 5..6 of the second
    statement of [f], yet the locator raises. *)
Lemma locator_misses_line_inside_range :
  (getitem sample_function "body" ≫= fun b => getitem b "statements")
    = Ok (PList [sample_stmt "a" 4 4; sample_stmt "b" 5 6]) /\
  start_line (sample_stmt "b" 5 6) = Ok (PInt 5) /\
  end_line (sample_stmt "b" 5 6) = Ok (PInt 6) /\
  get_node_and_node_path sample_tree (PInt 6) = Raise AstNodeNotFound.
Proof. repeat split; vm_compute; reflexivity. Qed.

(** ** Equality and hash of findings *)

Lemma forallb_self_exists {A} (f : A -> A -> bool) (l : list A) :
  Forall (fun x => f x x = true) l ->
  forallb (fun x => existsb (fun y => f x y) l) l = true.
Proof.
  intros Hl. apply List.forallb_forall. intros x Hx.
  apply List.existsb_exists. exists x. split; [done |].
  rewrite List.Forall_forall in Hl. by apply Hl.
Qed.

Lemma py_eq_refl a : py_eq a a = true.
Proof.
  induction a as [| b | z | s | l IH | d IH] using pyval_ind; simpl.
  - done.
  - by destruct b.
  - apply Z.eqb_refl.
  - apply String.eqb_refl.
  - induction IH as [| x l Hx _ IHl]; [done |]. by rewrite Hx, IHl.
  - rewrite Nat.eqb_refl. simpl.
    apply (forallb_self_exists
             (fun kx ky => String.eqb (fst kx) (fst ky) && py_eq (snd kx) (snd ky))).
    eapply Forall_impl; [exact IH |]. intros [k x] Hx. simpl in *.
    by rewrite String.eqb_refl, Hx.
Qed.

Lemma deep_equal_refl a : deep_equal a a = true.
Proof.
  induction a as [| b | z | s | l IH | d IH] using pyval_ind; simpl.
  - done.
  - by destruct b.
  - apply Z.eqb_refl.
  - apply String.eqb_refl.
  - rewrite (forallb_self_exists deep_equal l IH). simpl.
    apply List.forallb_forall. intros y Hy. apply List.existsb_exists.
    exists y. split; [done |]. rewrite List.Forall_forall in IH. by apply IH.
  - apply andb_true_intro. split.
    + apply (forallb_self_exists
               (fun kx ky => String.eqb (fst kx) (fst ky) &&
                             deep_equal (snd kx) (snd ky))).
      eapply Forall_impl; [exact IH |]. intros [k x] Hx. simpl in *.
      by rewrite String.eqb_refl, Hx.
    + apply List.forallb_forall. intros ky Hy. apply List.existsb_exists.
      exists ky. split; [done | apply String.eqb_refl].
Qed.

(** C3 (amended): findings that agree on the structural path, the canonical
    subtree, the contract name, the function name and the kind name are equal
    and hash alike, whatever their [contract_file_path] and line numbers:
    findings reported against different files are merged. *)
Theorem eq_ignores_contract_file_path `{PyHash} (v : Vulnerability)
    (file : string) (lines : list Z) :
  let v' := mkVulnerability (vuln_name v) file (contract_name v)
              (function_name v) lines (ast_node_path v) (ast_node v) in
  Vulnerability__eq__ v v' = true /\
  Vulnerability__eq__ v' v = true /\
  hash_Vulnerability v = hash_Vulnerability v'.
Proof.
  unfold Vulnerability__eq__. simpl.
  by rewrite String.eqb_refl, deep_equal_refl, !py_eq_refl.
Qed.

(** C3 as stated fails: the two findings differ in their file only and
    compare equal. *)
Lemma cross_file_findings_are_equal :
  contract_file_path (sample_finding "contracts/A.sol")
    <> contract_file_path (sample_finding "contracts/B.sol") /\
  Vulnerability__eq__ (sample_finding "contracts/A.sol")
                      (sample_finding "contracts/B.sol") = true.
Proof. split; [discriminate | vm_compute; reflexivity]. Qed.

Lemma dict_items_map (d : list (string * pyval)) :
  (fix go (d : list (string * pyval)) : list (string * string) :=
     match d with
     | [] => []
     | (k, x) :: d' => (k, json_dumps x) :: go d'
     end) d = map (fun kx => (fst kx, json_dumps (snd kx))) d.
Proof. induction d as [|[k x] d IH]; simpl; [done | by rewrite IH]. Qed.

Lemma wf_dict (d : list (string * pyval)) :
  wf_pyval (PDict d) = true ->
  NoDup (map fst d) /\ Forall (fun kx => wf_pyval (snd kx) = true) d.
Proof.
  induction d as [|[k x] d IH]; simpl.
  - intros _. split; constructor.
  - intros Hwf. apply andb_prop in Hwf as [Hwf Hd].
    apply andb_prop in Hwf as [Hk Hx].
    destruct (IH Hd) as [Hnd Hall]. split; [| by constructor].
    simpl. constructor; [| done]. intros Hin.
    apply negb_true_iff in Hk.
    assert (existsb (String.eqb k) (map fst d) = true); [| congruence].
    apply List.existsb_exists. exists k. split; [| apply String.eqb_refl].
    by apply list_elem_of_In.
Qed.

Lemma wf_list (l : list pyval) :
  wf_pyval (PList l) = true -> Forall (fun x => wf_pyval x = true) l.
Proof.
  simpl. intros Hl. apply List.Forall_forall. intros x Hx.
  by eapply List.forallb_forall in Hl.
Qed.

Lemma nodup_keys_unique {A} (l : list (string * A)) k a b :
  NoDup (map fst l) -> (k, a) ∈ l -> (k, b) ∈ l -> a = b.
Proof.
  induction l as [|[k' c] l IH]; simpl; intros Hnd Ha Hb.
  - by apply elem_of_nil in Ha.
  - apply NoDup_cons in Hnd as [Hk Hnd].
    apply elem_of_cons in Ha as [Ha | Ha], Hb as [Hb | Hb]; simplify_eq.
    + done.
    + exfalso. apply Hk. apply list_elem_of_fmap. by exists (k', b).
    + exfalso. apply Hk. apply list_elem_of_fmap. by exists (k', a).
    + eauto.
Qed.

#[local] Instance key_le_trans : Transitive key_le.
Proof. intros p q r. unfold key_le. apply transitivity. Qed.

#[local] Instance key_le_total : Total key_le.
Proof. intros p q. unfold key_le. apply total, _. Qed.

Lemma sort_items_perm (l1 l2 : list (string * string)) :
  NoDup (map fst l2) -> l1 ≡ₚ l2 -> sort_items l1 = sort_items l2.
Proof.
  intros Hnd Hp. unfold sort_items.
  apply (Sorted_unique_strong key_le).
  - intros [k1 a1] [k2 a2] H1 H2 Hle1 Hle2. unfold key_le in *. simpl in *.
    assert (k1 = k2) as -> by (by apply (anti_symm String.le)).
    f_equal. apply (nodup_keys_unique l2 k2); [done | |].
    + rewrite <- Hp. by rewrite <- (merge_sort_Permutation key_le l1).
    + by rewrite <- (merge_sort_Permutation key_le l2).
  - apply Sorted_merge_sort, _.
  - apply Sorted_merge_sort, _.
  - by rewrite !merge_sort_Permutation.
Qed.

Lemma strict_equal_list_dumps (l m : list pyval) :
  Forall (fun a => forall b, wf_pyval a = true -> wf_pyval b = true ->
                     strict_equal a b = true -> json_dumps a = json_dumps b) l ->
  Forall (fun x => wf_pyval x = true) l ->
  Forall (fun x => wf_pyval x = true) m ->
  (fix go (l m : list pyval) : bool :=
     match l, m with
     | [], [] => true
     | x :: l', y :: m' => strict_equal x y && go l' m'
     | _, _ => false
     end) l m = true ->
  map json_dumps l = map json_dumps m.
Proof.
  intros IH. revert m.
  induction IH as [| x l Hx _ IHl]; intros [|y m] Hwl Hwm Heq; try done.
  apply andb_prop in Heq as [Hxy Heq].
  apply Forall_cons in Hwl as [Hwx Hwl]. apply Forall_cons in Hwm as [Hwy Hwm].
  simpl. f_equal; [by apply Hx | by apply IHl].
Qed.

Lemma json_dumps_strict_equal a :
  forall b, wf_pyval a = true -> wf_pyval b = true ->
    strict_equal a b = true -> json_dumps a = json_dumps b.
Proof.
  induction a as [| x | z | s | l IH | d IH] using pyval_ind;
    intros [| y | z' | t | m | e] Hwa Hwb Heq; try done.
  - simpl in Heq. apply Bool.eqb_prop in Heq. by subst.
  - simpl in Heq. apply Z.eqb_eq in Heq. by subst.
  - simpl in Heq. apply String.eqb_eq in Heq. by subst.
  - cbn [json_dumps]. f_equal. f_equal. f_equal.
    apply strict_equal_list_dumps; auto using wf_list.
  - cbn [json_dumps]. rewrite !dict_items_map.
    do 3 f_equal.
    apply wf_dict in Hwa as [Hnd Hwd]. apply wf_dict in Hwb as [Hne Hwe].
    cbn [strict_equal] in Heq. apply andb_prop in Heq as [Hlen Heq].
    apply Nat.eqb_eq in Hlen.
    assert (Hnde : NoDup (map fst (map (fun kx : string * pyval =>
                                          (fst kx, json_dumps (snd kx))) e))).
    { by rewrite map_map. }
    f_equal. apply sort_items_perm; [done |].
    apply submseteq_length_Permutation; [| by rewrite !length_map, Hlen].
    apply NoDup_submseteq.
    + apply (NoDup_fmap_1 fst). by rewrite <- list_fmap_compose.
    + intros [k sx] Hin.
      apply list_elem_of_fmap in Hin as ([k' x] & [= -> ->] & Hin). simpl.
      rewrite List.forallb_forall in Heq.
      specialize (Heq (k', x) (proj1 (list_elem_of_In _ _) Hin)).
      apply List.existsb_exists in Heq as ([k'' y] & Hy & Hky). simpl in Hky.
      apply andb_prop in Hky as [Hk Hxy]. apply String.eqb_eq in Hk. subst k''.
      apply list_elem_of_In in Hy.
      apply list_elem_of_fmap. exists (k', y). split; [| done]. simpl. f_equal.
      rewrite Forall_forall in IH, Hwd, Hwe.
      apply (IH (k', x) Hin); [by apply (Hwd (k', x)) | by apply (Hwe (k', y)) | done].
Qed.

Lemma py_eq_hash_pyval `{PyHash} a b :
  py_eq a b = true -> hash_pyval a = hash_pyval b.
Proof.
  destruct a as [| x | x | s | l | d], b as [| y | y | t | m | e];
    simpl; try done.
  - destruct x, y; done.
  - destruct x; intros Hz; apply Z.eqb_eq in Hz; by subst.
  - destruct y; intros Hz; apply Z.eqb_eq in Hz; by subst.
  - intros Hz; apply Z.eqb_eq in Hz; by subst.
  - intros Hs; apply String.eqb_eq in Hs; by subst.
Qed.

Lemma strict_equal_deep_equal a :
  forall b, wf_pyval a = true -> strict_equal a b = true -> deep_equal a b = true.
Proof.
  induction a as [| x | z | s | l IH | d IH] using pyval_ind;
    intros [| y | z' | t | m | e] Hwa Heq; try done.
  - cbn [strict_equal] in Heq. cbn [deep_equal].
    apply wf_list in Hwa.
    assert (Hf2 : Forall2 (fun x y => deep_equal x y = true) l m).
    { revert m Heq Hwa.
      induction IH as [| x l Hx _ IHl]; intros [|y m] Heq Hwa; try done.
      apply andb_prop in Heq as [Hxy Heq]. apply Forall_cons in Hwa as [Hwx Hwa].
      constructor; [by apply Hx | by apply IHl]. }
    clear IH Heq. apply andb_true_intro. split.
    + apply List.forallb_forall. intros x Hx. apply list_elem_of_In in Hx.
      apply List.existsb_exists.
      apply list_elem_of_lookup in Hx as [i Hi].
      destruct (Forall2_lookup_l _ _ _ _ _ Hf2 Hi) as (y & Hy & Hxy).
      exists y. split; [| done]. apply list_elem_of_In. by eapply list_elem_of_lookup_2.
    + apply List.forallb_forall. intros y Hy. apply list_elem_of_In in Hy.
      apply List.existsb_exists.
      apply list_elem_of_lookup in Hy as [i Hi].
      destruct (Forall2_lookup_r _ _ _ _ _ Hf2 Hi) as (x & Hx & Hxy).
      exists x. split; [| done]. apply list_elem_of_In. by eapply list_elem_of_lookup_2.
  - cbn [strict_equal] in Heq. cbn [deep_equal].
    apply wf_dict in Hwa as [Hnd Hwd].
    apply andb_prop in Heq as [Hlen Heq]. apply Nat.eqb_eq in Hlen.
    rewrite List.forallb_forall in Heq.
    apply andb_true_intro. split.
    + apply List.forallb_forall. intros [k x] Hin.
      specialize (Heq _ Hin). apply List.existsb_exists in Heq as ([k' y] & Hy & Hky).
      apply List.existsb_exists. exists (k', y). split; [done |].
      simpl in *. apply andb_prop in Hky as [-> Hxy]. simpl.
      apply list_elem_of_In in Hin.
      rewrite Forall_forall in IH, Hwd.
      by apply (IH (k, x) Hin); [apply (Hwd (k, x)) |].
    + assert (Hperm : map fst d ≡ₚ map fst e).
      { apply submseteq_length_Permutation; [| by rewrite !length_map, Hlen].
        apply NoDup_submseteq; [done |]. intros k Hk.
        apply list_elem_of_fmap in Hk as ([k' x] & -> & Hin). simpl.
        apply list_elem_of_In in Hin. specialize (Heq _ Hin).
        apply List.existsb_exists in Heq as ([k'' y] & Hy & Hky). simpl in Hky.
        apply andb_prop in Hky as [Hk _]. apply String.eqb_eq in Hk. subst k''.
        apply list_elem_of_fmap. exists (k', y). split; [done |].
        by apply list_elem_of_In. }
      apply List.forallb_forall. intros [k y] Hin. apply List.existsb_exists.
      assert (Hk : k ∈ map fst d).
      { rewrite Hperm. apply list_elem_of_fmap. exists (k, y).
        split; [done | by apply list_elem_of_In]. }
      apply list_elem_of_fmap in Hk as ([k' x] & -> & Hd).
      exists (k', x). split; [by apply list_elem_of_In | apply String.eqb_refl].
Qed.

(** Findings that are equal with the subtrees compared position by position
    inside lists (same path, subtrees that are the same JSON value, equal
    names) are equal under [__eq__] and have the same hash: the hash is
    consistent with this finer equality. *)
Theorem hash_consistent_with_ordered_equality `{PyHash} (v1 v2 : Vulnerability) :
  wf_pyval (ast_node v1) = true ->
  wf_pyval (ast_node v2) = true ->
  eq_keeping_list_order v1 v2 = true ->
  Vulnerability__eq__ v1 v2 = true /\
  hash_Vulnerability v1 = hash_Vulnerability v2.
Proof.
  unfold eq_keeping_list_order, Vulnerability__eq__. intros Hw1 Hw2 Heq.
  apply andb_prop in Heq as [Heq Hvn]. apply andb_prop in Heq as [Heq Hfn].
  apply andb_prop in Heq as [Heq Hcn]. apply andb_prop in Heq as [Hpath Hnode].
  split.
  - by rewrite Hpath, (strict_equal_deep_equal _ _ Hw1 Hnode), Hcn, Hfn, Hvn.
  - apply String.eqb_eq in Hpath.
    unfold hash_Vulnerability, Vulnerability__hash__.
    rewrite Hpath, (json_dumps_strict_equal _ _ Hw1 Hw2 Hnode).
    by rewrite (py_eq_hash_pyval _ _ Hcn), (py_eq_hash_pyval _ _ Hfn),
      (py_eq_hash_pyval _ _ Hvn).
Qed.

Lemma hash_consistent_with_ordered_equality_witness :
  Vulnerability__eq__ (sample_finding "contracts/A.sol")
                      (sample_finding "contracts/B.sol") = true /\
  @hash_Vulnerability cpython312_seed0 (sample_finding "contracts/A.sol") =
  @hash_Vulnerability cpython312_seed0 (sample_finding "contracts/B.sol").
Proof.
  apply (@hash_consistent_with_ordered_equality cpython312_seed0);
    vm_compute; reflexivity.
Defined.

(** C2: the code breaks the consistency of hash and equality.  [pay(a, b)]
    and [pay(b, a)] give findings that [__eq__] holds equal (the order of
    list items is ignored) but whose hashes differ, the subtree being hashed
    through a serialisation that sorts dictionary keys and keeps list
    order. *)
Lemma equal_findings_with_different_hashes :
  Vulnerability__eq__ (call_finding ["a"; "b"]) (call_finding ["b"; "a"]) = true /\
  @hash_Vulnerability cpython312_seed0 (call_finding ["a"; "b"]) <>
  @hash_Vulnerability cpython312_seed0 (call_finding ["b"; "a"]).
Proof. split; [vm_compute; reflexivity | vm_compute; discriminate]. Qed.

(** ** Line-number drift *)

Section drift_facts.
Variables l1 l2 : pyval.

Let related := fun a b => drift l1 l2 a b = true.

Lemma drift_list_Forall2 (xs ys : list pyval) :
  drift l1 l2 (PList xs) (PList ys) = true <-> Forall2 related xs ys.
Proof.
  cbn [drift]. revert ys. induction xs as [|x xs IH]; intros [|y ys]; split;
    try done; try (by inversion 1).
  - intros Hd. apply andb_prop in Hd as [Hxy Hd]. constructor; [done | by apply IH].
  - intros Hf. apply Forall2_cons in Hf as [Hxy Hf].
    apply andb_true_intro. split; [done | by apply IH].
Qed.

Lemma drift_dict_inv (d e : list (string * pyval)) :
  drift l1 l2 (PDict d) (PDict e) = true ->
  starts_at (PDict d) l1 = starts_at (PDict e) l2 /\
  Forall2 (fun kx ky => fst kx = fst ky /\
                        (fst kx = "loc" \/ related (snd kx) (snd ky))) d e.
Proof.
  cbn [drift]. intros Hd. apply andb_prop in Hd as [Hs Hd].
  split; [by apply bool_decide_eq_true in Hs |]. clear Hs.
  revert e Hd. induction d as [|[k x] d IH]; intros [|[k' y] e] Hd; try done.
  apply andb_prop in Hd as [Hd Hrest]. apply andb_prop in Hd as [Hk Hxy].
  apply String.eqb_eq in Hk. constructor; [| by apply IH]. simpl.
  split; [done |]. apply orb_prop in Hxy as [Hloc | Hxy]; [left | by right].
  by apply String.eqb_eq.
Qed.

Lemma drift_remove_loc a : forall b, related a b ->
  remove_loc_info a = remove_loc_info b.
Proof.
  induction a as [| x | z | s | l IH | d IH] using pyval_ind;
    intros [| y | z' | t | m | e] Hd; try done.
  - simpl in Hd. apply Bool.eqb_prop in Hd. by subst.
  - simpl in Hd. apply Z.eqb_eq in Hd. by subst.
  - simpl in Hd. apply String.eqb_eq in Hd. by subst.
  - apply drift_list_Forall2 in Hd. cbn [remove_loc_info]. f_equal.
    induction Hd as [| x y l m Hxy _ IHf]; [done |].
    apply Forall_cons in IH as [Hx IH]. simpl. f_equal; [by apply Hx | by apply IHf].
  - apply drift_dict_inv in Hd as [_ Hd]. cbn [remove_loc_info]. f_equal.
    induction Hd as [| [k x] [k' y] d e [Hk Hxy] _ IHf]; [done |].
    apply Forall_cons in IH as [Hx IH]. simpl in Hk, Hxy, Hx. subst k'.
    destruct (String.eqb k "loc") eqn:Hloc; [by apply IHf |].
    destruct Hxy as [-> | Hxy]; [done |].
    f_equal; [by rewrite (Hx _ Hxy) | by apply IHf].
Qed.

Lemma drift_starts_at a b : related a b -> starts_at a l1 = starts_at b l2.
Proof.
  destruct a as [| x | z | s | l | d], b as [| y | z' | t | m | e]; try done.
  intros Hd. by apply drift_dict_inv in Hd as [? _].
Qed.

Lemma drift_getitem a b (k : string) :
  k <> "loc" -> related a b ->
  result_rel related (getitem a k) (getitem b k).
Proof.
  intros Hk.
  destruct a as [| x | z | s | l | d], b as [| y | z' | t | m | e]; try done.
  intros Hd. apply drift_dict_inv in Hd as [_ Hd]. unfold getitem.
  induction Hd as [| [k1 x] [k2 y] d e [Hk12 Hxy] _ IHf]; [done |].
  simpl in *. subst k2. destruct (String.eqb k k1) eqn:Hkk; [| exact IHf].
  apply String.eqb_eq in Hkk. subst k1. by destruct Hxy.
Qed.

Lemma drift_get_attr a b (k : string) :
  k <> "loc" -> related a b -> related (get_attr a k) (get_attr b k).
Proof.
  intros Hk Hd. unfold get_attr.
  pose proof (drift_getitem a b k Hk Hd) as Hg.
  by destruct (getitem a k), (getitem b k).
Qed.

Lemma drift_chars s : Forall2 related (chars s) (chars s).
Proof.
  induction s; simpl; constructor; [| done]. simpl. apply String.eqb_refl.
Qed.

Lemma drift_py_iter a b :
  related a b -> result_rel (Forall2 related) (py_iter a) (py_iter b).
Proof.
  destruct a as [| x | z | s | l | d], b as [| y | z' | t | m | e]; try done.
  - simpl. intros Hs. apply String.eqb_eq in Hs. subst. apply drift_chars.
  - intros Hd. by apply drift_list_Forall2.
  - intros Hd. apply drift_dict_inv in Hd as [_ Hd]. simpl.
    induction Hd as [| [k1 x] [k2 y] d e [Hk12 _] _ IHf]; simpl; constructor.
    + simpl in *. subst. apply String.eqb_refl.
    + done.
Qed.

Lemma drift_py_eq_str a b (s : string) :
  related a b -> py_eq a (PStr s) = py_eq b (PStr s).
Proof.
  destruct a as [| x | z | s1 | l | d], b as [| y | z' | t | m | e]; try done.
  simpl. intros Hs. apply String.eqb_eq in Hs. by subst.
Qed.

Lemma drift_in_strs a b (ss : list string) :
  related a b -> in_strs a ss = in_strs b ss.
Proof.
  intros Hd. unfold in_strs. induction ss as [|s ss IH]; simpl; [done |].
  by rewrite (drift_py_eq_str a b s Hd), IH.
Qed.

Lemma drift_truthy a b : related a b -> truthy a = truthy b.
Proof.
  destruct a as [| x | z | s | l | d], b as [| y | z' | t | m | e]; try done.
  - simpl. intros Hs. apply Bool.eqb_prop in Hs. by subst.
  - simpl. intros Hs. apply Z.eqb_eq in Hs. by subst.
  - simpl. intros Hs. apply String.eqb_eq in Hs. by subst.
  - intros Hd. apply drift_list_Forall2 in Hd. by destruct Hd.
  - intros Hd. apply drift_dict_inv in Hd as [_ Hd]. by destruct Hd.
Qed.

Lemma drift_scan_items node_path suffix xs ys :
  Forall2 related xs ys ->
  scan_items l1 node_path suffix xs = scan_items l2 node_path suffix ys.
Proof.
  induction 1 as [| x y xs ys Hxy _ IH]; [done |]. simpl.
  rewrite (drift_starts_at x y Hxy). destruct (starts_at y l2) as [[] |]; simpl.
  - by rewrite (drift_remove_loc x y Hxy).
  - done.
  - done.
Qed.

Ltac use_rel H :=
  let r1 := fresh "r" in
  let r2 := fresh "r" in
  match type of H with
  | result_rel _ ?m1 ?m2 =>
      destruct m1 as [r1 | r1], m2 as [r2 | r2]; simpl in H; try done;
      [| by subst]
  end.

Lemma drift_scan_subNode node_path x y :
  related x y ->
  scan_subNode l1 node_path x = scan_subNode l2 node_path y.
Proof.
  intros Hxy. unfold scan_subNode.
  pose proof (drift_getitem x y "type" ltac:(done) Hxy) as Hty. use_rel Hty.
  simpl. rewrite !(drift_in_strs _ _ _ Hty).
  destruct (in_strs r0 _).
  { rewrite (drift_starts_at x y Hxy). destruct (starts_at y l2) as [[] |]; simpl;
      [by rewrite (drift_remove_loc x y Hxy) | done | done]. }
  destruct (in_strs r0 _).
  { pose proof (drift_getitem x y "members" ltac:(done) Hxy) as Hm. use_rel Hm.
    simpl. pose proof (drift_py_iter _ _ Hm) as Hi. use_rel Hi.
    simpl. by apply drift_scan_items. }
  destruct (in_strs r0 _); [| done].
  pose proof (drift_get_attr _ _ "statements" ltac:(done)
                (drift_get_attr x y "body" ltac:(done) Hxy)) as Hs.
  rewrite (drift_truthy _ _ Hs). destruct (truthy _); [| done].
  pose proof (drift_py_iter _ _ Hs) as Hi. use_rel Hi.
  simpl. by apply drift_scan_items.
Qed.

Lemma drift_scan_subNodes node_path xs ys :
  Forall2 related xs ys ->
  scan_subNodes l1 node_path xs = scan_subNodes l2 node_path ys.
Proof.
  induction 1 as [| x y xs ys Hxy _ IH]; [done |]. simpl.
  rewrite (drift_scan_subNode node_path x y Hxy).
  destruct (scan_subNode l2 node_path y) as [[] |]; simpl; done.
Qed.

Lemma drift_scan_children node_path xs ys :
  Forall2 related xs ys ->
  scan_children l1 node_path xs = scan_children l2 node_path ys.
Proof.
  intros Hf. revert node_path.
  induction Hf as [| x y xs ys Hxy _ IH]; intros node_path; [done |]. simpl.
  pose proof (drift_getitem x y "type" ltac:(done) Hxy) as Hty. use_rel Hty.
  simpl. rewrite (drift_py_eq_str _ _ _ Hty).
  destruct (py_eq r0 _); [| by apply IH].
  pose proof (drift_getitem x y "subNodes" ltac:(done) Hxy) as Hm. use_rel Hm.
  simpl. pose proof (drift_py_iter _ _ Hm) as Hi. use_rel Hi.
  simpl. rewrite (drift_scan_subNodes _ _ _ Hi).
  destruct (scan_subNodes l2 _ r4) as [[] |]; simpl; [done | by apply IH | done].
Qed.

Lemma drift_locator t1 t2 :
  related t1 t2 ->
  get_node_and_node_path t1 l1 = get_node_and_node_path t2 l2.
Proof.
  intros Ht. unfold get_node_and_node_path.
  pose proof (drift_getitem t1 t2 "children" ltac:(done) Ht) as Hc. use_rel Hc.
  simpl. pose proof (drift_py_iter _ _ Hc) as Hi. use_rel Hi.
  simpl. by apply drift_scan_children.
Qed.
End drift_facts.

(** C1: on two trees that differ in the values of their ['loc'] fields only,
    with lines [l1] and [l2] designating the same node, the locator gives the
    same outcome, and the two findings built from it with the same kind,
    contract and function names compare equal and have the same hash (the
    file paths and the recorded line numbers may differ). *)
Theorem finding_identity_stable_under_drift `{PyHash} (t1 t2 l1 l2 : pyval)
    (kind contract function : pyval) (file1 file2 : string)
    (lines1 lines2 : list Z) (node : pyval) (path : list string) :
  drift l1 l2 t1 t2 = true ->
  get_node_and_node_path t1 l1 = Ok (node, path) ->
  let v1 := mkVulnerability kind file1 contract function lines1
              (join "." path) node in
  exists node2 path2,
    get_node_and_node_path t2 l2 = Ok (node2, path2) /\
    let v2 := mkVulnerability kind file2 contract function lines2
                (join "." path2) node2 in
    Vulnerability__eq__ v1 v2 = true /\
    hash_Vulnerability v1 = hash_Vulnerability v2.
Proof.
  intros Hd Hloc. exists node, path.
  rewrite <- (drift_locator l1 l2 t1 t2 Hd). split; [done |].
  unfold Vulnerability__eq__. simpl.
  by rewrite String.eqb_refl, deep_equal_refl, !py_eq_refl.
Qed.

Lemma finding_identity_stable_under_drift_witness :
  exists node2 path2,
    get_node_and_node_path sample_tree_shifted (PInt 7) = Ok (node2, path2) /\
    let v1 := mkVulnerability (PStr "reentrancy") "A.sol" (PStr "C") (PStr "f") [5]
                "children.[*].subNodes.[*].body.statements.[*]"
                (remove_loc_info (sample_stmt "b" 5 6)) in
    let v2 := mkVulnerability (PStr "reentrancy") "A.sol" (PStr "C") (PStr "f") [7]
                (join "." path2) node2 in
    Vulnerability__eq__ v1 v2 = true /\
    @hash_Vulnerability cpython312_seed0 v1 = @hash_Vulnerability cpython312_seed0 v2.
Proof.
  exact (@finding_identity_stable_under_drift cpython312_seed0
           sample_tree sample_tree_shifted (PInt 5) (PInt 7)
           (PStr "reentrancy") (PStr "C") (PStr "f") "A.sol" "A.sol" [5] [7]
           _ _ eq_refl eq_refl).
Defined.

(** ** Bytecode trimming *)

Lemma prefix_length (sub s : string) :
  String.prefix sub s = true -> (String.length sub <= String.length s)%nat.
Proof.
  revert s. induction sub as [|c sub IH]; intros [|c' s]; simpl; try done; try lia.
  destruct (ascii_dec c c'); [| done]. intros Hp. apply IH in Hp. lia.
Qed.

Lemma rfind_range (s sub : string) :
  rfind s sub = -1 \/ (0 <= rfind s sub /\ rfind s sub + strlen sub <= strlen s).
Proof.
  unfold strlen. induction s as [|c s IH]; cbn [rfind].
  - destruct (String.prefix sub EmptyString) eqn:Hp; [right | by left].
    apply prefix_length in Hp. simpl in *. lia.
  - destruct (0 <=? rfind s sub) eqn:Hr.
    + right. apply Z.leb_le in Hr. destruct IH as [IH | IH]; [lia |].
      cbn [String.length]. lia.
    + destruct (String.prefix sub (String c s)) eqn:Hp; [right | by left].
      apply prefix_length in Hp. lia.
Qed.

Lemma rfind_absent (s sub : string) :
  contains s sub = false <-> rfind s sub = -1.
Proof.
  induction s as [|c s IH]; cbn [rfind contains].
  - rewrite orb_false_r. by destruct (String.prefix sub EmptyString).
  - destruct (rfind_range s sub) as [Hr | [Hr _]].
    + rewrite Hr. change (0 <=? -1) with false. cbv iota.
      rewrite (proj2 IH Hr), orb_false_r.
      by destruct (String.prefix sub (String c s)).
    + destruct (0 <=? rfind s sub) eqn:Hle; [| apply Z.leb_gt in Hle; lia].
      split; [| lia]. intros Hc. apply orb_false_elim in Hc as [_ Hc].
      apply IH in Hc. lia.
Qed.

Lemma rfind_short (s sub : string) :
  (String.length s < String.length sub)%nat -> rfind s sub = -1.
Proof.
  intros Hlen. destruct (rfind_range s sub) as [Hr | [Hr Hb]]; [done |].
  unfold strlen in Hb. lia.
Qed.

Lemma substring_length_le (n m : nat) (s : string) :
  (String.length (String.substring n m s) <= m)%nat.
Proof.
  revert n m. induction s as [|c s IH]; intros [|n] [|m]; simpl; try lia.
  - specialize (IH 0%nat m). lia.
  - apply (IH n 0%nat).
  - apply (IH n (S m)).
Qed.

Lemma substring_all (s : string) :
  String.substring 0 (String.length s) s = s.
Proof. induction s as [|c s IH]; simpl; [done | by rewrite IH]. Qed.

Lemma substring_last (s : string) :
  s <> EmptyString ->
  String.substring (String.length s - 1) 1 s = last_char s.
Proof.
  induction s as [|c s IH]; [done |]. intros _.
  destruct s as [|c' s]; [done |].
  change (last_char (String c (String c' s))) with (last_char (String c' s)).
  rewrite <- IH by done. cbn [String.length].
  by replace (S (S (String.length s)) - 1)%nat
    with (S (S (String.length s) - 1)) by lia.
Qed.

Lemma last_char_length (s : string) : (String.length (last_char s) <= 1)%nat.
Proof.
  induction s as [|c s IH]; simpl; [lia |]. destruct s; simpl in *; lia.
Qed.

Lemma last_char_idem (s : string) : last_char (last_char s) = last_char s.
Proof.
  induction s as [|c s IH]; [done |]. destruct s as [|c' s]; [done |]. exact IH.
Qed.

(** A slice from -1 to the end is the last character. *)
Lemma py_slice_from_minus_one (s : string) :
  py_slice s (Some (-1)) None = last_char s.
Proof.
  unfold py_slice, slice_bound, strlen. destruct s as [|c s]; [done |].
  set (t := String c s). assert (Hlen : (1 <= String.length t)%nat) by (simpl; lia).
  change (-1 <? 0) with true. cbv iota.
  replace (Z.max (-1 + Z.of_nat (String.length t)) 0)
    with (Z.of_nat (String.length t - 1)) by lia.
  destruct (_ <? _) eqn:Hlt; [| apply Z.ltb_ge in Hlt; lia].
  rewrite Nat2Z.id.
  replace (Z.to_nat (Z.of_nat (String.length t) - Z.of_nat (String.length t - 1)))
    with 1%nat by lia.
  by apply substring_last.
Qed.

Lemma py_slice_from_zero (s : string) : py_slice s (Some 0) None = s.
Proof.
  unfold py_slice, slice_bound, strlen. change (0 <? 0) with false. cbv iota.
  destruct s as [|c s]; [done |].
  set (t := String c s). assert (Hlen : (1 <= String.length t)%nat) by (simpl; lia).
  replace (Z.min 0 (Z.of_nat (String.length t))) with 0 by lia.
  destruct (_ <? _) eqn:Hlt; [| apply Z.ltb_ge in Hlt; lia].
  rewrite Z.sub_0_r, Nat2Z.id. apply substring_all.
Qed.

(** The slice from the last occurrence of [sub] starts with that occurrence
    and contains no later one. *)
Lemma rfind_of_tail (s sub : string) :
  0 <= rfind s sub ->
  rfind (py_slice s (Some (rfind s sub)) None) sub = 0.
Proof.
  induction s as [|c s IH]; intros Hr.
  - cbn [rfind] in *. destruct (String.prefix sub EmptyString) eqn:Hp; [| lia].
    rewrite py_slice_from_zero. cbn [rfind]. by rewrite Hp.
  - cbn [rfind] in Hr |- *.
    destruct (0 <=? rfind s sub) eqn:Hle.
    + apply Z.leb_le in Hle. specialize (IH Hle).
      destruct (rfind_range s sub) as [? | [_ Hb]]; [lia |].
      assert (Heq : py_slice (String c s) (Some (rfind s sub + 1)) None =
                    py_slice s (Some (rfind s sub)) None).
      { clear IH. unfold py_slice, slice_bound, strlen in *. cbn [String.length].
        set (n := String.length s) in *. set (r := rfind s sub) in *.
        assert (H1 : (r + 1 <? 0) = false) by (apply Z.ltb_ge; lia).
        assert (H2 : (r <? 0) = false) by (apply Z.ltb_ge; lia).
        rewrite H1, H2, !Z.min_l by lia.
        destruct (r <? Z.of_nat n) eqn:H3.
        - apply Z.ltb_lt in H3.
          assert (H4 : (r + 1 <? Z.of_nat (S n)) = true) by (apply Z.ltb_lt; lia).
          rewrite H4.
          replace (Z.to_nat (r + 1)) with (S (Z.to_nat r)) by lia.
          cbn [String.substring]. f_equal. lia.
        - apply Z.ltb_ge in H3.
          assert (H4 : (r + 1 <? Z.of_nat (S n)) = false) by (apply Z.ltb_ge; lia).
          by rewrite H4. }
      by rewrite Heq.
    + destruct (String.prefix sub (String c s)) eqn:Hp; [| lia].
      rewrite py_slice_from_zero. cbn [rfind]. by rewrite Hle, Hp.
Qed.

Lemma version_ge_0_6_0 (v : Version) :
  version_ge v (mkVersion 0 6 0) = true -> version_ge v (mkVersion 0 4 22) = true.
Proof.
  unfold version_ge. destruct v as [ma mi pa]. simpl.
  destruct (N.compare_spec ma 0); try done.
  destruct (N.compare_spec mi 6); try done.
  - by subst.
  - intros _. destruct (N.compare_spec mi 4); try done; lia.
Qed.

Lemma trim_band_0_4_7 (b : string) (v : Version) :
  in_band_0_4_7 v ->
  trim_bytecode b v = py_slice b (Some (rfind b "6060604052")) None.
Proof.
  intros [H7 H22]. unfold trim_bytecode. rewrite H7, H22.
  destruct (version_ge v (mkVersion 0 6 0)) eqn:H6; [| done].
  apply version_ge_0_6_0 in H6. congruence.
Qed.

Lemma trim_band_0_4_22 (b : string) (v : Version) :
  version_ge v (mkVersion 0 4 22) = true ->
  exists trailer : string,
    (1 <= String.length trailer)%nat /\
    trim_bytecode b v =
      py_slice b (Some (rfind b "6080604052")) (Some (rfind b trailer)).
Proof.
  intros H22. unfold trim_bytecode. rewrite H22.
  destruct (version_ge v (mkVersion 0 6 0)); eexists; (split; [| done]); simpl; lia.
Qed.

Lemma py_slice_end_shrinks (s sub : string) (i : Z) :
  (1 <= String.length sub)%nat -> s <> EmptyString ->
  (String.length (py_slice s (Some i) (Some (rfind s sub))) < String.length s)%nat.
Proof.
  intros Hsub Hs. unfold py_slice.
  assert (Hlen : 1 <= strlen s) by (unfold strlen; destruct s; [done | simpl; lia]).
  assert (Hlo : 0 <= slice_bound (strlen s) i).
  { unfold slice_bound. destruct (i <? 0) eqn:Hi; [lia | apply Z.ltb_ge in Hi; lia]. }
  assert (Hhi : slice_bound (strlen s) (rfind s sub) < strlen s).
  { unfold slice_bound. destruct (rfind_range s sub) as [-> | [H0 Hb]]; [simpl; lia |].
    unfold strlen in *. destruct (_ <? 0) eqn:Hn; [apply Z.ltb_lt in Hn; lia | lia]. }
  destruct (_ <? _); [| unfold strlen in Hlen; simpl; lia].
  pose proof (substring_length_le (Z.to_nat (slice_bound (strlen s) i))
                (Z.to_nat (slice_bound (strlen s) (rfind s sub) -
                           slice_bound (strlen s) i)) s).
  unfold strlen in *. lia.
Qed.

Lemma trim_empty (v : Version) : trim_bytecode EmptyString v = EmptyString.
Proof.
  unfold trim_bytecode. by repeat destruct (version_ge v _).
Qed.

Lemma py_slice_missing_start (s start trailer : string) :
  (2 <= String.length trailer)%nat ->
  rfind s start = -1 ->
  py_slice s (Some (rfind s start)) (Some (rfind s trailer)) = EmptyString.
Proof.
  intros Ht ->. unfold py_slice, slice_bound. change (-1 <? 0) with true. cbv iota.
  destruct (rfind_range s trailer) as [-> | [H0 Hb]].
  - change (-1 <? 0) with true. cbv iota. by rewrite Z.ltb_irrefl.
  - unfold strlen in *.
    destruct (rfind s trailer <? 0) eqn:Hn; [apply Z.ltb_lt in Hn; lia |].
    match goal with
    | |- (if ?c then _ else _) = _ =>
        assert (Hlt : c = false) by (apply Z.ltb_ge; lia); by rewrite Hlt
    end.
Qed.

(** C10: when the prologue marker is absent the [-1] of the failed [rfind]
    is used as the slice start: from 0.4.22 on the result is the empty
    string, between 0.4.7 and 0.4.22 it is the last character of the input;
    for an input of two or more characters it is never the input itself. *)
Theorem trim_without_prologue_marker (b : string) (v : Version) :
  (2 <= String.length b)%nat ->
  (version_ge v (mkVersion 0 4 22) = true ->
   contains b "6080604052" = false ->
   trim_bytecode b v = EmptyString /\ trim_bytecode b v <> b) /\
  (version_ge v (mkVersion 0 4 7) = true ->
   version_ge v (mkVersion 0 4 22) = false ->
   contains b "6060604052" = false ->
   trim_bytecode b v = last_char b /\ trim_bytecode b v <> b).
Proof.
  intros Hlen. split.
  - intros H22 Habs. apply rfind_absent in Habs.
    assert (Ht : trim_bytecode b v = EmptyString).
    { unfold trim_bytecode. rewrite H22.
      destruct (version_ge v (mkVersion 0 6 0));
        apply py_slice_missing_start; simpl; (lia || done). }
    split; [done |]. rewrite Ht. intros <-. simpl in Hlen. lia.
  - intros H7 H22 Habs. apply rfind_absent in Habs.
    rewrite (trim_band_0_4_7 b v (conj H7 H22)), Habs, py_slice_from_minus_one.
    split; [done |]. intros Heq. pose proof (last_char_length b) as Hl.
    rewrite Heq in Hl. lia.
Qed.

Lemma trim_without_prologue_marker_witness :
  (trim_bytecode "00a165627a7a72305820ff" (mkVersion 0 5 17) = EmptyString /\
   trim_bytecode "00a165627a7a72305820ff" (mkVersion 0 5 17)
     <> "00a165627a7a72305820ff") /\
  (trim_bytecode "6080604052abcd" (mkVersion 0 4 18) = "d" /\
   trim_bytecode "6080604052abcd" (mkVersion 0 4 18) <> "6080604052abcd").
Proof.
  split.
  - apply (proj1 (trim_without_prologue_marker "00a165627a7a72305820ff"
                    (mkVersion 0 5 17) ltac:(simpl; lia))); reflexivity.
  - apply (proj2 (trim_without_prologue_marker "6080604052abcd"
                    (mkVersion 0 4 18) ltac:(simpl; lia))); reflexivity.
Defined.

(** C6 (amended): between 0.4.7 and 0.4.22 trimming is idempotent on every
    bytecode string.  From 0.4.22 on a second trim leaves a trimmed bytecode
    unchanged exactly when it is empty: trimming there shortens every
    non-empty string. *)
Theorem trim_idempotent_only_in_oldest_band (b : string) (v : Version) :
  (version_ge v (mkVersion 0 4 7) = true ->
   version_ge v (mkVersion 0 4 22) = false ->
   trim_bytecode (trim_bytecode b v) v = trim_bytecode b v) /\
  (version_ge v (mkVersion 0 4 22) = true ->
   (trim_bytecode (trim_bytecode b v) v = trim_bytecode b v <->
    trim_bytecode b v = EmptyString)).
Proof.
  split.
  - intros H7 H22. pose proof (conj H7 H22 : in_band_0_4_7 v) as Hband.
    rewrite !(trim_band_0_4_7 _ v Hband).
    destruct (rfind_range b "6060604052") as [Hr | [Hr _]].
    + rewrite Hr, py_slice_from_minus_one.
      rewrite rfind_short by (pose proof (last_char_length b); simpl; lia).
      by rewrite py_slice_from_minus_one, last_char_idem.
    + by rewrite (rfind_of_tail b _ Hr), py_slice_from_zero.
  - intros H22. split.
    + intros Hidem.
      destruct (decide (trim_bytecode b v = EmptyString)) as [| Hne]; [done |].
      destruct (trim_band_0_4_22 (trim_bytecode b v) v H22) as (trailer & Ht & Heq).
      pose proof (py_slice_end_shrinks (trim_bytecode b v) trailer
                    (rfind (trim_bytecode b v) "6080604052") Ht Hne) as Hlt.
      rewrite <- Heq, Hidem in Hlt. lia.
    + intros ->. apply trim_empty.
Qed.

Lemma trim_idempotent_only_in_oldest_band_witness :
  trim_bytecode (trim_bytecode "ab6060604052cdef" (mkVersion 0 4 18)) (mkVersion 0 4 18)
    = trim_bytecode "ab6060604052cdef" (mkVersion 0 4 18) /\
  (trim_bytecode (trim_bytecode "0011" (mkVersion 0 6 0)) (mkVersion 0 6 0)
     = trim_bytecode "0011" (mkVersion 0 6 0) <->
   trim_bytecode "0011" (mkVersion 0 6 0) = EmptyString).
Proof.
  split.
  - apply (proj1 (trim_idempotent_only_in_oldest_band "ab6060604052cdef"
                    (mkVersion 0 4 18))); reflexivity.
  - apply (proj2 (trim_idempotent_only_in_oldest_band "0011" (mkVersion 0 6 0)));
      reflexivity.
Defined.

(** C6 as stated fails: a compiled bytecode with its prologue and one
    metadata trailer trims to the code; trimming the result again cuts its
    last character off, the trailer being absent now. *)
Lemma trim_twice_differs :
  version_ge (mkVersion 0 6 0) (mkVersion 0 4 7) = true /\
  trim_bytecode "608060405200a2646970667358221234" (mkVersion 0 6 0)
    = "608060405200" /\
  trim_bytecode (trim_bytecode "608060405200a2646970667358221234" (mkVersion 0 6 0))
                (mkVersion 0 6 0) = "60806040520".
Proof. repeat split; vm_compute; reflexivity. Qed.

(** ** The deployment matcher *)

Section matcher_facts.
Import DeploymentAddressDetails.
Variable etherscan : string -> result etherscan_page.
Variable solc : compile_call -> result string.

#[local] Abbreviation details := (details etherscan).
#[local] Abbreviation compiled := (compiled solc).
#[local] Abbreviation verify :=
  (verify_contract_deployment_address etherscan solc).

Lemma get_details_spec (w : world) (a : string) (obj : t) :
  details w a = Ok obj ->
  exists w1,
    get_contract_details_from_etherscan etherscan a w = (Ok obj, w1) /\
    solc_calls w1 = solc_calls w /\
    forall y, details w1 y = details w y.
Proof.
  unfold details, get_contract_details_from_etherscan.
  destruct (db w !! a) as [o |] eqn:Hdb.
  - intros [= ->]. by exists w.
  - destruct (etherscan a) as [page | e] eqn:Hpage; [| done].
    simpl. intros [= <-]. eexists. split; [done |]. split; [done |].
    intros y. simpl. destruct (decide (a = y)) as [<- | Hne].
    + by rewrite lookup_insert_eq, Hdb, Hpage.
    + by rewrite lookup_insert_ne.
Qed.

Lemma complie_spec (w : world) (file remaps : string) (obj : t)
    (bytecode : option string) :
  compiled file remaps obj = Ok bytecode ->
  complie_solc solc file (DeploymentAddressDetails.contract_name obj)
    (compiler_version obj) remaps (solc_args_of obj) w =
  (Ok bytecode,
   mkWorld (db w) (solc_calls w ++ [call_for file remaps obj])).
Proof.
  unfold compiled, complie_solc, call_for.
  destruct (solc _) as [b | []]; simpl; by intros [= <-].
Qed.

Lemma bytecode_eq_false (bytecode : option string) (expected : string) :
  bytecode <> Some expected -> bytecode_eq bytecode expected = false.
Proof.
  destruct bytecode as [b |]; simpl; [| done]. intros Hne.
  apply String.eqb_neq. congruence.
Qed.

Lemma calls_for_ext (w w' : world) file remaps (l : list string) :
  (forall y, details w' y = details w y) ->
  calls_for etherscan w' file remaps l = calls_for etherscan w file remaps l.
Proof.
  intros Hext. unfold calls_for. induction l as [|a l IH]; simpl; [done |].
  by rewrite Hext, IH.
Qed.

(** One turn of the loop on a candidate whose compiled bytecode does not
    match: the compiler is invoked once and the search goes on. *)
Lemma verify_skips_mismatch (w : world) cn file remaps (a : string)
    (rest : list string) :
  candidate_mismatches etherscan solc w file remaps a ->
  exists w2 obj,
    details w a = Ok obj /\
    verify cn file (a :: rest) remaps w = verify cn file rest remaps w2 /\
    solc_calls w2 = solc_calls w ++ [call_for file remaps obj] /\
    forall y, details w2 y = details w y.
Proof.
  intros (obj & bytecode & Hd & Hc & Hne).
  destruct (get_details_spec w a obj Hd) as (w1 & Hget & Hcalls & Hext).
  exists (mkWorld (db w1) (solc_calls w1 ++ [call_for file remaps obj])), obj.
  split; [done |]. split; [| split].
  - cbn [verify_contract_deployment_address]. unfold M_bind at 1. rewrite Hget.
    unfold M_bind at 1. rewrite (complie_spec w1 file remaps obj bytecode Hc).
    by rewrite (bytecode_eq_false _ _ Hne).
  - simpl. by rewrite Hcalls.
  - intros y. rewrite <- Hext. done.
Qed.

Lemma verify_no_match (cn file remaps : string) (addrs : list string) :
  forall w,
    Forall (candidate_mismatches etherscan solc w file remaps) addrs ->
    exists w',
      verify cn file addrs remaps w = (Ok (None, None), w') /\
      solc_calls w' = solc_calls w ++ calls_for etherscan w file remaps addrs /\
      (forall y, details w' y = details w y) /\
      length (calls_for etherscan w file remaps addrs) = length addrs.
Proof.
  induction addrs as [|a rest IH]; intros w Hall.
  - exists w. simpl. by rewrite app_nil_r.
  - apply Forall_cons in Hall as [Ha Hrest].
    destruct (verify_skips_mismatch w cn file remaps a rest Ha)
      as (w2 & obj & Hd & Hstep & Hcalls & Hext).
    destruct (IH w2) as (w' & Hrun & Hcalls' & Hext' & Hlen).
    { eapply Forall_impl; [exact Hrest |]. intros x (o & b & ? & ? & ?).
      exists o, b. by rewrite Hext. }
    exists w'. rewrite (calls_for_ext w w2) in Hcalls', Hlen by done.
    split; [by rewrite Hstep |]. split; [| split].
    + rewrite Hcalls', Hcalls. cbn [calls_for flat_map]. rewrite Hd.
      by rewrite <- app_assoc.
    + intros y. by rewrite Hext', Hext.
    + cbn [calls_for flat_map]. rewrite Hd. simpl. f_equal. exact Hlen.
Qed.

Lemma verify_first_match (cn file remaps : string) (pre post : list string)
    (a : string) (obj : t) :
  forall w,
    Forall (candidate_mismatches etherscan solc w file remaps) pre ->
    candidate_matches etherscan solc w file remaps a obj ->
    exists w',
      verify cn file (pre ++ a :: post) remaps w
        = (Ok (Some a, Some (compiler_version obj)), w') /\
      solc_calls w' = solc_calls w ++ calls_for etherscan w file remaps (pre ++ [a]) /\
      length (calls_for etherscan w file remaps (pre ++ [a])) = S (length pre).
Proof.
  induction pre as [|x pre IH]; intros w Hall [Hd Hc].
  - destruct (get_details_spec w a obj Hd) as (w1 & Hget & Hcalls & Hext).
    eexists. split; [| split].
    + cbn [app verify_contract_deployment_address]. unfold M_bind at 1.
      rewrite Hget. unfold M_bind at 1. rewrite (complie_spec w1 file remaps obj _ Hc).
      simpl. by rewrite String.eqb_refl.
    + simpl. by rewrite Hd, Hcalls.
    + simpl. by rewrite Hd.
  - apply Forall_cons in Hall as [Hx Hpre].
    destruct (verify_skips_mismatch w cn file remaps x (pre ++ a :: post) Hx)
      as (w2 & o & Hdx & Hstep & Hcalls & Hext).
    destruct (IH w2) as (w' & Hrun & Hcalls' & Hlen).
    { eapply Forall_impl; [exact Hpre |]. intros y (o' & b & ? & ? & ?).
      exists o', b. by rewrite Hext. }
    { split; [by rewrite Hext | done]. }
    exists w'. rewrite (calls_for_ext w w2) in Hcalls', Hlen by done.
    split; [by rewrite <- app_comm_cons, Hstep |]. split.
    + rewrite Hcalls', Hcalls. rewrite <- app_comm_cons.
      cbn [calls_for flat_map]. rewrite Hdx. by rewrite <- app_assoc.
    + rewrite <- app_comm_cons. cbn [calls_for flat_map]. rewrite Hdx.
      simpl. f_equal. exact Hlen.
Qed.
End matcher_facts.

(** C7: the matcher returns the first candidate, in list order, whose
    compiled-and-trimmed bytecode equals the trimmed on-chain bytecode of its
    record, with the compiler version of that record, after invoking the
    compiler once for every candidate up to and including it and not after;
    when every candidate mismatches (an invalid compilation counts as a
    mismatch) it returns [(None, None)] after one invocation per candidate. *)
Theorem matcher_returns_first_match
    (etherscan : string -> result etherscan_page)
    (solc : compile_call -> result string)
    (w : world) (contract_name contract_file remappings : string) :
  (forall (pre post : list string) (a : string) (obj : DeploymentAddressDetails.t),
     Forall (candidate_mismatches etherscan solc w contract_file remappings) pre ->
     candidate_matches etherscan solc w contract_file remappings a obj ->
     exists w',
       verify_contract_deployment_address etherscan solc contract_name contract_file
         (pre ++ a :: post) remappings w
         = (Ok (Some a, Some (DeploymentAddressDetails.compiler_version obj)), w') /\
       solc_calls w' =
         solc_calls w ++ calls_for etherscan w contract_file remappings (pre ++ [a]) /\
       length (calls_for etherscan w contract_file remappings (pre ++ [a]))
         = S (length pre)) /\
  (forall deployment_addresses : list string,
     Forall (candidate_mismatches etherscan solc w contract_file remappings)
       deployment_addresses ->
     exists w',
       verify_contract_deployment_address etherscan solc contract_name contract_file
         deployment_addresses remappings w = (Ok (None, None), w') /\
       solc_calls w' =
         solc_calls w ++ calls_for etherscan w contract_file remappings
                           deployment_addresses /\
       length (calls_for etherscan w contract_file remappings deployment_addresses)
         = length deployment_addresses).
Proof.
  split.
  - intros pre post a obj Hpre Ha. by apply verify_first_match.
  - intros addrs Hall.
    destruct (verify_no_match etherscan solc contract_name contract_file remappings
                addrs w Hall) as (w' & ? & ? & _ & ?).
    by exists w'.
Qed.

Lemma matcher_returns_first_match_witness :
  exists w',
    verify_contract_deployment_address scenario_etherscan scenario_solc
      "Token" "Token.sol" ["0xA1"; "0xB2"] EmptyString empty_world
      = (Ok (Some "0xB2", Some (mkVersion 0 6 2)), w') /\
    solc_calls w' =
      [] ++ calls_for scenario_etherscan empty_world "Token.sol" EmptyString
              ["0xA1"; "0xB2"] /\
    length (calls_for scenario_etherscan empty_world "Token.sol" EmptyString
              ["0xA1"; "0xB2"]) = 2%nat.
Proof.
  apply (proj1 (matcher_returns_first_match scenario_etherscan scenario_solc
                  empty_world "Token" "Token.sol" EmptyString)
           ["0xA1"] [] "0xB2"
           (record_of_page "0xB2"
              (mkPage "Token" (mkVersion 0 6 2) true 200
                 "60806040522222a264697066735822cd"))).
  - constructor; [| constructor].
    exists (record_of_page "0xA1"
              (mkPage "Token" (mkVersion 0 6 0) false 0
                 "60806040521111a264697066735822ab")),
           (Some "60806040522222").
    split; [vm_compute; reflexivity |].
    split; [vm_compute; reflexivity | vm_compute; discriminate].
  - split; vm_compute; reflexivity.
Defined.

(** ** [str] and [int] on integers *)

Lemma digit_value_pretty_char (d : N) :
  (d < 10)%N -> digit_value (pretty_N_char d) = Some (Z.of_N d).
Proof.
  intros Hd.
  assert (d = 0 \/ d = 1 \/ d = 2 \/ d = 3 \/ d = 4 \/ d = 5 \/ d = 6 \/ d = 7 \/
          d = 8 \/ d = 9)%N as Hcases by lia.
  repeat (destruct Hcases as [-> | Hcases]; [reflexivity |]). by subst.
Qed.

Lemma parse_digits_pretty_go (x : N) :
  forall s, exists k : Z, 0 <= k /\ forall acc b,
    parse_digits (pretty_N_go x s) acc b =
    parse_digits s (acc * 10 ^ k + Z.of_N x) (if (x =? 0)%N then b else true).
Proof.
  induction (N.lt_wf_0 x) as [x _ IH]. intros s.
  assert (x = 0 \/ 0 < x)%N as [-> | Hpos] by lia.
  - exists 0. split; [lia |]. intros acc b. rewrite pretty_N_go_0. simpl.
    f_equal. lia.
  - destruct (IH (x `div` 10)%N (N.div_lt x 10 Hpos eq_refl)
                (String (pretty_N_char (x `mod` 10)) s)) as (k & Hk & Hparse).
    exists (k + 1). split; [lia |]. intros acc b.
    rewrite pretty_N_go_step, Hparse by done. cbn [parse_digits].
    rewrite digit_value_pretty_char by (apply N.mod_lt; lia).
    destruct (x =? 0)%N eqn:Hx0; [apply N.eqb_eq in Hx0; lia |].
    f_equal. rewrite Z.pow_add_r by lia.
    pose proof (N.div_mod x 10 ltac:(lia)) as Hdm.
    assert (Z.of_N x = 10 * Z.of_N (x `div` 10) + Z.of_N (x `mod` 10)) by lia.
    lia.
Qed.

Lemma pretty_go_starts_with_digit (x : N) :
  forall s, (0 < x)%N ->
    exists c t, pretty_N_go x s = String c t /\ digit_value c <> None.
Proof.
  induction (N.lt_wf_0 x) as [x _ IH]. intros s Hpos.
  rewrite pretty_N_go_step by done.
  destruct (N.eq_0_gt_0_cases (x `div` 10)) as [-> | Hdiv].
  - rewrite pretty_N_go_0. eexists _, _. split; [done |].
    by rewrite digit_value_pretty_char by (apply N.mod_lt; lia).
  - apply IH; [by apply N.div_lt | done].
Qed.

Lemma py_int_starts_with_digit (c : ascii) (t : string) :
  digit_value c <> None -> py_int (String c t) = parse_digits (String c t) 0 false.
Proof.
  destruct c as [[] [] [] [] [] [] [] []]; intros Hd; try reflexivity;
    by destruct Hd.
Qed.

Lemma py_int_pretty_pos (p : positive) : py_int (pretty (Npos p)) = Some (Zpos p).
Proof.
  unfold pretty, pretty_N. rewrite decide_False by done.
  destruct (pretty_go_starts_with_digit (Npos p) EmptyString ltac:(lia))
    as (c & t & Heq & Hc).
  rewrite Heq, (py_int_starts_with_digit c t Hc), <- Heq.
  destruct (parse_digits_pretty_go (Npos p) EmptyString) as (k & _ & Hparse).
  rewrite Hparse. simpl. f_equal.
Qed.

Lemma py_int_pretty (z : Z) : py_int (pretty z) = Some z.
Proof.
  destruct z as [| p | p].
  - reflexivity.
  - apply py_int_pretty_pos.
  - change (pretty (Zneg p)) with (String "-" (pretty (Npos p))).
    unfold py_int. cbn [skip_int_space].
    change (is_int_space "-") with false. cbv iota.
    pose proof (py_int_pretty_pos p) as Hp.
    unfold pretty, pretty_N in *. rewrite decide_False in * by done.
    destruct (pretty_go_starts_with_digit (Npos p) EmptyString ltac:(lia))
      as (c & t & Heq & Hc).
    rewrite Heq, (py_int_starts_with_digit c t Hc), <- Heq in Hp.
    by rewrite Hp.
Qed.

Lemma no_colon_pretty_go (x : N) :
  forall s, no_colon s = true -> no_colon (pretty_N_go x s) = true.
Proof.
  induction (N.lt_wf_0 x) as [x _ IH]. intros s Hs.
  assert (x = 0 \/ 0 < x)%N as [-> | Hpos] by lia.
  - by rewrite pretty_N_go_0.
  - rewrite pretty_N_go_step by done. apply IH; [by apply N.div_lt |].
    cbn [no_colon]. rewrite Hs, andb_true_r.
    unfold pretty_N_char. by repeat case_match.
Qed.

Lemma no_colon_pretty (z : Z) : no_colon (pretty z) = true.
Proof.
  assert (Hn : forall n : N, no_colon (pretty n) = true).
  { intros n. unfold pretty, pretty_N. case_decide; [done |].
    by apply no_colon_pretty_go. }
  destruct z as [| p | p]; [done | apply Hn |].
  change (pretty (Zneg p)) with (String "-" (pretty (Npos p))).
  cbn [no_colon]. by rewrite Hn.
Qed.

Lemma split_on_nonempty (sep : ascii) (s : string) : split_on sep s <> [].
Proof.
  induction s as [|c s IH]; [done |]. cbn [split_on].
  destruct (split_on sep s); [done |]. by destruct (Ascii.eqb c sep).
Qed.

Lemma split_on_no_colon (p : string) :
  no_colon p = true -> split_on ":" p = [p].
Proof.
  induction p as [|c p IH]; [done |]. cbn [no_colon split_on]. intros Hc.
  apply andb_prop in Hc as [Hc Hp]. rewrite (IH Hp).
  apply negb_true_iff in Hc. by rewrite Hc.
Qed.

Lemma split_on_app (p rest : string) :
  no_colon p = true ->
  split_on ":" (p +:+ String ":" rest) = p :: split_on ":" rest.
Proof.
  induction p as [|c p IH]; cbn [no_colon]; intros Hc.
  - change (EmptyString +:+ String ":" rest) with (String ":" rest).
    cbn [split_on]. destruct (split_on ":" rest) eqn:Hs; [| done].
    by destruct (split_on_nonempty ":" rest).
  - apply andb_prop in Hc as [Hc Hp]. apply negb_true_iff in Hc.
    change (String c p +:+ String ":" rest) with (String c (p +:+ String ":" rest)).
    cbn [split_on]. by rewrite (IH Hp), Hc.
Qed.

Lemma split_on_join (pieces : list string) :
  pieces <> [] -> Forall (fun p => no_colon p = true) pieces ->
  split_on ":" (join ":" pieces) = pieces.
Proof.
  induction pieces as [|p pieces IH]; [done |]. intros _ Hall.
  apply Forall_cons in Hall as [Hp Hall].
  destruct pieces as [|q pieces]; [by apply split_on_no_colon |].
  change (join ":" (p :: q :: pieces)) with (p +:+ ":" +:+ join ":" (q :: pieces)).
  change (p +:+ ":" +:+ join ":" (q :: pieces))
    with (p +:+ String ":" (join ":" (q :: pieces))).
  by rewrite split_on_app, IH.
Qed.

(** The line numbers of a Slither report, being integers, survive the
    text round trip of the constructor. *)
Lemma int_lines_convert (zs : list Z) :
  zs <> [] ->
  exists text, join_lines (map PInt zs) = Ok text /\
               line_num_converter text = Ok zs.
Proof.
  intros Hne. exists (join ":" (map pretty zs)). split.
  - unfold join_lines.
    assert (Hm : mapM py_str (map PInt zs) = Some (map pretty zs)).
    { apply mapM_Some. clear Hne. induction zs; constructor; done. }
    by rewrite Hm.
  - unfold line_num_converter. rewrite split_on_join.
    + clear Hne. induction zs as [|z zs IH]; [done |]. simpl.
      by rewrite py_int_pretty, IH.
    + by destruct zs.
    + apply Forall_forall. intros p Hp.
      apply list_elem_of_fmap in Hp as (z & -> & _). apply no_colon_pretty.
Qed.

(** ** The detector adapters *)

Lemma slither_detector_on_result (ast : pyval) (sol_file : string)
    (st : slither_state) (r : slither_finding) :
  exists fn cn,
    slither_detector ast sol_file st (slither_result sol_file r) =
    Ok (mkSlitherState fn cn (st_vulns st ++ slither_expected ast sol_file r)).
Proof.
  unfold slither_detector, slither_result, slither_expected.
  cbn -[join_lines get_node_and_node_path new_Vulnerability].
  rewrite !String.eqb_refl.
  cbn -[join_lines get_node_and_node_path new_Vulnerability].
  destruct (sf_lines r) as [|l ls] eqn:Hlines.
  - eexists _, _. cbn. by rewrite app_nil_r.
  - cbn -[join_lines get_node_and_node_path new_Vulnerability].
    destruct (int_lines_convert (l :: ls) ltac:(done)) as (text & Hjoin & Hconv).
    cbn [map] in Hjoin. rewrite Hjoin.
    destruct (get_node_and_node_path ast (PInt l)) as [[node path] | e].
    + cbn [mbind result_mbind result_bind]. unfold new_Vulnerability.
      rewrite Hconv. cbn. by eexists _, _.
    + eexists _, _. cbn. by rewrite app_nil_r.
Qed.

Lemma slither_detectors_on_results (ast : pyval) (sol_file : string)
    (rs : list slither_finding) :
  forall st, exists fn cn,
    slither_detectors ast sol_file st (map (slither_result sol_file) rs) =
    Ok (mkSlitherState fn cn
          (st_vulns st ++ flat_map (slither_expected ast sol_file) rs)).
Proof.
  induction rs as [|r rs IH]; intros st.
  - exists (st_function_name st), (st_contract_name st). cbn.
    rewrite app_nil_r. by destruct st.
  - cbn [map slither_detectors flat_map].
    destruct (slither_detector_on_result ast sol_file st r) as (fn & cn & ->).
    cbn [mbind result_mbind result_bind].
    destruct (IH (mkSlitherState fn cn
                    (st_vulns st ++ slither_expected ast sol_file r)))
      as (fn' & cn' & ->).
    exists fn', cn'. cbn [st_vulns]. by rewrite <- app_assoc.
Qed.

Lemma split_on_pieces_no_colon (s : string) :
  Forall (fun p => no_colon p = true) (split_on ":" s).
Proof.
  induction s as [|c s IH]; [by repeat constructor |]. cbn [split_on].
  destruct (split_on ":" s) as [|p ps]; [constructor |].
  apply Forall_cons in IH as [Hp Hps].
  destruct (Ascii.eqb c ":") eqn:Hc; repeat constructor; try done.
  cbn [no_colon]. by rewrite Hc, Hp.
Qed.

Lemma get_vuln_object_on_occurrence (ast : pyval) (sol_file c_name v_name : string)
    (o : oyente_occurrence_info) :
  occurrence_ok ast o ->
  (line_num ← second_piece (PStr (oc_text o));
   v ← get_vuln_object (PStr v_name) sol_file (PStr c_name) line_num ast;
   mret [v]) = Ok [oyente_expected ast sol_file c_name v_name o].
Proof.
  intros [Hline Hfn]. unfold oyente_expected.
  unfold second_piece in *.
  pose proof (split_on_pieces_no_colon (oc_text o)) as Hnc.
  destruct (split_on ":" (oc_text o)) as [|p0 [|line_num ps]]; try done.
  cbn [mbind result_mbind result_bind] in *.
  apply Forall_cons in Hnc as [_ Hnc]. apply Forall_cons in Hnc as [Hnc _].
  unfold get_vuln_object. rewrite Hline. cbn [mbind result_mbind result_bind].
  rewrite Hfn. cbn [mbind result_mbind result_bind].
  destruct (get_node_and_node_path ast (PInt (oc_line o))) as [[node path] | e];
    [| done].
  unfold new_Vulnerability, line_num_converter.
  rewrite (split_on_no_colon _ Hnc). cbn [ints_of].
  unfold int_of_str in Hline. destruct (py_int line_num) as [z |]; [| done].
  by injection Hline as ->.
Qed.

Lemma collect_occurrences (ast : pyval) (sol_file c_name v_name : string)
    (os : list oyente_occurrence_info) :
  Forall (occurrence_ok ast) os ->
  collect (oyente_occurrence v_name sol_file c_name ast)
    (map (fun o => PStr (oc_text o)) os) =
  Ok (map (oyente_expected ast sol_file c_name v_name) os).
Proof.
  induction 1 as [| o os Ho _ IH]; [done |].
  cbn [map collect].
  assert (Hocc : oyente_occurrence v_name sol_file c_name ast (PStr (oc_text o)) =
                 Ok [oyente_expected ast sol_file c_name v_name o]).
  { exact (get_vuln_object_on_occurrence ast sol_file c_name v_name o Ho). }
  rewrite Hocc. cbn [mbind result_mbind result_bind]. by rewrite IH.
Qed.

Lemma collect_kinds (ast : pyval) (sol_file c_name : string)
    (kinds : list (string * list oyente_occurrence_info)) :
  Forall (fun k => Forall (occurrence_ok ast) (snd k)) kinds ->
  collect (fun vv : string * pyval =>
             let (v_name, vulns) := vv in
             if truthy vulns then
               occurrences ← py_iter vulns;
               collect (oyente_occurrence v_name sol_file c_name ast) occurrences
             else mret [])
    (map (fun k => (fst k, PList (map (fun o => PStr (oc_text o)) (snd k)))) kinds) =
  Ok (flat_map (fun k => map (oyente_expected ast sol_file c_name (fst k)) (snd k))
        kinds).
Proof.
  induction 1 as [| [v_name os] kinds Hk _ IH]; [done |].
  cbn [map collect flat_map fst snd]. rewrite IH.
  destruct os as [|o os]; [done |].
  cbn [truthy map py_iter mbind result_mbind result_bind].
  change (PStr (oc_text o) :: map (fun o => PStr (oc_text o)) os)
    with (map (fun o => PStr (oc_text o)) (o :: os)).
  by rewrite (collect_occurrences ast sol_file c_name v_name (o :: os) Hk).
Qed.

(** C9 (amended): on a batch of well-formed entries neither adapter raises,
    and every entry is converted in order, except that an entry whose node
    the locator cannot find gives no element in the Slither adapter and the
    placeholder [None] in the Oyente adapter. *)
Theorem adapters_skip_unlocatable_entries (ast : pyval) (sol_file : string) :
  (forall rs : list slither_finding,
     parse_slither_output (slither_json (map (slither_result sol_file) rs))
       ast sol_file = Ok (flat_map (slither_expected ast sol_file) rs)) /\
  (forall (c_name : string) (kinds : list (string * list oyente_occurrence_info)),
     Forall (fun k => Forall (occurrence_ok ast) (snd k)) kinds ->
     parse_oyente_output (oyente_json sol_file c_name kinds) ast sol_file =
     Ok (flat_map (fun k => map (oyente_expected ast sol_file c_name (fst k)) (snd k))
           kinds)).
Proof.
  split.
  - intros rs. unfold parse_slither_output, slither_json.
    cbn -[slither_detectors slither_result].
    destruct rs as [|r rs]; [done |].
    cbn -[slither_detectors slither_result slither_expected].
    destruct (slither_detectors_on_results ast sol_file (r :: rs)
                (mkSlitherState None None [])) as (fn & cn & Hrun).
    cbn [map] in Hrun. by rewrite Hrun.
  - intros c_name kinds Hok. unfold parse_oyente_output, oyente_json.
    cbn [dict_items mbind result_mbind result_bind collect].
    rewrite String.eqb_refl.
    cbn [negb dict_items mbind result_mbind result_bind collect getitem assoc
         String.eqb Ascii.eqb Bool.eqb].
    rewrite (collect_kinds ast sol_file c_name kinds Hok).
    cbn [mbind result_mbind result_bind mret result_ret]. by rewrite !app_nil_r.
Qed.

Lemma adapters_skip_unlocatable_entries_witness :
  parse_slither_output
    (slither_json (map (slither_result "A.sol") sample_slither_findings))
    sample_tree "A.sol"
  = Ok (flat_map (slither_expected sample_tree "A.sol") sample_slither_findings) /\
  parse_oyente_output (oyente_json "A.sol" "C" sample_oyente_kinds)
    sample_tree "A.sol"
  = Ok (flat_map (fun k => map (oyente_expected sample_tree "A.sol" "C" (fst k))
                             (snd k)) sample_oyente_kinds).
Proof.
  split.
  - apply (proj1 (adapters_skip_unlocatable_entries sample_tree "A.sol")).
  - apply (proj2 (adapters_skip_unlocatable_entries sample_tree "A.sol")).
    repeat constructor; vm_compute; reflexivity.
Defined.

(** C9 as stated fails for the Oyente adapter: the occurrence at line 6,
    whose node the locator cannot find, contributes the element [None] to the
    returned sequence. *)
Lemma oyente_adapter_returns_placeholder :
  get_node_and_node_path sample_tree (PInt 6) = Raise AstNodeNotFound /\
  parse_oyente_output
    (oyente_json "A.sol" "C" [("reentrancy", [mkOccurrence "A.sol:6" 6 (PStr "f")])])
    sample_tree "A.sol" = Ok [None].
Proof. split; vm_compute; reflexivity. Qed.

(** ** The seen set of the commit walk *)

Lemma set_lookkey_app_found (s t : pyset) (key : elem) (h : Z) :
  set_lookkey s key h = Ok true -> set_lookkey (s ++ t) key h = Ok true.
Proof.
  induction s as [|[h' stored] s IH]; [done |]. cbn [app set_lookkey].
  destruct (h' =? h); [| exact IH].
  destruct (elem_eq stored key) as [[] | e]; cbn; [done | exact IH | done].
Qed.

Lemma set_lookkey_absent (s : pyset) (key : elem) (h : Z) :
  set_lookkey s key h = Ok false <-> Forall (misses key h) s.
Proof.
  induction s as [|[h' stored] s IH]; [by split; [constructor |] |].
  cbn [set_lookkey]. rewrite Forall_cons. unfold misses at 1. cbn [fst snd].
  destruct (h' =? h).
  - destruct (elem_eq stored key) as [[] | e]; cbn.
    + split; [done |]. by intros [Hm _]; specialize (Hm eq_refl).
    + rewrite IH. by split; [| intros [_ ?]].
    + split; [done |]. by intros [Hm _]; specialize (Hm eq_refl).
  - rewrite IH. by split; [| intros [_ ?]].
Qed.

Lemma set_lookkey_absent_sub (s t : pyset) (key : elem) (h : Z) :
  t ⊆ s -> set_lookkey s key h = Ok false -> set_lookkey t key h = Ok false.
Proof.
  intros Hsub Hs. apply set_lookkey_absent. apply set_lookkey_absent in Hs.
  apply Forall_forall. intros e He. rewrite Forall_forall in Hs. by apply Hs, Hsub.
Qed.

Section walk_facts.
Context `{PyHash}.

Lemma set_contains_app_found (s t : pyset) (key : elem) :
  set_contains s key = Ok true -> set_contains (s ++ t) key = Ok true.
Proof.
  unfold set_contains. destruct (elem_hash key) as [h | e]; [| done]. cbn.
  apply set_lookkey_app_found.
Qed.

Lemma set_add_new (s : pyset) (key : elem) (h : Z) :
  elem_hash key = Ok h -> set_lookkey s key h = Ok false ->
  set_add s key = Ok (s ++ [(h, key)]).
Proof.
  intros Hh Hl. unfold set_add, set_insert. rewrite Hh. cbn. by rewrite Hl.
Qed.

Lemma set_add_grows (s s' : pyset) (key : elem) :
  set_add s key = Ok s' -> s `prefix_of` s'.
Proof.
  unfold set_add, set_insert. destruct (elem_hash key) as [h | e]; [| done]. cbn.
  destruct (set_lookkey s key h) as [[] | e]; cbn; intros [= <-];
    [done | by apply prefix_app_r].
Qed.

Lemma set_of_grows (items : list elem) :
  forall s s', set_of s items = Ok s' -> s `prefix_of` s'.
Proof.
  induction items as [|v items IH]; intros s s'; cbn [set_of].
  - by intros [= <-].
  - destruct (set_add s v) as [s1 | e] eqn:Hadd; [| done]. cbn. intros Hrest.
    etrans; [by eapply set_add_grows | by apply IH].
Qed.

Lemma within_seen_mono (tv tv' : pyset) (d : vdict) :
  tv ⊆ tv' -> within_seen tv d -> within_seen tv' d.
Proof.
  intros Hsub Hd. unfold within_seen. eapply Forall_impl; [exact Hd |].
  intros ks Hks e He. by apply Hsub, Hks.
Qed.

Lemma vdict_add_new (tv : pyset) (d : vdict) (key : vkey) (v : Vulnerability)
    (h : Z) :
  within_seen tv d ->
  elem_hash (Some v) = Ok h ->
  set_lookkey tv (Some v) h = Ok false ->
  exists d',
    vdict_add d key v = Ok d' /\
    vdict_size d' = S (vdict_size d) /\
    within_seen (tv ++ [(h, Some v)]) d'.
Proof.
  intros Hin Hh Hl. induction Hin as [| [k s] d Hs Hd IH]; cbn [vdict_add].
  - rewrite (set_add_new [] (Some v) h Hh eq_refl). cbn.
    eexists. split; [done |]. split; [done |].
    constructor; [| constructor]. cbn. intros e He.
    apply elem_of_app. by right.
  - cbn [snd] in Hs. destruct (vkey_eq k key).
    + rewrite (set_add_new s (Some v) h Hh
                 (set_lookkey_absent_sub tv s _ h Hs Hl)). cbn.
      eexists. split; [done |]. split.
      * unfold vdict_size. cbn. rewrite length_app. cbn. lia.
      * constructor.
        -- cbn. intros e He. apply elem_of_app in He as [He | He];
             apply elem_of_app; [left; by apply Hs | by right].
        -- eapply within_seen_mono; [| exact Hd]. intros e He.
           apply elem_of_app. by left.
    + destruct IH as (d' & -> & Hsize & Hin'). cbn.
      eexists. split; [done |]. split.
      * unfold vdict_size in *. cbn. lia.
      * constructor; [| done]. cbn. intros e He. apply elem_of_app. left.
        by apply Hs.
Qed.

Lemma visit_grows (detector : detector_name) (st st' : findings_state) (v : elem) :
  dicts_within_seen st ->
  visit detector st v = Ok st' ->
  dicts_within_seen st' /\
  total_vuln st `prefix_of` total_vuln st' /\
  (length (total_vuln st') + new_size st = length (total_vuln st) + new_size st')%nat.
Proof.
  intros [Hs Ho]. unfold visit. destruct v as [vu |]; [| by intros [= <-]].
  unfold set_contains.
  destruct (elem_hash (Some vu)) as [h | e] eqn:Hh; [| done].
  cbn [mbind result_mbind result_bind].
  destruct (set_lookkey (total_vuln st) (Some vu) h) as [[] | e] eqn:Hl;
    cbn [mbind result_mbind result_bind];
    [by intros [= <-] | | done].
  rewrite (set_add_new _ _ h Hh Hl). cbn [mbind result_mbind result_bind].
  assert (Hsub : total_vuln st ⊆ total_vuln st ++ [(h, Some vu)]).
  { intros e He. apply elem_of_app. by left. }
  destruct detector.
  - destruct (vdict_add_new (total_vuln st) (new_vulns_slither st)
                (function_name vu, contract_name vu) vu h Hs Hh Hl)
      as (d' & -> & Hsize & Hin).
    cbn. intros [= <-]. unfold dicts_within_seen, new_size. cbn.
    split; [split; [done | by eapply within_seen_mono] |].
    split; [by apply prefix_app_r |]. rewrite length_app.
    unfold vdict_size in *. cbn. lia.
  - destruct (vdict_add_new (total_vuln st) (new_vulns_oyente st)
                (function_name vu, contract_name vu) vu h Ho Hh Hl)
      as (d' & -> & Hsize & Hin).
    cbn. intros [= <-]. unfold dicts_within_seen, new_size. cbn.
    split; [split; [by eapply within_seen_mono | done] |].
    split; [by apply prefix_app_r |]. rewrite length_app.
    unfold vdict_size in *. cbn. lia.
Qed.

Lemma visit_all_grows (detector : detector_name) (vulns : list elem) :
  forall st st',
    dicts_within_seen st ->
    visit_all detector st vulns = Ok st' ->
    dicts_within_seen st' /\
    total_vuln st `prefix_of` total_vuln st' /\
    (length (total_vuln st') + new_size st
     = length (total_vuln st) + new_size st')%nat.
Proof.
  induction vulns as [|v vulns IH]; intros st st' Hin; cbn [visit_all].
  - intros [= <-]. by split; [| split].
  - destruct (visit detector st v) as [st1 | e] eqn:Hv; [| done]. cbn.
    intros Hrest.
    destruct (visit_grows detector st st1 v Hin Hv) as (Hin1 & Hp1 & Hn1).
    destruct (IH st1 st' Hin1 Hrest) as (Hin' & Hp' & Hn').
    split; [done |]. split; [by etrans | lia].
Qed.

Lemma collect_new_grows (tv : pyset)
    (vulnerabilities : list Vulnerability * list elem) (fs : findings_state) :
  collect_new tv vulnerabilities = Ok fs ->
  tv `prefix_of` total_vuln fs /\
  length (total_vuln fs) = (length tv + new_size fs)%nat.
Proof.
  unfold collect_new.
  destruct (visit_all slither _ _) as [st1 | e] eqn:Hs; [| done]. cbn.
  intros Ho.
  assert (Hin0 : dicts_within_seen (mkFindingsState tv [] [] [])).
  { split; constructor. }
  destruct (visit_all_grows slither _ _ st1 Hin0 Hs) as (Hin1 & Hp1 & Hn1).
  destruct (visit_all_grows oyente _ st1 fs Hin1 Ho) as (_ & Hp & Hn).
  cbn in Hp1, Hn1. unfold new_size in *. cbn in Hn1.
  split; [by etrans | lia].
Qed.

Variable get_vulnerabilities :
  string -> list string -> result (list Vulnerability * list elem).
Variables (repo_path : string) (current_sol_files : list string).

#[local] Abbreviation commit_step :=
  (process_commit get_vulnerabilities repo_path current_sol_files).
#[local] Abbreviation run_walk :=
  (walk get_vulnerabilities repo_path current_sol_files).

Lemma process_commit_grows (st st' : walk_state) (c : commit) (o : commit_output) :
  commit_step st c = Ok (st', o) ->
  seen st `prefix_of` seen st' /\
  length (seen st') = (length (seen st) + new_findings o)%nat.
Proof.
  unfold process_commit.
  destruct (changed_sol_files _ _ _) as [|f fs_].
  - intros [= <- <-]. cbn. split; [done | unfold new_findings; cbn; lia].
  - destruct (get_vulnerabilities _ _) as [vs | e]; [| done].
    cbn [mbind result_mbind result_bind].
    destruct (collect_new (seen st) vs) as [fs | e] eqn:Hc; [| done].
    cbn [mbind result_mbind result_bind].
    destruct (collect_new_grows _ _ _ Hc) as [Hp Hn].
    destruct (functions_meta fs) as [|m ms].
    + intros [= <- <-]. by cbn.
    + destruct (rows_of fs _ (m :: ms)) as [rows | e]; [| done].
      cbn [mbind result_mbind result_bind]. intros [= <- <-]. by cbn.
Qed.

Lemma walk_grows (commits : list commit) :
  forall st st' outs,
    run_walk st commits = Ok (st', outs) ->
    length outs = length commits /\
    seen st `prefix_of` seen st' /\
    length (seen st') = (length (seen st) + sum_list (map new_findings outs))%nat.
Proof.
  induction commits as [|c commits IH]; intros st st' outs; cbn [walk].
  - intros [= <- <-]. cbn. by split; [| split; [| lia]].
  - destruct (commit_step st c) as [[st1 o] | e] eqn:Hc; [| done]. cbn.
    destruct (run_walk st1 commits) as [[st2 os] | e] eqn:Hw; [| done]. cbn.
    intros [= <- <-].
    destruct (process_commit_grows _ _ _ _ Hc) as [Hp1 Hn1].
    destruct (IH _ _ _ Hw) as (Hlen & Hp2 & Hn2).
    cbn. split; [by rewrite Hlen |]. split; [by etrans | lia].
Qed.

Lemma walk_app (earlier later : list commit) :
  forall st st' outs,
    run_walk st (earlier ++ later) = Ok (st', outs) ->
    exists mid outs1 outs2,
      run_walk st earlier = Ok (mid, outs1) /\
      run_walk mid later = Ok (st', outs2) /\
      outs = outs1 ++ outs2.
Proof.
  induction earlier as [|c earlier IH]; intros st st' outs; cbn [app walk].
  - intros Hw. by exists st, [], outs.
  - destruct (commit_step st c) as [[st1 o] | e] eqn:Hc; [| done]. cbn.
    destruct (run_walk st1 (earlier ++ later)) as [[st2 os] | e] eqn:Hw; [| done]. cbn.
    intros [= <- <-].
    destruct (IH _ _ _ Hw) as (mid & outs1 & outs2 & -> & Hl & ->).
    exists mid, (o :: outs1), outs2. by cbn.
Qed.
End walk_facts.

(** ** Findings reported by both detectors *)

Lemma set_lookkey_app_absent (s t : pyset) (key : elem) (h : Z) :
  set_lookkey s key h = Ok false ->
  set_lookkey (s ++ t) key h = set_lookkey t key h.
Proof.
  induction s as [|[h' stored] s IH]; [done |]. cbn [app set_lookkey].
  destruct (h' =? h); [| exact IH].
  destruct (elem_eq stored key) as [[] | e]; cbn; [done | exact IH | done].
Qed.

Lemma vkey_eq_refl (k : vkey) : vkey_eq k k = true.
Proof. unfold vkey_eq. by rewrite !py_eq_refl. Qed.

Lemma py_eq_sym_hashable `{PyHash} (x y : pyval) (hx : Z) :
  hash_pyval x = Ok hx -> py_eq x y = py_eq y x.
Proof.
  destruct x as [| bx | zx | sx | lx | dx], y as [| b_y | zy | sy | ly | dy];
    try done; cbn; intros _.
  - by destruct bx, b_y.
  - destruct bx; apply Z.eqb_sym.
  - destruct b_y; apply Z.eqb_sym.
  - apply Z.eqb_sym.
  - apply String.eqb_sym.
Qed.

Lemma hash_names `{PyHash} (v : Vulnerability) (h : Z) :
  hash_Vulnerability v = Ok h ->
  exists hcn hfn hvn,
    hash_pyval (contract_name v) = Ok hcn /\
    hash_pyval (function_name v) = Ok hfn /\
    hash_pyval (vuln_name v) = Ok hvn.
Proof.
  unfold hash_Vulnerability, Vulnerability__hash__.
  destruct (hash_pyval (contract_name v)) as [hcn |]; [| done].
  destruct (hash_pyval (function_name v)) as [hfn |]; [| done].
  destruct (hash_pyval (vuln_name v)) as [hvn |]; [| done].
  intros _. by exists hcn, hfn, hvn.
Qed.

Section both_detectors.
Context `{PyHash}.
Variables (tv : pyset) (a b : Vulnerability) (h : Z).
Hypothesis hash_a : hash_Vulnerability a = Ok h.
Hypothesis hash_b : hash_Vulnerability b = Ok h.
Hypothesis a_eq_b : Vulnerability__eq__ a b = true.
Hypothesis a_new : set_lookkey tv (Some a) h = Ok false.
Hypothesis b_new : set_lookkey tv (Some b) h = Ok false.

Let key : vkey := (function_name a, contract_name a).
Let after_slither : findings_state :=
  mkFindingsState (tv ++ [(h, Some a)])
    [(function_name a, contract_name a, contract_file_path a)]
    [(key, [(h, Some a)])] [].

Lemma slither_pass :
  visit_all slither (mkFindingsState tv [] [] []) [Some a] = Ok after_slither.
Proof.
  cbn [visit_all visit total_vuln]. unfold set_contains.
  cbn [elem_hash]. rewrite hash_a. cbn [mbind result_mbind result_bind].
  rewrite a_new. cbn [mbind result_mbind result_bind].
  rewrite (set_add_new tv (Some a) h hash_a a_new).
  cbn [mbind result_mbind result_bind new_vulns_slither vdict_add].
  by rewrite (set_add_new [] (Some a) h hash_a eq_refl).
Qed.

Lemma second_report_is_seen :
  set_contains (tv ++ [(h, Some a)]) (Some b) = Ok true.
Proof.
  unfold set_contains. cbn [elem_hash]. rewrite hash_b.
  cbn [mbind result_mbind result_bind].
  rewrite (set_lookkey_app_absent tv _ _ h b_new). cbn [set_lookkey].
  rewrite Z.eqb_refl. cbn [elem_eq]. by rewrite a_eq_b.
Qed.

Lemma both_reports_collected :
  collect_new tv ([a], [Some b]) = Ok after_slither.
Proof.
  unfold collect_new. cbn [fst snd map]. rewrite slither_pass.
  cbn [mbind result_mbind result_bind visit_all visit].
  change (total_vuln after_slither) with (tv ++ [(h, Some a)]).
  by rewrite second_report_is_seen.
Qed.

Lemma rows_after_both_reports (commits : list string) :
  rows_of after_slither commits (functions_meta after_slither) =
  Ok [mkPatchRow commits (contract_name a) (function_name a)
        (contract_file_path a) [("Slither", [(h, Some a)])]].
Proof.
  change (functions_meta after_slither)
    with [(function_name a, contract_name a, contract_file_path a)].
  cbn [rows_of]. unfold groups_of.
  change (new_vulns_slither after_slither) with [(key, [(h, Some a)])].
  change (new_vulns_oyente after_slither) with (@nil (vkey * pyset)).
  cbn [vdict_get]. fold key. by rewrite vkey_eq_refl.
Qed.

(** A further new finding [c] of Oyente's, in the same function of the
    same contract and file. *)
Variables (c : Vulnerability) (hc : Z).
Hypothesis hash_c : hash_Vulnerability c = Ok hc.
Hypothesis c_new : set_lookkey (tv ++ [(h, Some a)]) (Some c) hc = Ok false.
Hypothesis c_function : py_eq (function_name a) (function_name c) = true.
Hypothesis c_contract : py_eq (contract_name a) (contract_name c) = true.
Hypothesis c_file : contract_file_path a = contract_file_path c.

Let after_oyente : findings_state :=
  mkFindingsState ((tv ++ [(h, Some a)]) ++ [(hc, Some c)])
    [(function_name a, contract_name a, contract_file_path a)]
    [(key, [(h, Some a)])]
    [((function_name c, contract_name c), [(hc, Some c)])].

Lemma three_reports_collected :
  collect_new tv ([a], [Some b; Some c]) = Ok after_oyente.
Proof.
  unfold collect_new. cbn [fst snd map]. rewrite slither_pass.
  cbn [mbind result_mbind result_bind visit_all visit].
  change (total_vuln after_slither) with (tv ++ [(h, Some a)]).
  rewrite second_report_is_seen.
  cbn [mbind result_mbind result_bind mret result_ret].
  change (total_vuln after_slither) with (tv ++ [(h, Some a)]).
  unfold set_contains. cbn [elem_hash]. rewrite hash_c.
  cbn [mbind result_mbind result_bind]. rewrite c_new.
  cbn [mbind result_mbind result_bind].
  rewrite (set_add_new _ (Some c) hc hash_c c_new).
  cbn [mbind result_mbind result_bind after_slither new_vulns_oyente
       new_vulns_slither functions_meta vdict_add].
  rewrite (set_add_new [] (Some c) hc hash_c eq_refl).
  cbn [mbind result_mbind result_bind mret result_ret].
  unfold after_oyente, meta_add, meta_eq. cbn [existsb fst snd app].
  by rewrite c_function, c_contract, c_file, String.eqb_refl.
Qed.

Lemma rows_after_three_reports (commits : list string) :
  rows_of after_oyente commits (functions_meta after_oyente) =
  Ok [mkPatchRow commits (contract_name a) (function_name a)
        (contract_file_path a)
        [("Slither|Oyente", [(h, Some a); (hc, Some c)])]].
Proof.
  change (functions_meta after_oyente)
    with [(function_name a, contract_name a, contract_file_path a)].
  cbn [rows_of]. unfold groups_of.
  change (new_vulns_slither after_oyente) with [(key, [(h, Some a)])].
  change (new_vulns_oyente after_oyente)
    with [((function_name c, contract_name c), [(hc, Some c)])].
  cbn [vdict_get]. fold key. rewrite vkey_eq_refl.
  assert (Hk : vkey_eq (function_name c, contract_name c) key = true).
  { destruct (hash_names a h hash_a) as (hcn & hfn & _ & Hcn & Hfn & _).
    unfold vkey_eq, key. cbn [fst snd].
    rewrite <- (py_eq_sym_hashable _ _ _ Hfn), <- (py_eq_sym_hashable _ _ _ Hcn).
    by rewrite c_function, c_contract. }
  rewrite Hk. cbn [set_union set_insert fst snd].
  assert (Hl : set_lookkey [(h, Some a)] (Some c) hc = Ok false).
  { apply (set_lookkey_absent_sub (tv ++ [(h, Some a)])); [| done].
    intros e He. apply elem_of_app. by right. }
  unfold set_insert. cbn [fst snd]. rewrite Hl. done.
Qed.
End both_detectors.

(** Reports that are equal kind name included.  When, in one commit, two
    reports are the same finding (same hash, equal under [__eq__], which
    compares the kind name too), the finding enters the seen set once, the
    second report is dropped as already seen, and the row of its function
    lists it in the group of the detector that came first; the row carries
    the group [Slither|Oyente] (holding all new findings of the function)
    when Oyente reports a further new finding for the same function and
    contract. *)
Theorem equal_reports_are_counted_once `{PyHash} (tv : pyset)
    (a b : Vulnerability) (h : Z) (commits : list string) :
  hash_Vulnerability a = Ok h ->
  hash_Vulnerability b = Ok h ->
  Vulnerability__eq__ a b = true ->
  set_lookkey tv (Some a) h = Ok false ->
  set_lookkey tv (Some b) h = Ok false ->
  (exists fs,
     collect_new tv ([a], [Some b]) = Ok fs /\
     total_vuln fs = tv ++ [(h, Some a)] /\
     new_vulns_slither fs = [((function_name a, contract_name a), [(h, Some a)])] /\
     new_vulns_oyente fs = [] /\
     rows_of fs commits (functions_meta fs) =
       Ok [mkPatchRow commits (contract_name a) (function_name a)
             (contract_file_path a) [("Slither", [(h, Some a)])]]) /\
  (forall (c : Vulnerability) (hc : Z),
     hash_Vulnerability c = Ok hc ->
     set_lookkey (tv ++ [(h, Some a)]) (Some c) hc = Ok false ->
     py_eq (function_name a) (function_name c) = true ->
     py_eq (contract_name a) (contract_name c) = true ->
     contract_file_path a = contract_file_path c ->
     exists fs,
       collect_new tv ([a], [Some b; Some c]) = Ok fs /\
       total_vuln fs = (tv ++ [(h, Some a)]) ++ [(hc, Some c)] /\
       rows_of fs commits (functions_meta fs) =
         Ok [mkPatchRow commits (contract_name a) (function_name a)
               (contract_file_path a)
               [("Slither|Oyente", [(h, Some a); (hc, Some c)])]]).
Proof.
  intros Ha Hb Hab Hna Hnb. split.
  - eexists. split; [by apply both_reports_collected |].
    repeat (split; [reflexivity |]).
    by apply rows_after_both_reports.
  - intros c hc Hc Hnc Hfn Hcn Hfile.
    eexists. split; [by eapply three_reports_collected |].
    split; [reflexivity |].
    by eapply rows_after_three_reports.
Qed.

Lemma equal_reports_are_counted_once_witness :
  (exists fs,
     collect_new (H := cpython312_seed0) [] ([finding_of_line_5], [Some finding_of_line_5])
       = Ok fs /\
     total_vuln fs = [] ++ [(8576178117519306143, Some finding_of_line_5)] /\
     new_vulns_slither fs =
       [((PStr "f", PStr "C"), [(8576178117519306143, Some finding_of_line_5)])] /\
     new_vulns_oyente fs = [] /\
     rows_of fs ["c2"] (functions_meta fs) =
       Ok [mkPatchRow ["c2"] (PStr "C") (PStr "f") "/repo/contracts/A.sol"
             [("Slither", [(8576178117519306143, Some finding_of_line_5)])]]) /\
  (exists fs,
     collect_new (H := cpython312_seed0) []
       ([finding_of_line_5], [Some finding_of_line_5; Some finding_of_line_4])
       = Ok fs /\
     total_vuln fs = ([] ++ [(8576178117519306143, Some finding_of_line_5)])
                      ++ [(7517890859386057978, Some finding_of_line_4)] /\
     rows_of fs ["c2"] (functions_meta fs) =
       Ok [mkPatchRow ["c2"] (PStr "C") (PStr "f") "/repo/contracts/A.sol"
             [("Slither|Oyente",
               [(8576178117519306143, Some finding_of_line_5);
                (7517890859386057978, Some finding_of_line_4)])]]).
Proof.
  destruct (@equal_reports_are_counted_once cpython312_seed0 []
              finding_of_line_5 finding_of_line_5 8576178117519306143 ["c2"])
    as [Hone Htwo]; try (vm_compute; reflexivity).
  split; [exact Hone |].
  apply (Htwo finding_of_line_4 7517890859386057978); vm_compute; reflexivity.
Defined.

(** ** The walk completes *)

Section walk_completes.
Context `{PyHash}.

Lemma set_lookkey_defined (s : pyset) (v : Vulnerability) (h : Z) :
  none_under s -> h <> hash_None ->
  exists found, set_lookkey s (Some v) h = Ok found.
Proof.
  intros Hs Hh. induction Hs as [| [h' stored] s Hentry _ IH]; [by exists false |].
  cbn [set_lookkey]. destruct (h' =? h) eqn:Heq; [| exact IH].
  apply Z.eqb_eq in Heq. subst h'. destruct stored as [a |].
  - cbn. destruct (Vulnerability__eq__ a v); [by exists true | exact IH].
  - cbn in Hentry. by destruct Hh; apply Hentry.
Qed.

Lemma set_lookkey_findings_only (s : pyset) (v : Vulnerability) (h : Z) :
  findings_only s -> exists found, set_lookkey s (Some v) h = Ok found.
Proof.
  intros Hs. induction Hs as [| [h' stored] s Hentry _ IH]; [by exists false |].
  cbn [set_lookkey]. destruct (h' =? h); [| exact IH].
  destruct stored as [a |]; [| done].
  cbn. destruct (Vulnerability__eq__ a v); [by exists true | exact IH].
Qed.

Lemma set_union_defined (b : pyset) :
  forall a, findings_only a -> findings_only b ->
    exists u, set_union a b = Ok u.
Proof.
  induction b as [| [h stored] b IH]; intros a Ha Hb; [by exists a |].
  apply Forall_cons in Hb as [Hstored Hb]. cbn in Hstored.
  destruct stored as [v |]; [| done].
  cbn [set_union]. unfold set_insert. cbn [fst snd].
  destruct (set_lookkey_findings_only a v h Ha) as [found ->].
  cbn [mbind result_mbind result_bind mret result_ret].
  apply IH; [| done]. destruct found; [done |].
  apply Forall_app. split; [done |]. by repeat constructor.
Qed.

Lemma vdict_add_findings_only (d d' : vdict) (key : vkey) (v : Vulnerability) :
  dict_findings_only d -> vdict_add d key v = Ok d' -> dict_findings_only d'.
Proof.
  intros Hd. revert d'. induction Hd as [| [k s] d Hs Hd IH]; intros d';
    cbn [vdict_add].
  - unfold set_add, set_insert.
    destruct (elem_hash (Some v)) as [h | e]; [| done]. cbn.
    intros [= <-]. by repeat constructor.
  - destruct (vkey_eq k key).
    + unfold set_add, set_insert.
      destruct (elem_hash (Some v)) as [h | e]; [| done].
      cbn [mbind result_mbind result_bind fst snd].
      destruct (set_lookkey s (Some v) h) as [found | e]; [| done].
      cbn. intros [= <-]. constructor; [| done]. cbn. destruct found; [done |].
      apply Forall_app. split; [done |]. by repeat constructor.
    + destruct (vdict_add d key v) as [d1 | e]; [| done]. cbn.
      intros [= <-]. constructor; [done | by apply IH].
Qed.

Lemma visit_defined (detector : detector_name) (st : findings_state) (v : elem) :
  visit_invariant st -> elem_hashes_apart v ->
  exists st', visit detector st v = Ok st' /\ visit_invariant st'.
Proof.
  intros (Hnone & Hin & Hfs & Hfo) Hv.
  destruct v as [vu |]; [| by exists st].
  destruct Hv as (h & Hh & Hne).
  assert (Hvisit : exists st', visit detector st (Some vu) = Ok st').
  { unfold visit, set_contains. cbn [elem_hash]. rewrite Hh.
    cbn [mbind result_mbind result_bind].
    destruct (set_lookkey_defined (total_vuln st) vu h Hnone Hne) as [found Hl].
    rewrite Hl. cbn [mbind result_mbind result_bind].
    destruct found; [by exists st |].
    rewrite (set_add_new _ (Some vu) h Hh Hl).
    cbn [mbind result_mbind result_bind].
    destruct Hin as [Hs Ho]. destruct detector.
    - destruct (vdict_add_new (total_vuln st) (new_vulns_slither st)
                  (function_name vu, contract_name vu) vu h Hs Hh Hl)
        as (d' & -> & _). by eexists.
    - destruct (vdict_add_new (total_vuln st) (new_vulns_oyente st)
                  (function_name vu, contract_name vu) vu h Ho Hh Hl)
        as (d' & -> & _). by eexists. }
  destruct Hvisit as [st' Hst']. exists st'. split; [done |].
  destruct (visit_grows detector st st' (Some vu) Hin Hst') as (Hin' & _ & _).
  revert Hst'. unfold visit, set_contains. cbn [elem_hash]. rewrite Hh.
  cbn [mbind result_mbind result_bind].
  destruct (set_lookkey (total_vuln st) (Some vu) h) as [[] | e] eqn:Hl;
    cbn [mbind result_mbind result_bind]; [by intros [= <-] | | done].
  rewrite (set_add_new _ (Some vu) h Hh Hl).
  cbn [mbind result_mbind result_bind].
  assert (Hnone' : none_under (total_vuln st ++ [(h, Some vu)])).
  { apply Forall_app. split; [done |]. by repeat constructor. }
  destruct detector.
  - destruct (vdict_add _ _ vu) as [d' | e] eqn:Hadd; [| done]. cbn.
    intros [= <-]. split; [exact Hnone' |]. split; [exact Hin' |].
    split; [| exact Hfo]. exact (vdict_add_findings_only _ _ _ _ Hfs Hadd).
  - destruct (vdict_add _ _ vu) as [d' | e] eqn:Hadd; [| done]. cbn.
    intros [= <-]. split; [exact Hnone' |]. split; [exact Hin' |].
    split; [exact Hfs |]. exact (vdict_add_findings_only _ _ _ _ Hfo Hadd).
Qed.

Lemma visit_all_defined (detector : detector_name) (vulns : list elem) :
  forall st,
    visit_invariant st -> Forall elem_hashes_apart vulns ->
    exists st', visit_all detector st vulns = Ok st' /\ visit_invariant st'.
Proof.
  induction vulns as [| v vulns IH]; intros st Hst Hall; [by exists st |].
  apply Forall_cons in Hall as [Hv Hall].
  destruct (visit_defined detector st v Hst Hv) as (st1 & Hst1 & Hinv1).
  cbn [visit_all]. rewrite Hst1. cbn [mbind result_mbind result_bind].
  by apply IH.
Qed.

Lemma rows_of_defined (st : findings_state) (commits : list string)
    (ms : list meta) :
  dict_findings_only (new_vulns_slither st) ->
  dict_findings_only (new_vulns_oyente st) ->
  exists rows, rows_of st commits ms = Ok rows.
Proof.
  intros Hfs Hfo.
  assert (Hget : forall d key s, dict_findings_only d ->
                   vdict_get d key = Some s -> findings_only s).
  { intros d key s Hd. induction Hd as [| [k s'] d Hs _ IH]; [done |].
    cbn [vdict_get]. destruct (vkey_eq k key); [by intros [= <-] | exact IH]. }
  induction ms as [| [[fn cn] file] ms [rows IH]]; [by exists [] |].
  cbn [rows_of]. rewrite IH.
  assert (Hg : exists groups, groups_of st (fn, cn) = Ok groups).
  { unfold groups_of.
    destruct (vdict_get (new_vulns_slither st) (fn, cn)) as [s |] eqn:Hs,
             (vdict_get (new_vulns_oyente st) (fn, cn)) as [o |] eqn:Ho;
      try by eexists.
    destruct (set_union_defined o s (Hget _ _ _ Hfs Hs) (Hget _ _ _ Hfo Ho))
      as [u ->]. by eexists. }
  destruct Hg as [groups ->]. by eexists.
Qed.

Variable get_vulnerabilities :
  string -> list string -> result (list Vulnerability * list elem).
Variables (repo_path : string) (current_sol_files : list string).

Lemma process_commit_defined (st : walk_state) (c : commit) :
  detectors_behave get_vulnerabilities -> none_under (seen st) ->
  exists st' o,
    process_commit get_vulnerabilities repo_path current_sol_files st c
      = Ok (st', o) /\
    none_under (seen st').
Proof.
  intros Hdet Hnone. unfold process_commit.
  destruct (changed_sol_files _ _ _) as [| f files]; [by eexists _, _ |].
  destruct (Hdet (commit_hash c) (f :: files)) as (vs & -> & Hs & Ho).
  cbn [mbind result_mbind result_bind]. unfold collect_new.
  destruct (visit_all_defined slither (map Some (fst vs))
              (mkFindingsState (seen st) [] [] [])) as (st1 & -> & Hinv1).
  { repeat split; try done; constructor. }
  { apply Forall_fmap. exact Hs. }
  cbn [mbind result_mbind result_bind].
  destruct (visit_all_defined oyente (snd vs) st1 Hinv1 Ho)
    as (fs & -> & Hnone' & _ & Hfs & Hfo).
  cbn [mbind result_mbind result_bind].
  destruct (functions_meta fs) as [| m ms] eqn:Hm; [by eexists _, _ |].
  destruct (rows_of_defined fs (total_commits st ++ [commit_hash c]) (m :: ms)
              Hfs Hfo) as [rows ->].
  by eexists _, _.
Qed.

(** The walk returns whenever the detectors behave and the placeholders of
    the starting set sit under the hash of [None]. *)
Lemma walk_completes (commits : list commit) :
  forall st,
    detectors_behave get_vulnerabilities -> none_under (seen st) ->
    exists st' outs,
      walk get_vulnerabilities repo_path current_sol_files st commits
        = Ok (st', outs).
Proof.
  induction commits as [| c commits IH]; intros st Hdet Hnone;
    [by eexists _, _ |].
  destruct (process_commit_defined st c Hdet Hnone) as (st1 & o & Hc & Hnone1).
  destruct (IH st1 Hdet Hnone1) as (st' & outs & Hw).
  cbn [walk]. rewrite Hc. cbn [mbind result_mbind result_bind]. rewrite Hw.
  by eexists _, _.
Qed.

Lemma hashes_kept_apart_none_under (s : pyset) :
  hashes_kept_apart s -> none_under s.
Proof.
  intros Hs. eapply Forall_impl; [exact Hs |].
  intros [h stored]. cbn. by intros Hentry ->.
Qed.

Lemma set_lookkey_None_defined (s : pyset) :
  hashes_kept_apart s -> exists found, set_lookkey s None hash_None = Ok found.
Proof.
  intros Hs. induction Hs as [| [h stored] s Hentry _ IH]; [by exists false |].
  cbn [set_lookkey]. destruct (h =? hash_None) eqn:Heq; [| exact IH].
  apply Z.eqb_eq in Heq. destruct stored as [a |]; [done | by exists true].
Qed.

Lemma set_of_defined (items : list elem) :
  forall s,
    hashes_kept_apart s -> Forall elem_hashes_apart items ->
    exists s', set_of s items = Ok s' /\ hashes_kept_apart s'.
Proof.
  induction items as [| v items IH]; intros s Hs Hall; [by exists s |].
  apply Forall_cons in Hall as [Hv Hall]. cbn [set_of].
  assert (Hadd : exists s1, set_add s v = Ok s1 /\ hashes_kept_apart s1).
  { unfold set_add, set_insert. destruct v as [vu |]; cbn [elem_hash fst snd].
    - destruct Hv as (h & -> & Hne). cbn [mbind result_mbind result_bind fst snd].
      destruct (set_lookkey_defined s vu h (hashes_kept_apart_none_under s Hs) Hne)
        as [found ->].
      cbn. eexists. split; [done |]. destruct found; [done |].
      apply Forall_app. split; [done |]. by repeat constructor.
    - cbn [mbind result_mbind result_bind fst snd].
      destruct (set_lookkey_None_defined s Hs) as [found ->].
      cbn. eexists. split; [done |]. destruct found; [done |].
      apply Forall_app. split; [done |]. by repeat constructor. }
  destruct Hadd as (s1 & -> & Hs1). cbn [mbind result_mbind result_bind].
  by apply IH.
Qed.

(** [process_repo] returns whenever the detectors behave. *)
Lemma process_repo_completes (head : string) (commit_hashes : list commit) :
  detectors_behave get_vulnerabilities ->
  exists st' outs,
    process_repo get_vulnerabilities repo_path current_sol_files head
      commit_hashes = Ok (st', outs).
Proof.
  intros Hdet. unfold process_repo.
  destruct (Hdet head current_sol_files) as (vs & -> & Hs & Ho).
  cbn [mbind result_mbind result_bind].
  match goal with
  | |- context [set_of [] ?items] =>
      destruct (set_of_defined items []) as (tv & -> & Htv)
  end.
  { constructor. }
  { apply Forall_app. split; [| done]. apply Forall_fmap. exact Hs. }
  cbn [mbind result_mbind result_bind].
  apply walk_completes; [done |]. by apply hashes_kept_apart_none_under.
Qed.
End walk_completes.

(** * Further properties of the code *)

(** ** [utils.remove_loc_info] *)

Lemma loc_free_remove_loc_info (d : pyval) :
  loc_free (remove_loc_info d) = true.
Proof.
  induction d as [| b | z | s | l IH | kv IH] using pyval_ind; try done.
  - cbn. induction IH as [| x l Hx _ IHl]; [done |]. cbn. by rewrite Hx, IHl.
  - cbn. induction IH as [| [k x] kv Hx _ IHkv]; [done |].
    cbn in Hx. destruct (String.eqb k "loc") eqn:Hk; [exact IHkv |].
    by rewrite Hk, Hx, IHkv.
Qed.

Lemma loc_free_fixed (d : pyval) :
  loc_free d = true -> remove_loc_info d = d.
Proof.
  induction d as [| b | z | s | l IH | kv IH] using pyval_ind; try done.
  - cbn. intros Hl. f_equal.
    induction IH as [| x l Hx _ IHl]; [done |]. cbn in *.
    apply andb_prop in Hl as [H1 H2]. by rewrite Hx, IHl.
  - cbn. intros Hl. f_equal.
    induction IH as [| [k x] kv Hx _ IHkv]; [done |]. cbn in *.
    apply andb_prop in Hl as [H1 H3]. apply andb_prop in H1 as [H1 H2].
    apply negb_true_iff in H1. by rewrite H1, Hx, IHkv.
Qed.

(** X2: stripping is idempotent: a stripped value is returned unchanged. *)
Theorem remove_loc_info_idempotent (d : pyval) :
  remove_loc_info (remove_loc_info d) = remove_loc_info d.
Proof. apply loc_free_fixed, loc_free_remove_loc_info. Qed.

Lemma assoc_remove_loc (kv : list (string * pyval)) (key : string) :
  assoc key
    ((fix go (kv : list (string * pyval)) : list (string * pyval) :=
        match kv with
        | [] => []
        | (k, v) :: kv' =>
            if String.eqb k "loc" then go kv'
            else (k, remove_loc_info v) :: go kv'
        end) kv) =
  if String.eqb key "loc" then None else remove_loc_info <$> assoc key kv.
Proof.
  induction kv as [| [k x] kv IH]; [by destruct (String.eqb key "loc") |].
  cbn [assoc]. destruct (String.eqb k "loc") eqn:Hk.
  - rewrite IH. destruct (String.eqb key "loc") eqn:Hkey; [done |].
    destruct (String.eqb key k) eqn:Hkk; [| done].
    apply String.eqb_eq in Hkk. congruence.
  - cbn [assoc]. rewrite IH. destruct (String.eqb key k) eqn:Hkk; [| done].
    apply String.eqb_eq in Hkk. subst k. by rewrite Hk.
Qed.

(** X3: under every key but ['loc'] the stripped dictionary holds the stripped
    value of the original; a missing key and a value that is no dictionary
    raise as before. *)
Theorem remove_loc_info_getitem (d : pyval) (key : string) :
  key <> "loc" ->
  getitem (remove_loc_info d) key = (v ← getitem d key; mret (remove_loc_info v)).
Proof.
  intros Hkey. destruct d as [| b | z | s | l | kv]; try done.
  unfold getitem. cbn [remove_loc_info]. rewrite assoc_remove_loc.
  destruct (String.eqb key "loc") eqn:Hk; [by apply String.eqb_eq in Hk |].
  by destruct (assoc key kv).
Qed.

Lemma remove_loc_info_getitem_witness :
  getitem (remove_loc_info (sample_stmt "a" 4 4)) "type" =
    (v ← getitem (sample_stmt "a" 4 4) "type"; mret (remove_loc_info v)).
Proof. apply remove_loc_info_getitem. discriminate. Defined.

Lemma remove_loc_info_no_loc_key (d : pyval) :
  get_attr (remove_loc_info d) "loc" = PNone.
Proof.
  destruct d as [| b | z | s | l | kv]; try done.
  unfold get_attr, getitem. cbn [remove_loc_info]. by rewrite assoc_remove_loc.
Qed.

(** X1: the value [remove_loc_info] returns has no key ['loc'], neither at the
    top nor at any depth below, inside lists and dictionaries. *)
Theorem remove_loc_info_strips_every_loc (d : pyval) :
  loc_free (remove_loc_info d) = true /\
  get_attr (remove_loc_info d) "loc" = PNone.
Proof.
  split.
  - apply loc_free_remove_loc_info.
  - apply remove_loc_info_no_loc_key.
Qed.

(** ** More on [utils.get_node_and_node_path] *)

Lemma scan_items_sound line node_path suffix items r :
  scan_items line node_path suffix items = Ok (Some r) ->
  exists m, m ∈ items /\ starts_at m line = Ok true /\
            r = (remove_loc_info m, node_path ++ suffix).
Proof.
  induction items as [| item rest IH]; [done |].
  cbn [scan_items]. destruct (starts_at item line) as [[] | e] eqn:Hs; cbn;
    [| | done].
  - intros [= <-]. exists item. split; [by left | done].
  - intros Hrest. destruct (IH Hrest) as (m & Hin & Hm). exists m.
    split; [by right | done].
Qed.

Lemma scan_subNode_sound line node_path subNode r :
  scan_subNode line node_path subNode = Ok (Some r) ->
  exists m suffix,
    compared_in subNode m suffix /\ starts_at m line = Ok true /\
    r = (remove_loc_info m, node_path ++ suffix).
Proof.
  unfold scan_subNode, compared_in.
  destruct (getitem subNode "type") as [ty | e]; [| done].
  cbn [mbind result_mbind result_bind].
  destruct (in_strs ty ["StateVariableDeclaration"; "UsingForDeclaration";
                        "EventDefinition"]) eqn:H1.
  { destruct (starts_at subNode line) as [[] | e] eqn:Hs; cbn; try done.
    intros [= <-]. exists subNode, []. split.
    - exists ty. split; [done |]. by rewrite H1.
    - by rewrite app_nil_r. }
  destruct (in_strs ty ["StructDefinition"; "EnumDefinition"]) eqn:H2.
  { destruct (getitem subNode "members") as [members | e] eqn:Hm; [| done].
    cbn [mbind result_mbind result_bind].
    destruct (py_iter members) as [ms | e] eqn:Hms; [| done].
    cbn [mbind result_mbind result_bind]. intros Hs.
    destruct (scan_items_sound _ _ _ _ _ Hs) as (m & Hin & Hst & ->).
    exists m, ["member"; "[*]"]. split; [| done].
    exists ty. split; [done |]. rewrite H1, H2. by exists members, ms. }
  destruct (in_strs ty ["FunctionDefinition"; "ModifierDefinition"]) eqn:H3; [| done].
  destruct (truthy _) eqn:Ht; [| done].
  destruct (py_iter _) as [ss | e] eqn:Hss; [| done].
  cbn [mbind result_mbind result_bind]. intros Hs.
  destruct (scan_items_sound _ _ _ _ _ Hs) as (m & Hin & Hst & ->).
  exists m, ["body"; "statements"; "[*]"]. split; [| done].
  exists ty. split; [done |]. rewrite H1, H2, H3. by exists ss.
Qed.

Lemma scan_subNodes_sound line node_path subNodes r :
  scan_subNodes line node_path subNodes = Ok (Some r) ->
  located_at line node_path subNodes r.
Proof.
  induction subNodes as [| sn rest IH]; [done |]. cbn [scan_subNodes].
  destruct (scan_subNode line node_path sn) as [[found |] | e] eqn:Hsn; cbn;
    [| | done].
  - intros [= <-]. destruct (scan_subNode_sound _ _ _ _ Hsn) as (m & suffix & Hc & Hs & Hr).
    exists sn, m, suffix. split; [by left | done].
  - intros Hrest. destruct (IH Hrest) as (sn' & m & suffix & Hin & Hr).
    exists sn', m, suffix. split; [by right | done].
Qed.

Lemma scan_children_sound line children :
  forall node_path r,
    scan_children line node_path children = Ok r ->
    exists (i : nat) (child subNodes : pyval) (sns : list pyval),
      children !! i = Some child /\ is_contract child = true /\
      getitem child "subNodes" = Ok subNodes /\ py_iter subNodes = Ok sns /\
      located_at line
        (node_path ++
         concat (replicate (contracts_in (take (S i) children)) ["subNodes"; "[*]"]))
        sns r.
Proof.
  induction children as [| child rest IH]; intros node_path r; [done |].
  cbn [scan_children].
  destruct (getitem child "type") as [ty | e] eqn:Hty; [| done].
  cbn [mbind result_mbind result_bind].
  assert (Hic : is_contract child = py_eq ty (PStr "ContractDefinition")).
  { unfold is_contract. by rewrite Hty. }
  destruct (py_eq ty _) eqn:Hct.
  - destruct (getitem child "subNodes") as [subNodes | e] eqn:Hsub; [| done].
    cbn [mbind result_mbind result_bind].
    destruct (py_iter subNodes) as [sns | e] eqn:Hsns; [| done].
    cbn [mbind result_mbind result_bind].
    destruct (scan_subNodes line _ sns) as [[found |] | e] eqn:Hs; cbn; [| | done].
    + intros [= <-]. exists 0%nat, child, subNodes, sns.
      split; [done |]. split; [done |]. split; [done |]. split; [done |].
      cbn [take contracts_in]. rewrite Hic. cbn.
      by apply scan_subNodes_sound.
    + intros Hrest.
      destruct (IH _ _ Hrest) as (i & c & sub & sns' & Hi & Hc & Hsub' & Hsns' & Hl).
      exists (S i), c, sub, sns'.
      split; [done |]. split; [done |]. split; [done |]. split; [done |].
      change (take (S (S i)) (child :: rest)) with (child :: take (S i) rest).
      cbn [contracts_in]. rewrite Hic. cbn [Nat.add replicate concat].
      rewrite <- app_assoc in Hl. exact Hl.
  - intros Hrest.
    destruct (IH _ _ Hrest) as (i & c & sub & sns' & Hi & Hc & Hsub' & Hsns' & Hl).
    exists (S i), c, sub, sns'.
    split; [done |]. split; [done |]. split; [done |]. split; [done |].
    change (take (S (S i)) (child :: rest)) with (child :: take (S i) rest).
    cbn [contracts_in]. rewrite Hic. exact Hl.
Qed.

Lemma contracts_in_upto (children : list pyval) (i : nat) (child : pyval) :
  children !! i = Some child -> is_contract child = true ->
  exists k, contracts_in (take (S i) children) = S k.
Proof.
  revert i. induction children as [| c rest IH]; intros i; [done |].
  destruct i as [| i].
  - intros [= ->] Hc. cbn. rewrite Hc. by exists 0%nat.
  - intros Hi Hc. destruct (IH _ Hi Hc) as (k & Hk).
    change (take (S (S i)) (c :: rest)) with (c :: take (S i) rest).
    cbn [contracts_in]. rewrite Hk. destruct (is_contract c); [by exists (S k) | by exists k].
Qed.

Lemma compared_in_suffix (subNode m : pyval) (suffix : list string) :
  compared_in subNode m suffix -> path_suffix_ok suffix.
Proof.
  intros (ty & _ & Hc). unfold path_suffix_ok.
  destruct (in_strs ty _); [left; tauto |].
  destruct (in_strs ty _).
  { destruct Hc as (? & ? & _ & _ & _ & ->). right. by left. }
  destruct (in_strs ty _); [| done].
  destruct Hc as (? & _ & _ & _ & ->). right. by right.
Qed.

(** X4: [utils.get_node_and_node_path], whenever it returns: the node is the
    stripped form of a node of the tree that starts at [line] and is one of
    those the locator compares (a subNode of a contract definition among
    [tree['children']], a member of such a struct or enum, or a statement
    of the body of such a function or modifier); it carries no ['loc'] key
    at any depth; the path begins [children.[*]], continues with
    [subNodes.[*]] once for every contract definition up to the one of the
    node, and ends with the suffix of the node kind. *)
Theorem locator_result_sound (tree line n : pyval) (p : list string) :
  get_node_and_node_path tree line = Ok (n, p) ->
  loc_free n = true /\
  path_shape p /\
  located_in tree line (n, p).
Proof.
  unfold get_node_and_node_path.
  destruct (getitem tree "children") as [children | e] eqn:Hc; [| done].
  cbn [mbind result_mbind result_bind].
  destruct (py_iter children) as [cs | e] eqn:Hcs; [| done].
  cbn [mbind result_mbind result_bind]. intros Hscan.
  destruct (scan_children_sound _ _ _ _ Hscan)
    as (i & child & sub & sns & Hi & Hic & Hsub & Hsns & Hl).
  pose proof Hl as (sn & m & suffix & Hsn & Hcmp & Hs & [= -> ->]).
  split; [apply loc_free_remove_loc_info |]. split.
  - destruct (contracts_in_upto _ _ _ Hi Hic) as (k & ->).
    exists k, suffix. split; [reflexivity |].
    by eapply compared_in_suffix.
  - by exists children, cs, i, child, sub, sns.
Qed.

Lemma locator_result_sound_witness :
  loc_free (remove_loc_info (sample_stmt "b" 5 6)) = true /\
  path_shape ["children"; "[*]"; "subNodes"; "[*]"; "body"; "statements"; "[*]"] /\
  located_in sample_tree (PInt 5)
    (remove_loc_info (sample_stmt "b" 5 6),
     ["children"; "[*]"; "subNodes"; "[*]"; "body"; "statements"; "[*]"]).
Proof. apply (locator_result_sound sample_tree (PInt 5)). reflexivity. Defined.

(** ** [Vulnerability.__eq__] as a relation *)

Lemma forallb_existsb_trans {A} (f g h : A -> A -> bool) (l m n : list A) :
  (forall x y z, x ∈ l -> f x y = true -> g y z = true -> h x z = true) ->
  forallb (fun x => existsb (f x) m) l = true ->
  forallb (fun y => existsb (g y) n) m = true ->
  forallb (fun x => existsb (h x) n) l = true.
Proof.
  intros Hfgh Hlm Hmn. apply List.forallb_forall. intros x Hx.
  eapply List.forallb_forall in Hlm; [| exact Hx].
  apply List.existsb_exists in Hlm as (y & Hy & Hxy).
  eapply List.forallb_forall in Hmn; [| exact Hy].
  apply List.existsb_exists in Hmn as (z & Hz & Hyz).
  apply List.existsb_exists. exists z. split; [done |].
  eapply Hfgh; [| done..]. by apply list_elem_of_In.
Qed.

Lemma deep_equal_trans (a : pyval) :
  forall b c, deep_equal a b = true -> deep_equal b c = true ->
              deep_equal a c = true.
Proof.
  induction a as [| x | x | s | l IH | d IH] using pyval_ind;
    intros [| y | y | t | m | e] [| z | z | u | n | f]; try done.
  - cbn. destruct x, y, z; done.
  - cbn. intros ->%Z.eqb_eq. done.
  - cbn. intros ->%String.eqb_eq. done.
  - cbn [deep_equal]. intros [H1 H2]%andb_prop [H3 H4]%andb_prop.
    rewrite List.Forall_forall in IH. apply andb_true_intro. split.
    + eapply (forallb_existsb_trans deep_equal deep_equal deep_equal); [| done..].
      intros x y z Hx. apply IH. by apply list_elem_of_In.
    + apply List.forallb_forall. intros z Hz.
      eapply List.forallb_forall in H4; [| exact Hz].
      apply List.existsb_exists in H4 as (y & Hy & Hyz).
      eapply List.forallb_forall in H2; [| exact Hy].
      apply List.existsb_exists in H2 as (x & Hx & Hxy).
      apply List.existsb_exists. exists x. split; [done |]. by eapply IH.
  - cbn [deep_equal]. intros [H1 H2]%andb_prop [H3 H4]%andb_prop.
    rewrite List.Forall_forall in IH. apply andb_true_intro. split.
    + eapply (forallb_existsb_trans
                (fun kx ky => String.eqb (fst kx) (fst ky) &&
                              deep_equal (snd kx) (snd ky))
                (fun kx ky => String.eqb (fst kx) (fst ky) &&
                              deep_equal (snd kx) (snd ky))); [| done..].
      intros kx ky kz Hx [Hk1 Hv1]%andb_prop [Hk2 Hv2]%andb_prop.
      apply String.eqb_eq in Hk1, Hk2. rewrite Hk1, Hk2, String.eqb_refl. cbn.
      eapply (IH kx); [by apply list_elem_of_In | done..].
    + apply List.forallb_forall. intros kz Hz.
      eapply List.forallb_forall in H4; [| exact Hz].
      apply List.existsb_exists in H4 as (ky & Hy & Hyz).
      eapply List.forallb_forall in H2; [| exact Hy].
      apply List.existsb_exists in H2 as (kx & Hx & Hxy).
      apply List.existsb_exists. exists kx. split; [done |].
      apply String.eqb_eq in Hyz, Hxy. rewrite Hxy, Hyz. apply String.eqb_refl.
Qed.

Lemma py_eq_number (a b : pyval) (x : Z) :
  as_number a = Some x ->
  py_eq a b = match as_number b with Some z => x =? z | None => false end.
Proof. destruct a as [| [] | | | |]; cbn; try done; by intros [= <-]. Qed.

Lemma py_eq_number_inv (a b : pyval) (x : Z) :
  as_number a = Some x -> py_eq a b = true -> as_number b = Some x.
Proof.
  intros Ha. rewrite (py_eq_number a b x Ha).
  destruct (as_number b) as [z |]; [| done]. by intros ->%Z.eqb_eq.
Qed.

Lemma py_eq_list_go (l m : list pyval) :
  (fix go (l m : list pyval) : bool :=
     match l, m with
     | [], [] => true
     | x :: l', y :: m' => py_eq x y && go l' m'
     | _, _ => false
     end) l m = true <-> Forall2 (fun x y => py_eq x y = true) l m.
Proof.
  revert m. induction l as [| x l IH]; intros [| y m]; split; try done;
    try by inversion 1.
  - intros [Hxy Hlm]%andb_prop. constructor; [done | by apply IH].
  - inversion 1; subst. apply andb_true_intro. split; [done | by apply IH].
Qed.

Lemma py_eq_trans (a : pyval) :
  forall b c, py_eq a b = true -> py_eq b c = true -> py_eq a c = true.
Proof.
  induction a as [| x | x | s | l IH | d IH] using pyval_ind; intros b c Hab Hbc.
  - destruct b; try done. 
  - pose proof (py_eq_number_inv (PBool x) b _ eq_refl Hab) as Hb.
    pose proof (py_eq_number_inv b c _ Hb Hbc) as Hc.
    rewrite (py_eq_number (PBool x) c _ eq_refl), Hc. apply Z.eqb_refl.
  - pose proof (py_eq_number_inv (PInt x) b _ eq_refl Hab) as Hb.
    pose proof (py_eq_number_inv b c _ Hb Hbc) as Hc.
    rewrite (py_eq_number (PInt x) c _ eq_refl), Hc. apply Z.eqb_refl.
  - destruct b as [| | | t | |]; try done. cbn in Hab.
    apply String.eqb_eq in Hab. by subst t.
  - destruct b as [| | | | m |]; try done. destruct c as [| | | | n |]; try done.
    cbn [py_eq] in *. apply py_eq_list_go in Hab, Hbc. apply py_eq_list_go.
    clear -IH Hab Hbc. revert n Hbc.
    induction Hab as [| x y l m Hxy Hlm IHlm]; intros n Hbc.
    + by inversion Hbc.
    + inversion Hbc as [| y' z m' n' Hyz Hmn]; subst.
      apply Forall_cons in IH as [IHx IHl].
      constructor; [by eapply IHx | by apply IHlm].
  - destruct b as [| | | | | e]; try done. destruct c as [| | | | | f]; try done.
    cbn [py_eq] in *. apply andb_prop in Hab as [Hl1 H1], Hbc as [Hl2 H2].
    apply Nat.eqb_eq in Hl1, Hl2. apply andb_true_intro. split.
    { apply Nat.eqb_eq. congruence. }
    rewrite List.Forall_forall in IH.
    eapply (forallb_existsb_trans
              (fun kx ky => String.eqb (fst kx) (fst ky) && py_eq (snd kx) (snd ky))
              (fun kx ky => String.eqb (fst kx) (fst ky) && py_eq (snd kx) (snd ky)));
      [| done..].
    intros kx ky kz Hx [Hk1 Hv1]%andb_prop [Hk2 Hv2]%andb_prop.
    apply String.eqb_eq in Hk1, Hk2. rewrite Hk1, Hk2, String.eqb_refl. cbn.
    eapply (IH kx); [by apply list_elem_of_In | done..].
Qed.

Lemma Vulnerability_eq_refl (v : Vulnerability) : Vulnerability__eq__ v v = true.
Proof.
  unfold Vulnerability__eq__.
  by rewrite String.eqb_refl, deep_equal_refl, !py_eq_refl.
Qed.

(** X5: [Vulnerability.__eq__] is transitive on all findings (and reflexive,
    [Vulnerability_eq_refl]). *)
Theorem Vulnerability_eq_trans (v1 v2 v3 : Vulnerability) :
  Vulnerability__eq__ v1 v2 = true -> Vulnerability__eq__ v2 v3 = true ->
  Vulnerability__eq__ v1 v3 = true.
Proof.
  unfold Vulnerability__eq__. intros H12 H23.
  repeat (apply andb_prop in H12 as [H12 ?]).
  repeat (apply andb_prop in H23 as [H23 ?]).
  apply String.eqb_eq in H12, H23. rewrite H12, H23, String.eqb_refl.
  rewrite (deep_equal_trans _ (ast_node v2)) by done.
  rewrite (py_eq_trans _ (contract_name v2)) by done.
  rewrite (py_eq_trans _ (function_name v2)) by done.
  by rewrite (py_eq_trans _ (vuln_name v2)).
Qed.

Lemma Vulnerability_eq_trans_witness :
  Vulnerability__eq__ (call_finding ["a"; "b"]) (call_finding ["b"; "a"; "b"]) = true.
Proof.
  apply (Vulnerability_eq_trans _ (call_finding ["b"; "a"])); vm_compute; reflexivity.
Defined.

Lemma deep_equal_sym_imp (a : pyval) :
  forall b, wf_pyval a = true -> wf_pyval b = true ->
            deep_equal a b = true -> deep_equal b a = true.
Proof.
  induction a as [| x | x | s | l IH | d IH] using pyval_ind;
    intros [| y | y | t | m | e]; try done.
  - cbn. by destruct x, y.
  - cbn. intros _ _. by rewrite Z.eqb_sym.
  - cbn. intros _ _. by rewrite String.eqb_sym.
  - intros Hl Hm. cbn [deep_equal]. intros [H1 H2]%andb_prop.
    apply wf_list in Hl, Hm. rewrite List.Forall_forall in IH, Hl, Hm.
    apply andb_true_intro. split.
    + apply List.forallb_forall. intros y Hy.
      eapply List.forallb_forall in H2; [| exact Hy].
      apply List.existsb_exists in H2 as (x & Hx & Hxy).
      apply List.existsb_exists. exists x. split; [done |]. by apply IH; auto.
    + apply List.forallb_forall. intros x Hx.
      eapply List.forallb_forall in H1; [| exact Hx].
      apply List.existsb_exists in H1 as (y & Hy & Hxy).
      apply List.existsb_exists. exists y. split; [done |]. by apply IH; auto.
  - intros Hd He. cbn [deep_equal]. intros [H1 H2]%andb_prop.
    apply wf_dict in Hd as [Hnd Hd], He as [Hne He].
    rewrite List.Forall_forall in IH, Hd, He.
    apply andb_true_intro. split.
    + apply List.forallb_forall. intros [k y] Hy.
      pose proof Hy as Hy'.
      eapply List.forallb_forall in H2; [| exact Hy].
      apply List.existsb_exists in H2 as ([k' x] & Hx & Hk). cbn in Hk.
      apply String.eqb_eq in Hk. subst k'.
      pose proof Hx as Hx'.
      eapply List.forallb_forall in H1; [| exact Hx].
      apply List.existsb_exists in H1 as ([k' y'] & Hy2 & [Hk Hxy]%andb_prop).
      cbn in Hk, Hxy. apply String.eqb_eq in Hk. subst k'.
      assert (y' = y) as ->.
      { eapply (nodup_keys_unique e k); [done | by apply list_elem_of_In..]. }
      apply List.existsb_exists. exists (k, x). split; [done |]. cbn.
      rewrite String.eqb_refl. cbn.
      apply (IH (k, x) Hx'); [apply (Hd _ Hx') | apply (He _ Hy') | done].
    + apply List.forallb_forall. intros kx Hx.
      eapply List.forallb_forall in H1; [| exact Hx].
      apply List.existsb_exists in H1 as (ky & Hy & [Hk _]%andb_prop).
      apply List.existsb_exists. exists ky. split; [done |].
      by rewrite String.eqb_sym.
Qed.

(** X6: [Vulnerability.__eq__] is symmetric on findings that can be hashed and
    whose subtrees have pairwise distinct keys in every dictionary. *)
Theorem Vulnerability_eq_sym `{PyHash} (v1 v2 : Vulnerability) (h1 h2 : Z) :
  hash_Vulnerability v1 = Ok h1 ->
  hash_Vulnerability v2 = Ok h2 ->
  wf_pyval (ast_node v1) = true ->
  wf_pyval (ast_node v2) = true ->
  Vulnerability__eq__ v1 v2 = Vulnerability__eq__ v2 v1.
Proof.
  intros Hh1 Hh2 Hw1 Hw2.
  destruct (hash_names v1 h1 Hh1) as (c1 & f1 & n1 & Hc1 & Hf1 & Hn1).
  unfold Vulnerability__eq__.
  rewrite (String.eqb_sym (ast_node_path v1)).
  rewrite (py_eq_sym_hashable (contract_name v1) _ _ Hc1).
  rewrite (py_eq_sym_hashable (function_name v1) _ _ Hf1).
  rewrite (py_eq_sym_hashable (vuln_name v1) _ _ Hn1).
  assert (deep_equal (ast_node v1) (ast_node v2)
          = deep_equal (ast_node v2) (ast_node v1)) as ->; [| done].
  destruct (deep_equal (ast_node v1) (ast_node v2)) eqn:H12.
  - symmetry. by apply deep_equal_sym_imp.
  - destruct (deep_equal (ast_node v2) (ast_node v1)) eqn:H21; [| done].
    apply deep_equal_sym_imp in H21; [congruence | done..].
Qed.

Lemma Vulnerability_eq_sym_witness :
  Vulnerability__eq__ (call_finding ["a"; "b"]) (call_finding ["b"; "a"]) =
  Vulnerability__eq__ (call_finding ["b"; "a"]) (call_finding ["a"; "b"]).
Proof.
  apply (@Vulnerability_eq_sym cpython312_seed0 _ _
           370104874132648682 8451785718981355808); vm_compute; reflexivity.
Defined.

(** ** More on [contracts.trim_bytecode] *)

Lemma append_cons (c : ascii) (s t : string) :
  String c s +:+ t = String c (s +:+ t).
Proof. reflexivity. Qed.

Lemma append_nil_l (t : string) : EmptyString +:+ t = t.
Proof. reflexivity. Qed.

Lemma append_nil_r (s : string) : s +:+ EmptyString = s.
Proof. induction s as [| c s IH]; [done |]. by rewrite append_cons, IH. Qed.

Lemma append_assoc (s t u : string) : (s +:+ t) +:+ u = s +:+ t +:+ u.
Proof. induction s as [| c s IH]; [done |]. by rewrite !append_cons, IH. Qed.

Lemma append_length (s t : string) :
  String.length (s +:+ t) = (String.length s + String.length t)%nat.
Proof. induction s as [| c s IH]; [done |]. rewrite append_cons. cbn. by rewrite IH. Qed.

(** A substring is a contiguous piece of the string. *)
Lemma substring_factor (s : string) :
  forall n m, exists pre post,
    s = pre +:+ String.substring n m s +:+ post /\
    String.length pre = Nat.min n (String.length s).
Proof.
  induction s as [| c s IH]; intros n m.
  - exists EmptyString, EmptyString. by destruct n, m.
  - destruct n as [| n].
    + destruct m as [| m].
      * exists EmptyString, (String c s). done.
      * destruct (IH 0%nat m) as (pre & post & Hs & Hlen).
        destruct pre; [| done]. rewrite append_nil_l in Hs.
        exists EmptyString, post. split; [| done].
        cbn [String.substring]. rewrite append_nil_l, append_cons. by f_equal.
    + destruct (IH n m) as (pre & post & Hs & Hlen).
      exists (String c pre), post. cbn [String.substring String.length].
      rewrite append_cons. split; [by f_equal | cbn; lia].
Qed.

Lemma py_slice_factor (s : string) (i j : option Z) :
  exists pre post, s = pre +:+ py_slice s i j +:+ post.
Proof.
  unfold py_slice. destruct (_ <? _).
  - destruct (substring_factor s
                (Z.to_nat match i with Some i => slice_bound (strlen s) i | None => 0 end)
                (Z.to_nat (match j with Some j => slice_bound (strlen s) j
                                   | None => strlen s end -
                           match i with Some i => slice_bound (strlen s) i | None => 0 end)))
      as (pre & post & Hs & _).
    by exists pre, post.
  - by exists EmptyString, s.
Qed.

(** X7: trimming only cuts at the two ends: the result is a contiguous piece of
    the bytecode, whatever the version. *)
Theorem trim_bytecode_is_a_piece (bytecode : string) (v : Version) :
  exists header trailer,
    bytecode = header +:+ trim_bytecode bytecode v +:+ trailer.
Proof.
  unfold trim_bytecode.
  destruct (version_ge v (mkVersion 0 6 0)); [apply py_slice_factor |].
  destruct (version_ge v (mkVersion 0 4 22)); [apply py_slice_factor |].
  destruct (version_ge v (mkVersion 0 4 7)); [apply py_slice_factor |].
  exists EmptyString, EmptyString. by rewrite append_nil_l, append_nil_r.
Qed.

(** Where [rfind] finds [sub], the string splits there and what follows
    starts with [sub]. *)
Lemma rfind_split (s sub : string) :
  0 <= rfind s sub ->
  exists pre post,
    s = pre +:+ post /\ strlen pre = rfind s sub /\ String.prefix sub post = true.
Proof.
  unfold strlen. induction s as [| c s IH]; cbn [rfind].
  - destruct (String.prefix sub EmptyString) eqn:Hp; [| lia].
    intros _. by exists EmptyString, EmptyString.
  - destruct (0 <=? rfind s sub) eqn:Hle.
    + apply Z.leb_le in Hle. intros _.
      destruct (IH Hle) as (pre & post & -> & Hlen & Hp).
      exists (String c pre), post. rewrite append_cons. cbn [String.length].
      split; [done |]. split; [lia | done].
    + destruct (String.prefix sub (String c s)) eqn:Hp; [| lia].
      intros _. by exists EmptyString, (String c s).
Qed.

Lemma string_split_at (s : string) :
  forall n : nat, (n <= String.length s)%nat ->
    exists x y, s = x +:+ y /\ String.length x = n.
Proof.
  induction s as [| c s IH]; intros [| n] Hn; cbn in Hn.
  - by exists EmptyString, EmptyString.
  - lia.
  - by exists EmptyString, (String c s).
  - destruct (IH n) as (x & y & -> & Hx); [lia |].
    exists (String c x), y. rewrite append_cons. cbn. by rewrite Hx.
Qed.

Lemma substring_middle (x y z : string) :
  String.substring (String.length x) (String.length y) (x +:+ y +:+ z) = y.
Proof.
  induction x as [| c x IH].
  - rewrite append_nil_l. cbn [String.length].
    revert z. induction y as [| d y IHy]; intros z.
    + by destruct z.
    + rewrite append_cons. cbn [String.length String.substring]. by rewrite IHy.
  - rewrite append_cons. cbn [String.length String.substring]. exact IH.
Qed.

Lemma trim_from_0_4_22 (b : string) (v : Version) :
  version_ge v (mkVersion 0 4 22) = true ->
  trim_bytecode b v =
    py_slice b (Some (rfind b "6080604052")) (Some (rfind b (trailer_marker v))).
Proof.
  intros H22. unfold trim_bytecode, trailer_marker. rewrite H22.
  by destruct (version_ge v (mkVersion 0 6 0)).
Qed.

(** X8: from 0.4.22 on, with the prologue marker present and its last
    occurrence not behind the last occurrence of the trailer marker, the
    result is exactly what lies between the two: it begins at the last
    prologue marker and what is cut off behind it begins with the trailer
    marker. *)
Theorem trim_keeps_what_lies_between_markers (bytecode : string) (v : Version) :
  version_ge v (mkVersion 0 4 22) = true ->
  0 <= rfind bytecode "6080604052" ->
  rfind bytecode "6080604052" <= rfind bytecode (trailer_marker v) ->
  exists header trailer,
    bytecode = header +:+ trim_bytecode bytecode v +:+ trailer /\
    strlen header = rfind bytecode "6080604052" /\
    String.prefix (trailer_marker v) trailer = true.
Proof.
  intros H22 Hs Hse. rewrite (trim_from_0_4_22 _ _ H22).
  set (T := trailer_marker v) in *. set (P := "6080604052") in *.
  destruct (rfind_split bytecode T) as (front & trailer & Hb & Hfront & Hp); [lia |].
  unfold strlen in Hfront.
  destruct (string_split_at front (Z.to_nat (rfind bytecode P)))
    as (header & mid & Hf & Hheader); [lia |].
  exists header, trailer. subst front.
  assert (Hmid : (String.length header + String.length mid)%nat
                 = Z.to_nat (rfind bytecode T)).
  { rewrite append_length in Hfront. lia. }
  assert (Hlen : strlen bytecode
                 = Z.of_nat (String.length header + String.length mid
                             + String.length trailer)).
  { unfold strlen. rewrite Hb, !append_length. lia. }
  split; [| split; [unfold strlen; lia | done]].
  assert (Hslice : py_slice bytecode (Some (rfind bytecode P))
                     (Some (rfind bytecode T)) = mid); [| by rewrite Hslice, <- append_assoc].
  unfold py_slice, slice_bound. rewrite Hlen.
  destruct (rfind bytecode P <? 0) eqn:H1; [apply Z.ltb_lt in H1; lia |].
  destruct (rfind bytecode T <? 0) eqn:H2; [apply Z.ltb_lt in H2; lia |].
  rewrite !Z.min_l by lia.
  destruct (rfind bytecode P <? rfind bytecode T) eqn:H3.
  - replace (Z.to_nat (rfind bytecode P)) with (String.length header) by lia.
    replace (Z.to_nat (rfind bytecode T - rfind bytecode P))
      with (String.length mid) by lia.
    rewrite Hb, append_assoc. apply substring_middle.
  - apply Z.ltb_ge in H3. destruct mid; [done | cbn in Hmid; lia].
Qed.

Lemma trim_keeps_what_lies_between_markers_witness :
  exists header trailer,
    "fe60806040521111a264697066735822ab" =
      header +:+ trim_bytecode "fe60806040521111a264697066735822ab" (mkVersion 0 6 2)
             +:+ trailer /\
    strlen header = rfind "fe60806040521111a264697066735822ab" "6080604052" /\
    String.prefix (trailer_marker (mkVersion 0 6 2)) trailer = true.
Proof.
  apply trim_keeps_what_lies_between_markers; vm_compute; [reflexivity | discriminate..].
Defined.

(** X9: in the oldest band, with the prologue marker present, the result is the
    rest of the bytecode from the last marker on: it starts with the marker
    and holds no later one. *)
Theorem trim_oldest_band_keeps_tail (bytecode : string) (v : Version) :
  in_band_0_4_7 v ->
  0 <= rfind bytecode "6060604052" ->
  exists header,
    bytecode = header +:+ trim_bytecode bytecode v /\
    strlen header = rfind bytecode "6060604052" /\
    String.prefix "6060604052" (trim_bytecode bytecode v) = true /\
    rfind (trim_bytecode bytecode v) "6060604052" = 0.
Proof.
  intros Hband Hs. rewrite (trim_band_0_4_7 _ _ Hband).
  set (P := "6060604052") in *.
  destruct (rfind_split bytecode P Hs) as (header & rest & Hb & Hlen & Hp).
  assert (Hslice : py_slice bytecode (Some (rfind bytecode P)) None = rest).
  { pose proof (substring_middle header rest EmptyString) as Hsub.
    rewrite append_nil_r, <- Hb in Hsub.
    assert (Hl : String.length bytecode
                 = (String.length header + String.length rest)%nat).
    { by rewrite Hb, append_length. }
    unfold strlen in Hlen. unfold py_slice, slice_bound, strlen.
    destruct (rfind bytecode P <? 0) eqn:H1; [apply Z.ltb_lt in H1; lia |].
    rewrite Z.min_l by lia.
    destruct (rfind bytecode P <? Z.of_nat (String.length bytecode)) eqn:H3.
    - replace (Z.to_nat (rfind bytecode P)) with (String.length header) by lia.
      replace (Z.to_nat (Z.of_nat (String.length bytecode) - rfind bytecode P))
        with (String.length rest) by lia.
      exact Hsub.
    - apply Z.ltb_ge in H3. destruct rest; [done | cbn in Hl; lia]. }
  exists header. fold P. by rewrite (rfind_of_tail _ _ Hs), Hslice.
Qed.

Lemma trim_oldest_band_keeps_tail_witness :
  exists header,
    "fe60606040521111" = header +:+ trim_bytecode "fe60606040521111" (mkVersion 0 4 11) /\
    strlen header = rfind "fe60606040521111" "6060604052" /\
    String.prefix "6060604052" (trim_bytecode "fe60606040521111" (mkVersion 0 4 11)) = true /\
    rfind (trim_bytecode "fe60606040521111" (mkVersion 0 4 11)) "6060604052" = 0.
Proof.
  apply trim_oldest_band_keeps_tail; [split; vm_compute; reflexivity |].
  vm_compute. discriminate.
Defined.

(** ** More on the deployment matcher *)

Section matcher_more.
Import DeploymentAddressDetails.
Variable etherscan : string -> result etherscan_page.
Variable solc : compile_call -> result string.

(** X10: [get_contract_details_from_etherscan] fetches the page of an address at
    most once: after a successful lookup the record is in the collection,
    no other record has changed, the compiler has not been invoked, and a
    further lookup returns the same record whatever Etherscan would answer
    then. *)
Theorem details_are_fetched_once (etherscan' : string -> result etherscan_page)
    (a : string) (w w' : world) (obj : t) :
  get_contract_details_from_etherscan etherscan a w = (Ok obj, w') ->
  db w' !! a = Some obj /\
  (forall b, b <> a -> db w' !! b = db w !! b) /\
  solc_calls w' = solc_calls w /\
  get_contract_details_from_etherscan etherscan' a w' = (Ok obj, w').
Proof.
  unfold get_contract_details_from_etherscan at 1.
  destruct (db w !! a) as [o |] eqn:Hdb.
  - intros [= -> <-]. unfold get_contract_details_from_etherscan. by rewrite Hdb.
  - destruct (etherscan a) as [page | e]; [| done]. intros [= <- <-]. cbn.
    split; [by rewrite lookup_insert_eq |].
    split; [by intros b Hb; rewrite lookup_insert_ne |]. split; [done |].
    unfold get_contract_details_from_etherscan. cbn. by rewrite lookup_insert_eq.
Qed.

Lemma get_details_keeps (a : string) (w w1 : world) (r : result t) :
  get_contract_details_from_etherscan etherscan a w = (r, w1) ->
  db w ⊆ db w1 /\ solc_calls w1 = solc_calls w.
Proof.
  unfold get_contract_details_from_etherscan.
  destruct (db w !! a) as [o |] eqn:Hdb; [by intros [= <- <-] |].
  destruct (etherscan a) as [page | e]; intros [= <- <-]; [| done]. cbn.
  split; [| done]. by apply insert_subseteq.
Qed.

Lemma complie_keeps (source cn : string) (v : Version) (remaps args : string)
    (w w2 : world) (r : result (option string)) :
  complie_solc solc source cn v remaps args w = (r, w2) ->
  db w2 = db w /\ solc_calls w2 = solc_calls w ++ [mkCall source remaps v args cn].
Proof.
  unfold complie_solc. by destruct (solc _) as [b | []]; intros [= <- <-].
Qed.

Lemma verify_keeps (cn file remaps : string) (addrs : list string) :
  forall w r w',
    verify_contract_deployment_address etherscan solc cn file addrs remaps w
      = (r, w') ->
    db w ⊆ db w' /\
    solc_calls w `prefix_of` solc_calls w' /\
    (length (solc_calls w') <= length (solc_calls w) + length addrs)%nat.
Proof.
  induction addrs as [| a rest IH]; intros w r w'.
  - cbn. intros [= <- <-]. split; [done |]. split; [done | lia].
  - cbn [verify_contract_deployment_address]. unfold M_bind at 1.
    destruct (get_contract_details_from_etherscan etherscan a w)
      as [[obj | e] w1] eqn:Hget;
      apply get_details_keeps in Hget as [Hdb Hcalls].
    2:{ intros [= <- <-]. rewrite Hcalls. split; [done |]. split; [done | lia]. }
    unfold M_bind at 1.
    destruct (complie_solc solc _ _ _ _ _ w1) as [[bytecode | e] w2] eqn:Hc;
      apply complie_keeps in Hc as [Hdb2 Hcalls2].
    2:{ intros [= <- <-]. rewrite Hdb2, Hcalls2, Hcalls, length_app. cbn.
        split; [done |]. split; [by apply prefix_app_r | lia]. }
    destruct (bytecode_eq bytecode (blockchain_bytecode obj)).
    + intros [= <- <-]. rewrite Hdb2, Hcalls2, Hcalls, length_app. cbn.
      split; [done |]. split; [by apply prefix_app_r | lia].
    + intros Hrest. destruct (IH _ _ _ Hrest) as (H1 & H2 & H3).
      rewrite Hdb2 in H1. rewrite Hcalls2, Hcalls in H2, H3.
      rewrite length_app in H3. cbn in H3.
      split; [by etrans |]. split; [| cbn; lia].
      etrans; [| exact H2]. by apply prefix_app_r.
Qed.

(** X11: whatever the outcome, the matcher never drops or changes a cached
    record, only appends to the compiler invocations, and makes at most one
    of them per candidate. *)
Theorem matcher_keeps_cache (contract_name contract_file remappings : string)
    (deployment_addresses : list string) (w : world) :
  let w' := snd (verify_contract_deployment_address etherscan solc contract_name
                   contract_file deployment_addresses remappings w) in
  db w ⊆ db w' /\
  solc_calls w `prefix_of` solc_calls w' /\
  (length (solc_calls w') <= length (solc_calls w) + length deployment_addresses)%nat.
Proof.
  cbn zeta.
  destruct (verify_contract_deployment_address _ _ _ _ _ _ w) as [r w'] eqn:Hv.
  by eapply verify_keeps.
Qed.

(** X12: a candidate that cannot be checked ends the search: after candidates
    that mismatch, it makes the matcher raise, and the candidates behind it
    are not looked at. *)
Theorem matcher_propagates_failures (cn file remaps : string)
    (pre post : list string) (a : string) (e : exn) :
  forall w,
    Forall (candidate_mismatches etherscan solc w file remaps) pre ->
    candidate_fails etherscan solc w file remaps a e ->
    exists w',
      verify_contract_deployment_address etherscan solc cn file
        (pre ++ a :: post) remaps w = (Raise e, w').
Proof.
  induction pre as [| x pre IH]; intros w Hall Hfail.
  - cbn [app verify_contract_deployment_address]. unfold M_bind at 1.
    destruct Hfail as [Hd | (obj & Hd & Hc)].
    + unfold details in Hd. unfold get_contract_details_from_etherscan.
      destruct (db w !! a); [done |].
      destruct (etherscan a) as [page | e']; [done |]. cbn in Hd.
      injection Hd as ->. by eexists.
    + destruct (get_details_spec etherscan w a obj Hd) as (w1 & -> & _ & _).
      unfold M_bind at 1. unfold compiled, call_for in Hc.
      unfold complie_solc. destruct (solc _) as [b | e']; [done |].
      destruct e'; try done; injection Hc as <-; by eexists.
  - apply Forall_cons in Hall as [Hx Hpre].
    destruct (verify_skips_mismatch etherscan solc w cn file remaps x
                (pre ++ a :: post) Hx) as (w2 & o & _ & Hstep & _ & Hext).
    rewrite <- app_comm_cons, Hstep. apply IH.
    + eapply Forall_impl; [exact Hpre |]. intros y (o' & b & ? & ? & ?).
      exists o', b. by rewrite Hext.
    + destruct Hfail as [Hd | (obj & Hd & Hc)]; [left | right].
      * by rewrite Hext.
      * exists obj. by rewrite Hext.
Qed.
End matcher_more.

Lemma details_are_fetched_once_witness :
  let obj := record_of_page "0xA1"
               (mkPage "Token" (mkVersion 0 6 0) false 0
                  "60806040521111a264697066735822ab") in
  let w' := mkWorld {["0xA1" := obj]} [] in
  db w' !! "0xA1" = Some obj /\
  (forall b, b <> "0xA1" -> db w' !! b = db empty_world !! b) /\
  solc_calls w' = solc_calls empty_world /\
  get_contract_details_from_etherscan (fun _ => Raise DoesNotExist) "0xA1" w'
    = (Ok obj, w').
Proof.
  intros obj w'.
  apply (details_are_fetched_once scenario_etherscan (fun _ => Raise DoesNotExist)
           "0xA1" empty_world).
  reflexivity.
Defined.


Lemma matcher_propagates_failures_witness :
  exists w',
    verify_contract_deployment_address scenario_etherscan scenario_solc
      "Token" "Token.sol" (["0xA1"] ++ "0xC3" :: ["0xB2"]) EmptyString empty_world
      = (Raise DoesNotExist, w').
Proof.
  apply matcher_propagates_failures.
  - constructor; [| constructor].
    exists (record_of_page "0xA1"
              (mkPage "Token" (mkVersion 0 6 0) false 0
                 "60806040521111a264697066735822ab")),
           (Some "60806040522222").
    split; [vm_compute; reflexivity |].
    split; [vm_compute; reflexivity | vm_compute; discriminate].
  - left. vm_compute. reflexivity.
Defined.

(** ** [contracts.get_contract_deploymentaddr_map] *)

Lemma deploymentaddr_rows_spec (rows : list (list string)) :
  forall m,
    Forall (fun row => length row = 3%nat) rows ->
    (forall name, m !! name <> Some []) ->
    exists m',
      deploymentaddr_rows m rows = Ok m' /\
      (forall name, m' !! name <> Some []) /\
      forall name,
        default [] (m' !! name) = default [] (m !! name) ++ addresses_of name rows.
Proof.
  induction rows as [| row rows IH]; intros m Hrows Hm.
  - exists m. split; [done |]. split; [done |]. intros name. cbn.
    by rewrite app_nil_r.
  - apply Forall_cons in Hrows as [Hrow Hrows].
    destruct row as [| x [| a [| n [| y row]]]]; try done.
    cbn [deploymentaddr_rows].
    destruct (IH (<[n := default [] (m !! n) ++ [a]]> m) Hrows) as (m' & -> & Hm' & Hget).
    { intros name. destruct (decide (n = name)) as [<- | Hne].
      - rewrite lookup_insert_eq. intros [= Heq]. by destruct (default [] (m !! n)).
      - by rewrite lookup_insert_ne. }
    exists m'. split; [done |]. split; [done |]. intros name.
    rewrite Hget. cbn [addresses_of flat_map].
    destruct (String.eqb_spec n name) as [<- | Hne].
    + rewrite lookup_insert_eq. cbn [default from_option id].
      by rewrite <- app_assoc.
    + by rewrite lookup_insert_ne.
Qed.

(** X13: when every row behind the header has three fields, the map holds, for
    each contract name, the addresses of the rows with that name in the
    order of the file, and no entry for a name without rows. *)
Theorem deploymentaddr_map_groups_by_name (rows : list (list string)) :
  Forall (fun row => length row = 3%nat) (drop 1 rows) ->
  exists m,
    get_contract_deploymentaddr_map rows = Ok m /\
    forall name,
      m !! name = match addresses_of name (drop 1 rows) with
                  | [] => None
                  | l => Some l
                  end.
Proof.
  intros Hrows. unfold get_contract_deploymentaddr_map.
  destruct (deploymentaddr_rows_spec (drop 1 rows) ∅ Hrows) as (m & -> & Hm & Hget).
  { intros name. by rewrite lookup_empty. }
  exists m. split; [done |]. intros name. specialize (Hget name).
  rewrite lookup_empty in Hget. cbn in Hget. specialize (Hm name).
  destruct (m !! name) as [l |]; cbn in Hget; subst.
  - destruct (addresses_of name (drop 1 rows)); [done | done].
  - by rewrite <- Hget.
Qed.

Lemma deploymentaddr_map_groups_by_name_witness :
  exists m,
    get_contract_deploymentaddr_map
      [["Txhash"; "ContractAddress"; "ContractName"];
       ["0x01"; "0xA1"; "Token"]; ["0x02"; "0xC3"; "Wallet"];
       ["0x03"; "0xB2"; "Token"]] = Ok m /\
    forall name,
      m !! name =
        match addresses_of name
                (drop 1 [["Txhash"; "ContractAddress"; "ContractName"];
                         ["0x01"; "0xA1"; "Token"]; ["0x02"; "0xC3"; "Wallet"];
                         ["0x03"; "0xB2"; "Token"]]) with
        | [] => None
        | l => Some l
        end.
Proof.
  apply deploymentaddr_map_groups_by_name. cbn. repeat constructor.
Defined.

(** X14: a row behind the header that does not have exactly three fields makes
    the function raise [ValueError], whatever follows it. *)
Theorem deploymentaddr_map_rejects_short_rows (header row : list string)
    (before after : list (list string)) :
  Forall (fun row => length row = 3%nat) before ->
  length row <> 3%nat ->
  get_contract_deploymentaddr_map (header :: before ++ row :: after)
    = Raise ValueError.
Proof.
  intros Hbefore Hrow. unfold get_contract_deploymentaddr_map. cbn [drop].
  generalize (∅ : gmap string (list string)).
  induction Hbefore as [| r before Hr _ IH]; intros m.
  - cbn. by destruct row as [| x [| a [| n [| y row]]]].
  - destruct r as [| x [| a [| n [| y r]]]]; try done. cbn. apply IH.
Qed.

Lemma deploymentaddr_map_rejects_short_rows_witness :
  get_contract_deploymentaddr_map
    (["Txhash"; "ContractAddress"; "ContractName"]
       :: [["0x01"; "0xA1"; "Token"]] ++ ["0x02"; "0xC3"] :: [])
    = Raise ValueError.
Proof.
  apply deploymentaddr_map_rejects_short_rows; [repeat constructor | cbn; lia].
Defined.

(** ** [sol_parser] *)

Lemma range_text_converts (sv ev : pyval) (s e : Z) (text : string) :
  as_number sv = Some s -> as_number ev = Some e ->
  range_text sv ev = Ok text ->
  (e < s /\ text = EmptyString) \/
  (s <= e /\ line_num_converter text = Ok (seqZ s (e + 1 - s))).
Proof.
  unfold range_text. intros -> ->. intros [= <-].
  destruct (Z.lt_ge_cases e s) as [Hlt | Hle]; [left | right].
  - split; [done |]. by rewrite seqZ_nil by lia.
  - split; [done |]. unfold line_num_converter. rewrite split_on_join.
    + induction (seqZ s (e + 1 - s)) as [| z zs IH]; [done |]. cbn.
      by rewrite py_int_pretty, IH.
    + rewrite seqZ_cons by lia. done.
    + apply Forall_forall. intros p Hp.
      apply list_elem_of_fmap in Hp as (z & -> & _). apply no_colon_pretty.
Qed.

Lemma lines_in_subNodes_sound (t n : pyval) (subNodes : list pyval) (text : string) :
  lines_in_subNodes t n subNodes = Ok (Some text) ->
  exists subNode s e,
    subNode ∈ subNodes /\ named_range t n s e subNode /\
    ((e < s /\ text = EmptyString) \/
     (s <= e /\ line_num_converter text = Ok (seqZ s (e + 1 - s)))).
Proof.
  induction subNodes as [| subNode rest IH]; [done |]. cbn [lines_in_subNodes].
  destruct (py_eq (get_attr subNode "type") t) eqn:Ht; cbn [andb].
  2:{ intros Hrest. destruct (IH Hrest) as (sn & s & e & Hin & Hr).
      exists sn, s, e. split; [by right | done]. }
  destruct (py_eq (get_attr subNode "name") n) eqn:Hn.
  2:{ intros Hrest. destruct (IH Hrest) as (sn & s & e & Hin & Hr).
      exists sn, s, e. split; [by right | done]. }
  destruct (start_line subNode) as [sv | err] eqn:Hsv; [| done].
  cbn [mbind result_mbind result_bind].
  destruct (end_line subNode) as [ev | err] eqn:Hev; [| done].
  cbn [mbind result_mbind result_bind].
  destruct (range_text sv ev) as [lines | err] eqn:Hrange; [| done].
  cbn. intros [= <-].
  assert (exists s e, as_number sv = Some s /\ as_number ev = Some e)
    as (s & e & Hs & He).
  { unfold range_text in Hrange.
    destruct (as_number sv) as [s |]; [| done].
    destruct (as_number ev) as [e |]; [| done]. by exists s, e. }
  exists subNode, s, e. split; [by left |]. split.
  - split; [done |]. split; [done |]. by exists sv, ev.
  - by eapply range_text_converts.
Qed.

Lemma lines_of_children_sound (t n : pyval) (children : list pyval) (text : string) :
  lines_of_children t n children = Ok text ->
  text = EmptyString \/
  exists child sns subNode s e,
    child ∈ children /\
    py_iter (get_attr child "subNodes") = Ok sns /\ subNode ∈ sns /\
    named_range t n s e subNode /\ s <= e /\
    line_num_converter text = Ok (seqZ s (e + 1 - s)).
Proof.
  induction children as [| child rest IH]; [intros [= <-]; by left |].
  cbn [lines_of_children].
  assert (Hnext : lines_of_children t n rest = Ok text ->
                  text = EmptyString \/
                  exists c sns subNode s e,
                    c ∈ child :: rest /\
                    py_iter (get_attr c "subNodes") = Ok sns /\ subNode ∈ sns /\
                    named_range t n s e subNode /\ s <= e /\
                    line_num_converter text = Ok (seqZ s (e + 1 - s))).
  { intros Hrest. destruct (IH Hrest) as [-> | (c & sns & sn & s & e & Hin & Hr)];
      [by left | right].
    exists c, sns, sn, s, e. split; [by right | done]. }
  destruct (dict_get child "subNodes") as [sub | err]; [| done].
  cbn [mbind result_mbind result_bind].
  destruct (negb (truthy sub)); [exact Hnext |].
  destruct (py_iter _) as [sns | err] eqn:Hsns; [| done].
  cbn [mbind result_mbind result_bind].
  destruct (lines_in_subNodes t n sns) as [[lines |] | err] eqn:Hl;
    [| exact Hnext | done].
  cbn. intros [= <-].
  destruct (lines_in_subNodes_sound _ _ _ _ Hl)
    as (sn & s & e & Hsn & Hr & [[_ ->] | [Hse Hc]]);
    [by left | right].
  exists child, sns, sn, s, e. split; [by left | done].
Qed.

(** X15: [get_lines_from_node], whenever it returns a non-empty text: the text is
    the colon-separated list of the consecutive lines [s..e] of a subNode
    with the given type and name, which is one of the subNodes of one of
    [data.children], and the converter of [Vulnerability.line_num] reads
    exactly these lines back from it. *)
Theorem get_lines_from_node_gives_range (data t n : pyval) (text : string) :
  get_lines_from_node data t n = Ok text ->
  text <> EmptyString ->
  exists child subNode s e,
    subNode_of_data data child subNode /\
    named_range t n s e subNode /\ s <= e /\
    line_num_converter text = Ok (seqZ s (e + 1 - s)).
Proof.
  unfold get_lines_from_node. destruct (negb (truthy _)); [by intros [= <-] |].
  destruct (py_iter _) as [cs | err] eqn:Hcs; [| done].
  cbn [mbind result_mbind result_bind]. intros Hl Hne.
  destruct (lines_of_children_sound _ _ _ _ Hl)
    as [? | (c & sns & sn & s & e & Hin & Hsns & Hsn & Hr)]; [done |].
  exists c, sn, s, e. split; [by exists cs, sns | done].
Qed.

Lemma get_lines_from_node_gives_range_witness :
  exists child subNode s e,
    subNode_of_data sample_tree child subNode /\
    named_range (PStr "FunctionDefinition") (PStr "f") s e subNode /\ s <= e /\
    line_num_converter "3:4:5:6:7" = Ok (seqZ s (e + 1 - s)).
Proof.
  apply (get_lines_from_node_gives_range sample_tree); [reflexivity | discriminate].
Defined.

Lemma node_in_subNodes_sound (z : Z) (subNodes : list pyval) (ty name : pyval) :
  node_in_subNodes z subNodes = Ok (Some (ty, name)) ->
  exists subNode sv ev,
    subNode ∈ subNodes /\
    start_line subNode = Ok sv /\ end_line subNode = Ok ev /\
    within z sv ev = Ok true /\
    getitem subNode "type" = Ok ty /\ getitem subNode "name" = Ok name.
Proof.
  induction subNodes as [| subNode rest IH]; [done |]. cbn [node_in_subNodes].
  destruct (start_line subNode) as [sv | err] eqn:Hsv; [| done].
  cbn [mbind result_mbind result_bind].
  destruct (end_line subNode) as [ev | err] eqn:Hev; [| done].
  cbn [mbind result_mbind result_bind].
  destruct (within z sv ev) as [[] | err] eqn:Hw; cbn [mbind result_mbind result_bind];
    [| | done].
  - destruct (getitem subNode "type") as [ty' | err] eqn:Hty; [| done].
    cbn [mbind result_mbind result_bind].
    destruct (getitem subNode "name") as [name' | err] eqn:Hname; [| done].
    cbn. intros [= <- <-]. exists subNode, sv, ev. split; [by left | done].
  - intros Hrest. destruct (IH Hrest) as (sn & sv' & ev' & Hin & Hr).
    exists sn, sv', ev'. split; [by right | done].
Qed.

Lemma node_for_lines_sound (child start stop : pyval) (lines : list string)
    (ty name : pyval) :
  node_for_lines child start stop lines = Ok (Some (ty, name)) ->
  exists line z sns subNode sv ev,
    line ∈ lines /\ int_of_str line = Ok z /\
    within z start stop = Ok true /\
    py_iter (get_attr child "subNodes") = Ok sns /\ subNode ∈ sns /\
    start_line subNode = Ok sv /\ end_line subNode = Ok ev /\
    within z sv ev = Ok true /\
    getitem subNode "type" = Ok ty /\ getitem subNode "name" = Ok name.
Proof.
  induction lines as [| line rest IH]; [done |]. cbn [node_for_lines].
  destruct (int_of_str line) as [z | err] eqn:Hz; [| done].
  cbn [mbind result_mbind result_bind].
  assert (Hnext : node_for_lines child start stop rest = Ok (Some (ty, name)) ->
                  exists l z sns subNode sv ev,
                    l ∈ line :: rest /\ int_of_str l = Ok z /\
                    within z start stop = Ok true /\
                    py_iter (get_attr child "subNodes") = Ok sns /\ subNode ∈ sns /\
                    start_line subNode = Ok sv /\ end_line subNode = Ok ev /\
                    within z sv ev = Ok true /\
                    getitem subNode "type" = Ok ty /\ getitem subNode "name" = Ok name).
  { intros Hrest. destruct (IH Hrest) as (l & z' & sns & sn & sv & ev & Hin & Hr).
    exists l, z', sns, sn, sv, ev. split; [by right | done]. }
  destruct (within z start stop) as [[] | err] eqn:Hin;
    cbn [mbind result_mbind result_bind]; [| exact Hnext | done].
  destruct (py_iter _) as [sns | err] eqn:Hsns; [| done].
  cbn [mbind result_mbind result_bind].
  destruct (node_in_subNodes z sns) as [[[ty' name'] |] | err] eqn:Hn;
    cbn [mbind result_mbind result_bind]; [| exact Hnext | done].
  intros [= <- <-].
  destruct (node_in_subNodes_sound _ _ _ _ Hn) as (sn & sv & ev & Hsn & Hr).
  exists line, z, sns, sn, sv, ev. split; [by left | done].
Qed.

Lemma node_of_children_sound (lines : list string) (children : list pyval)
    (ty name : pyval) :
  node_of_children lines children = Ok (ty, name) ->
  (ty = PStr EmptyString /\ name = PStr EmptyString) \/
  exists child start stop line z sns subNode sv ev,
    child ∈ children /\
    start_line child = Ok start /\ end_line child = Ok stop /\
    line ∈ lines /\ int_of_str line = Ok z /\
    within z start stop = Ok true /\
    py_iter (get_attr child "subNodes") = Ok sns /\ subNode ∈ sns /\
    start_line subNode = Ok sv /\ end_line subNode = Ok ev /\
    within z sv ev = Ok true /\
    getitem subNode "type" = Ok ty /\ getitem subNode "name" = Ok name.
Proof.
  induction children as [| child rest IH]; [intros [= <- <-]; by left |].
  cbn [node_of_children].
  destruct (start_line child) as [start | err] eqn:Hs; [| done].
  cbn [mbind result_mbind result_bind].
  destruct (end_line child) as [stop | err] eqn:He; [| done].
  cbn [mbind result_mbind result_bind].
  destruct (node_for_lines child start stop _) as [[[ty' name'] |] | err] eqn:Hn;
    cbn [mbind result_mbind result_bind]; [| | done].
  - intros [= <- <-]. right.
    destruct (node_for_lines_sound _ _ _ _ _ _ Hn)
      as (l & z & sns & sn & sv & ev & Hl & Hz & Hr).
    exists child, start, stop, l, z, sns, sn, sv, ev.
    split; [by left |]. done.
  - intros Hrest.
    destruct (IH Hrest)
      as [? | (c & start' & stop' & l & z & sns & sn & sv & ev & Hin & Hr)];
      [by left | right].
    exists c, start', stop', l, z, sns, sn, sv, ev. split; [by right | done].
Qed.

(** X16: [get_node_from_line], whenever it returns: either the pair of empty
    strings, or the type and the name of a subNode whose range contains one
    of the given lines; the subNode is one of the subNodes of one of
    [data.children], and the range of that child contains the line too. *)
Theorem get_node_from_line_sound (data : pyval) (lines : string) (ty name : pyval) :
  get_node_from_line data lines = Ok (ty, name) ->
  (ty = PStr EmptyString /\ name = PStr EmptyString) \/
  exists line z child start stop subNode sv ev,
    subNode_of_data data child subNode /\
    line ∈ split_on ":" lines /\ int_of_str line = Ok z /\
    start_line child = Ok start /\ end_line child = Ok stop /\
    within z start stop = Ok true /\
    start_line subNode = Ok sv /\ end_line subNode = Ok ev /\
    within z sv ev = Ok true /\
    getitem subNode "type" = Ok ty /\ getitem subNode "name" = Ok name.
Proof.
  unfold get_node_from_line.
  destruct (negb (truthy _)); [intros [= <- <-]; by left |].
  destruct (py_iter _) as [cs | err] eqn:Hcs; [| done].
  cbn [mbind result_mbind result_bind]. intros Hn.
  destruct (node_of_children_sound _ _ _ _ Hn)
    as [? | (c & start & stop & l & z & sns & sn & sv & ev & Hin & Hs & He & Hl & Hz
             & Hw & Hsns & Hsn & Hr)];
    [by left | right].
  exists l, z, c, start, stop, sn, sv, ev.
  split; [by exists cs, sns |]. done.
Qed.

Lemma get_node_from_line_sound_witness :
  (PStr "FunctionDefinition" = PStr EmptyString /\ PStr "f" = PStr EmptyString) \/
  exists line z child start stop subNode sv ev,
    subNode_of_data sample_tree child subNode /\
    line ∈ split_on ":" "9:5" /\ int_of_str line = Ok z /\
    start_line child = Ok start /\ end_line child = Ok stop /\
    within z start stop = Ok true /\
    start_line subNode = Ok sv /\ end_line subNode = Ok ev /\
    within z sv ev = Ok true /\
    getitem subNode "type" = Ok (PStr "FunctionDefinition") /\
    getitem subNode "name" = Ok (PStr "f").
Proof. apply (get_node_from_line_sound sample_tree). reflexivity. Defined.

Lemma node_for_lines_passed (child start stop : pyval) (lines : list string) :
  Forall (fun line => exists z, int_of_str line = Ok z /\
                                within z start stop = Ok false) lines ->
  node_for_lines child start stop lines = Ok None.
Proof.
  induction 1 as [| line rest (z & Hz & Hw) _ IH]; [done |].
  cbn [node_for_lines]. rewrite Hz. cbn [mbind result_mbind result_bind].
  rewrite Hw. exact IH.
Qed.

Lemma node_of_children_raises (lines : list string) (before after : list pyval)
    (child start stop : pyval) (lines_before lines_after : list string)
    (line : string) (z : Z) :
  lines = lines_before ++ line :: lines_after ->
  Forall (child_passed_over lines) before ->
  start_line child = Ok start -> end_line child = Ok stop ->
  Forall (fun l => exists z, int_of_str l = Ok z /\
                             within z start stop = Ok false) lines_before ->
  int_of_str line = Ok z -> within z start stop = Ok true ->
  get_attr child "subNodes" = PNone ->
  node_of_children lines (before ++ child :: after) = Raise TypeError.
Proof.
  intros Hlines Hbefore Hs He Hlb Hz Hw Hsub.
  induction Hbefore as [| c before (s' & e' & Hs' & He' & Hall) _ IH].
  - cbn [app node_of_children]. rewrite Hs, He.
    cbn [mbind result_mbind result_bind]. rewrite Hlines.
    assert (Hn : node_for_lines child start stop (lines_before ++ line :: lines_after)
                 = Raise TypeError); [| by rewrite Hn].
    clear Hlines. induction Hlb as [| l rest (z' & Hz' & Hw') _ IHl].
    + cbn [app node_for_lines]. rewrite Hz. cbn [mbind result_mbind result_bind].
      rewrite Hw. cbn [mbind result_mbind result_bind]. by rewrite Hsub.
    + cbn [app node_for_lines]. rewrite Hz'. cbn [mbind result_mbind result_bind].
      rewrite Hw'. exact IHl.
  - cbn [app node_of_children]. rewrite Hs', He'.
    cbn [mbind result_mbind result_bind].
    rewrite (node_for_lines_passed _ _ _ _ Hall).
    cbn [mbind result_mbind result_bind]. exact IH.
Qed.

(** X17: a line inside a top-level node without subNodes (a pragma, an import)
    makes [get_node_from_line] raise [TypeError]: the loop over the subNodes
    runs over [None].  Children and lines in front that do not meet are
    passed over. *)
Theorem get_node_from_line_raises_without_subNodes (data : pyval) (lines : string)
    (before after : list pyval) (child start stop : pyval)
    (lines_before lines_after : list string) (line : string) (z : Z) :
  get_attr data "children" = PList (before ++ child :: after) ->
  split_on ":" lines = lines_before ++ line :: lines_after ->
  Forall (child_passed_over (split_on ":" lines)) before ->
  start_line child = Ok start -> end_line child = Ok stop ->
  Forall (fun l => exists z, int_of_str l = Ok z /\
                             within z start stop = Ok false) lines_before ->
  int_of_str line = Ok z -> within z start stop = Ok true ->
  get_attr child "subNodes" = PNone ->
  get_node_from_line data lines = Raise TypeError.
Proof.
  intros Hchildren Hlines Hbefore Hs He Hlb Hz Hw Hsub.
  unfold get_node_from_line. rewrite Hchildren.
  assert (Htruthy : truthy (PList (before ++ child :: after)) = true).
  { by destruct before. }
  rewrite Htruthy. cbn [negb py_iter mbind result_mbind result_bind].
  by eapply node_of_children_raises.
Qed.

Lemma get_node_from_line_raises_without_subNodes_witness :
  get_node_from_line sample_tree_with_pragma "9:1:5" = Raise TypeError.
Proof.
  apply (get_node_from_line_raises_without_subNodes sample_tree_with_pragma "9:1:5"
           []
           [PDict [("type", PStr "ContractDefinition");
                   ("name", PStr "C");
                   ("subNodes", PList [sample_statevar; sample_function]);
                   ("loc", mk_loc 2 8)]]
           sample_pragma (PInt 1) (PInt 1) ["9"] ["5"] "1" 1);
    try reflexivity.
  - constructor.
  - constructor; [| constructor]. exists 9. split; reflexivity.
Defined.

(** ** [detector_oyente.get_function_name] *)

Lemma function_name_in_sound (line : Z) (subNodes : list pyval) (name : pyval) :
  function_name_in line subNodes = Ok (Some name) ->
  exists subNode, subNode ∈ subNodes /\ function_around line name subNode.
Proof.
  induction subNodes as [| subNode rest IH]; [done |]. cbn [function_name_in].
  destruct (start_line subNode) as [sv | err] eqn:Hsv; [| done].
  cbn [mbind result_mbind result_bind].
  destruct (end_line subNode) as [ev | err] eqn:Hev; [| done].
  cbn [mbind result_mbind result_bind].
  destruct (getitem subNode "type") as [ty | err] eqn:Hty; [| done].
  cbn [mbind result_mbind result_bind].
  assert (Hnext : function_name_in line rest = Ok (Some name) ->
                  exists sn, sn ∈ subNode :: rest /\ function_around line name sn).
  { intros Hrest. destruct (IH Hrest) as (sn & Hin & Hr).
    exists sn. split; [by right | done]. }
  destruct (py_eq ty (PStr "FunctionDefinition")) eqn:Hfd;
    cbn [mbind result_mbind result_bind mret result_ret]; [| exact Hnext].
  destruct (within line sv ev) as [[] | err] eqn:Hw;
    cbn [mbind result_mbind result_bind]; [| exact Hnext | done].
  destruct (getitem subNode "name") as [name' | err] eqn:Hname; [| done].
  cbn. intros [= <-]. exists subNode. split; [by left |].
  by exists sv, ev, ty.
Qed.

Lemma function_name_of_children_sound (line : Z) (children : list pyval)
    (name : pyval) :
  function_name_of_children line children = Ok name ->
  name = PStr "unknown" \/
  exists child start stop subNodes sns subNode,
    child ∈ children /\
    getitem child "subNodes" = Ok subNodes /\ py_iter subNodes = Ok sns /\
    subNode ∈ sns /\
    start_line child = Ok start /\ end_line child = Ok stop /\
    within line start stop = Ok true /\
    function_around line name subNode.
Proof.
  induction children as [| child rest IH]; [intros [= <-]; by left |].
  cbn [function_name_of_children].
  assert (Hnext : function_name_of_children line rest = Ok name ->
                  name = PStr "unknown" \/
                  exists c start stop subNodes sns subNode,
                    c ∈ child :: rest /\
                    getitem c "subNodes" = Ok subNodes /\ py_iter subNodes = Ok sns /\
                    subNode ∈ sns /\
                    start_line c = Ok start /\ end_line c = Ok stop /\
                    within line start stop = Ok true /\
                    function_around line name subNode).
  { intros Hrest. destruct (IH Hrest) as [-> | (c & start & stop & sub & sns & sn & Hin & Hr)];
      [by left | right].
    exists c, start, stop, sub, sns, sn. split; [by right | done]. }
  destruct (start_line child) as [start | err] eqn:Hs; [| done].
  cbn [mbind result_mbind result_bind].
  destruct (end_line child) as [stop | err] eqn:He; [| done].
  cbn [mbind result_mbind result_bind].
  destruct (within line start stop) as [[] | err] eqn:Hw;
    cbn [mbind result_mbind result_bind]; [| exact Hnext | done].
  destruct (negb (truthy _)); [exact Hnext |].
  destruct (getitem child "subNodes") as [subNodes | err] eqn:Hsub; [| done].
  cbn [mbind result_mbind result_bind].
  destruct (py_iter subNodes) as [sns | err] eqn:Hsns; [| done].
  cbn [mbind result_mbind result_bind].
  destruct (function_name_in line sns) as [[name' |] | err] eqn:Hf;
    cbn [mbind result_mbind result_bind]; [| exact Hnext | done].
  intros [= <-]. right.
  destruct (function_name_in_sound _ _ _ Hf) as (sn & Hin & Hr).
  exists child, start, stop, subNodes, sns, sn.
  split; [by left |]. done.
Qed.

(** X18: [get_function_name], whenever it returns: the name is ['unknown'] or
    the name of a function definition whose range contains the line, which
    is one of the subNodes of one of [node['children']], the range of that
    child containing the line too. *)
Theorem get_function_name_sound (node : pyval) (line : Z) (name : pyval) :
  get_function_name node line = Ok name ->
  name = PStr "unknown" \/
  exists child start stop subNode,
    subNode_of_child node child subNode /\
    start_line child = Ok start /\ end_line child = Ok stop /\
    within line start stop = Ok true /\
    function_around line name subNode.
Proof.
  unfold get_function_name.
  destruct (getitem node "children") as [children | err] eqn:Hc; [| done].
  cbn [mbind result_mbind result_bind].
  destruct (py_iter children) as [cs | err] eqn:Hcs; [| done].
  cbn [mbind result_mbind result_bind]. intros Hf.
  destruct (function_name_of_children_sound _ _ _ Hf)
    as [-> | (child & start & stop & sub & sns & sn & Hin & Hsub & Hsns & Hsn & Hr)];
    [by left | right].
  exists child, start, stop, sn. split; [| done].
  by exists children, cs, sub, sns.
Qed.

Lemma get_function_name_sound_witness :
  PStr "f" = PStr "unknown" \/
  exists child start stop subNode,
    subNode_of_child sample_tree child subNode /\
    start_line child = Ok start /\ end_line child = Ok stop /\
    within 6 start stop = Ok true /\
    function_around 6 (PStr "f") subNode.
Proof. apply (get_function_name_sound sample_tree). reflexivity. Defined.

(** ** The files the adapters' findings name *)

Lemma slither_detector_file (ast : pyval) (sol_file : string)
    (st st' : slither_state) (detector : pyval) :
  slither_detector ast sol_file st detector = Ok st' ->
  Forall (fun v => contract_file_path v = sol_file) (st_vulns st) ->
  Forall (fun v => contract_file_path v = sol_file) (st_vulns st').
Proof.
  unfold slither_detector. destruct (negb (truthy _)); [by intros [= <-] |].
  destruct (py_iter _) as [es | err]; [| done].
  cbn [mbind result_mbind result_bind].
  destruct (slither_elements _ _ es) as [est | err]; [| done].
  cbn [mbind result_mbind result_bind].
  destruct (es_lines est) as [| first_line more]; [by intros [= <-] |].
  destruct (es_isImported est); [by intros [= <-] |].
  destruct (join_lines _) as [text | err];
    destruct (get_node_and_node_path ast first_line) as [[ast_node ast_node_path] | err'];
    try by intros [= <-].
  - destruct (bound (es_contract_name est)) as [cn | err]; [| done].
    cbn [mbind result_mbind result_bind].
    destruct (bound (es_function_name est)) as [fn | err]; [| done].
    cbn [mbind result_mbind result_bind].
    unfold new_Vulnerability.
    destruct (line_num_converter text) as [lines | err]; [| done].
    cbn. intros [= <-] Hall. cbn. apply Forall_app. split; [done |].
    by repeat constructor.
  - destruct (bound (es_contract_name est)) as [cn | err'']; [| done].
    cbn [mbind result_mbind result_bind].
    by destruct (bound (es_function_name est)) as [fn | err''].
Qed.

Lemma parse_slither_output_file (out_json ast : pyval) (sol_file : string)
    (vulns : list Vulnerability) :
  parse_slither_output out_json ast sol_file = Ok vulns ->
  Forall (fun v => contract_file_path v = sol_file) vulns.
Proof.
  unfold parse_slither_output. destruct (negb (truthy _)); [by intros [= <-] |].
  destruct (py_iter _) as [ds | err]; [| done].
  cbn [mbind result_mbind result_bind].
  assert (Hloop : forall st st',
            slither_detectors ast sol_file st ds = Ok st' ->
            Forall (fun v => contract_file_path v = sol_file) (st_vulns st) ->
            Forall (fun v => contract_file_path v = sol_file) (st_vulns st')).
  { induction ds as [| d ds IH]; intros st st'; [by intros [= <-] |].
    cbn [slither_detectors].
    destruct (slither_detector ast sol_file st d) as [st1 | err] eqn:Hd; [| done].
    cbn [mbind result_mbind result_bind]. intros Hrest Hall.
    eapply IH; [exact Hrest |]. by eapply slither_detector_file. }
  destruct (slither_detectors _ _ _ ds) as [st | err] eqn:Hds; [| done].
  cbn. intros [= <-]. eapply Hloop; [exact Hds | constructor].
Qed.

Lemma collect_Forall {A B} (P : B -> Prop) (f : A -> result (list B)) (l : list A)
    (r : list B) :
  (forall x ys, x ∈ l -> f x = Ok ys -> Forall P ys) ->
  collect f l = Ok r -> Forall P r.
Proof.
  revert r. induction l as [| x l IH]; intros r Hf; [by intros [= <-] |].
  cbn [collect]. destruct (f x) as [ys | err] eqn:Hx; [| done].
  cbn [mbind result_mbind result_bind].
  destruct (collect f l) as [zs | err]; [| done]. cbn. intros [= <-].
  apply Forall_app. split.
  - eapply Hf; [by left | exact Hx].
  - apply IH; [| done]. intros y ys' Hy. apply Hf. by right.
Qed.

Lemma get_vuln_object_file (vuln_name : pyval) (file : string) (cn : pyval)
    (line_num : string) (ast : pyval) (o : elem) :
  get_vuln_object vuln_name file cn line_num ast = Ok o ->
  names_one_of [file] o.
Proof.
  unfold get_vuln_object. destruct (int_of_str line_num) as [line | err]; [| done].
  cbn [mbind result_mbind result_bind].
  destruct (get_function_name ast line) as [fn | err]; [| done].
  cbn [mbind result_mbind result_bind].
  destruct (get_node_and_node_path ast (PInt line)) as [[n p] | err];
    [| by intros [= <-]].
  unfold new_Vulnerability.
  destruct (line_num_converter line_num) as [lines | err]; [| done].
  cbn. intros [= <-]. cbn. by left.
Qed.

Lemma oyente_occurrence_file (v_name file c_name : string) (ast vuln : pyval)
    (os : list elem) :
  oyente_occurrence v_name file c_name ast vuln = Ok os ->
  Forall (names_one_of [file]) os.
Proof.
  unfold oyente_occurrence. destruct vuln as [| | | s | vs |]; try by intros [= <-].
  - destruct (second_piece (PStr s)) as [line_num | err]; [| done].
    cbn [mbind result_mbind result_bind].
    destruct (get_vuln_object _ _ _ _ _) as [o | err] eqn:Ho; [| done].
    cbn. intros [= <-]. constructor; [| done]. by eapply get_vuln_object_file.
  - apply collect_Forall. intros v ys _.
    destruct (second_piece v) as [line_num | err]; [| done].
    cbn [mbind result_mbind result_bind].
    destruct (get_vuln_object _ _ _ _ _) as [o | err] eqn:Ho; [| done].
    cbn. intros [= <-]. constructor; [| done]. by eapply get_vuln_object_file.
Qed.

Lemma parse_oyente_output_file (out_json ast : pyval) (sol_file : string)
    (os : list elem) :
  parse_oyente_output out_json ast sol_file = Ok os ->
  Forall (names_one_of [sol_file]) os.
Proof.
  unfold parse_oyente_output. destruct (dict_items out_json) as [files | err]; [| done].
  cbn [mbind result_mbind result_bind].
  apply collect_Forall. intros [c_filepath f] ys _.
  destruct (String.eqb_spec c_filepath sol_file) as [-> | Hne];
    cbn [negb]; [| by intros [= <-]].
  destruct (dict_items f) as [contracts | err]; [| done].
  cbn [mbind result_mbind result_bind].
  apply collect_Forall. intros [c_name data] ys' _.
  destruct (getitem data "vulnerabilities") as [vulnerabilities | err]; [| done].
  cbn [mbind result_mbind result_bind].
  destruct (dict_items vulnerabilities) as [kinds | err]; [| done].
  cbn [mbind result_mbind result_bind].
  apply collect_Forall. intros [v_name vulns] ys'' _.
  destruct (truthy vulns); [| by intros [= <-]].
  destruct (py_iter vulns) as [occurrences | err]; [| done].
  cbn [mbind result_mbind result_bind].
  apply collect_Forall. intros vuln ys3 _. apply oyente_occurrence_file.
Qed.

(** ** [patches.get_vulnerabilities] *)

Section vulnerabilities_facts.
Variable parse_solc : string -> result (pyval * pyval).
Variable get_solc_version : pyval -> result pyval.
Variable execute_slither : string -> pyval -> string -> pyval.
Variable execute_oyente : string -> string -> pyval -> string -> pyval.
Variable get_remappings : string -> result string.
Variable OYENTE_PATH : string.

#[local] Abbreviation files_loop :=
  (vulnerabilities_of_files parse_solc get_solc_version execute_slither
     execute_oyente OYENTE_PATH).
#[local] Abbreviation run_detectors :=
  (get_vulnerabilities parse_solc get_solc_version execute_slither
     execute_oyente get_remappings OYENTE_PATH).

Lemma files_loop_names_files (remapping : string) (all : list string)
    (sol_files : list string) :
  forall vulns r,
    sol_files ⊆ all ->
    Forall (fun v => contract_file_path v ∈ all) (fst vulns) ->
    Forall (names_one_of all) (snd vulns) ->
    files_loop remapping vulns sol_files = Ok r ->
    Forall (fun v => contract_file_path v ∈ all) (fst r) /\
    Forall (names_one_of all) (snd r).
Proof.
  induction sol_files as [| f rest IH]; intros vulns r Hsub Hs Ho.
  - by intros [= <-].
  - assert (Hf : f ∈ all) by (apply Hsub; by left).
    assert (Hrest : rest ⊆ all) by (intros x Hx; apply Hsub; by right).
    cbn [vulnerabilities_of_files].
    destruct (parse_solc f) as [[ast err] | e]; [| done].
    cbn [mbind result_mbind result_bind].
    destruct (truthy err); [intros Hloop; by eapply IH |].
    destruct (getitem ast "children") as [children | e]; [| done].
    cbn [mbind result_mbind result_bind].
    destruct (py_iter children) as [cs | e]; [| done].
    cbn [mbind result_mbind result_bind].
    destruct (pragma_version cs) as [version_str | e]; [| done].
    cbn [mbind result_mbind result_bind].
    destruct (get_solc_version version_str) as [version | e]; [| done].
    cbn [mbind result_mbind result_bind].
    destruct (negb (truthy version)); [by intros [= <-] |].
    destruct (if negb (py_eq (execute_slither _ _ _) _) then _ else _)
      as [vs | e] eqn:Hfs; [| done].
    cbn [mbind result_mbind result_bind].
    destruct (if negb (py_eq (execute_oyente _ _ _ _) _) then _ else _)
      as [os | e] eqn:Hfo; [| done].
    cbn [mbind result_mbind result_bind].
    assert (Hvs : Forall (fun v => contract_file_path v ∈ all) vs).
    { destruct (negb _) in Hfs; [| by injection Hfs as <-].
      apply parse_slither_output_file in Hfs.
      eapply Forall_impl; [exact Hfs |]. by intros v ->. }
    assert (Hos : Forall (names_one_of all) os).
    { destruct (negb _) in Hfo; [| by injection Hfo as <-].
      apply parse_oyente_output_file in Hfo.
      eapply Forall_impl; [exact Hfo |].
      intros [v |]; [| done]. cbn. by intros ->%list_elem_of_singleton. }
    intros Hloop. eapply IH; [exact Hrest | | | exact Hloop]; cbn [fst snd];
      apply Forall_app; split; auto.
Qed.

(** X19: every finding [get_vulnerabilities] returns, from either detector,
    names one of the files it was given: the adapters keep the entries of
    the file under analysis only. *)
Theorem get_vulnerabilities_names_given_files (repo_path : string)
    (sol_files : list string) (r : list Vulnerability * list elem) :
  run_detectors repo_path sol_files = Ok r ->
  Forall (fun v => contract_file_path v ∈ sol_files) (fst r) /\
  Forall (names_one_of sol_files) (snd r).
Proof.
  unfold get_vulnerabilities.
  destruct (get_remappings repo_path) as [remapping | e]; [| done].
  cbn [mbind result_mbind result_bind].
  by apply files_loop_names_files.
Qed.

Lemma files_loop_incompatible (remapping : string) (f : string)
    (before after : list string) :
  incompatible parse_solc get_solc_version f ->
  forall vulns,
    files_loop remapping vulns (before ++ f :: after)
      = files_loop remapping vulns before.
Proof.
  intros (ast & err & children & cs & vstr & version & Hp & Herr & Hc & Hi & Hv & Hg & Ht).
  induction before as [| x before IH]; intros vulns.
  - cbn [app vulnerabilities_of_files]. rewrite Hp.
    cbn [mbind result_mbind result_bind]. rewrite Herr, Hc.
    cbn [mbind result_mbind result_bind]. rewrite Hi.
    cbn [mbind result_mbind result_bind]. rewrite Hv.
    cbn [mbind result_mbind result_bind]. rewrite Hg.
    cbn [mbind result_mbind result_bind]. by rewrite Ht.
  - cbn [app vulnerabilities_of_files].
    destruct (parse_solc x) as [[ast' err'] | e]; [| done].
    cbn [mbind result_mbind result_bind].
    destruct (truthy err'); [apply IH |].
    destruct (getitem ast' "children") as [children' | e]; [| done].
    cbn [mbind result_mbind result_bind].
    destruct (py_iter children') as [cs' | e]; [| done].
    cbn [mbind result_mbind result_bind].
    destruct (pragma_version cs') as [vstr' | e]; [| done].
    cbn [mbind result_mbind result_bind].
    destruct (get_solc_version vstr') as [version' | e]; [| done].
    cbn [mbind result_mbind result_bind].
    destruct (negb (truthy version')); [done |].
    destruct (if negb (py_eq (execute_slither _ _ _) _) then _ else _) as [vs | e];
      [| done].
    cbn [mbind result_mbind result_bind].
    destruct (if negb (py_eq (execute_oyente _ _ _ _) _) then _ else _) as [os | e];
      [| done].
    cbn [mbind result_mbind result_bind]. apply IH.
Qed.

(** X20: a file that parses but has no usable compiler version ends the run: the
    files behind it are not analysed, and the result is that of the files in
    front of it. *)
Theorem incompatible_file_ends_the_run (repo_path f : string)
    (before after : list string) :
  incompatible parse_solc get_solc_version f ->
  run_detectors repo_path (before ++ f :: after) = run_detectors repo_path before.
Proof.
  intros Hf. unfold get_vulnerabilities.
  destruct (get_remappings repo_path) as [remapping | e]; [| done].
  cbn [mbind result_mbind result_bind]. by apply files_loop_incompatible.
Qed.

Lemma files_loop_unparsable (remapping : string) (f : string)
    (before after : list string) :
  unparsable parse_solc f ->
  forall vulns,
    files_loop remapping vulns (before ++ f :: after)
      = files_loop remapping vulns (before ++ after).
Proof.
  intros (ast & err & Hp & Herr).
  induction before as [| x before IH]; intros vulns.
  - cbn [app vulnerabilities_of_files]. rewrite Hp.
    cbn [mbind result_mbind result_bind]. by rewrite Herr.
  - cbn [app vulnerabilities_of_files].
    destruct (parse_solc x) as [[ast' err'] | e]; [| done].
    cbn [mbind result_mbind result_bind].
    destruct (truthy err'); [apply IH |].
    destruct (getitem ast' "children") as [children' | e]; [| done].
    cbn [mbind result_mbind result_bind].
    destruct (py_iter children') as [cs' | e]; [| done].
    cbn [mbind result_mbind result_bind].
    destruct (pragma_version cs') as [vstr' | e]; [| done].
    cbn [mbind result_mbind result_bind].
    destruct (get_solc_version vstr') as [version' | e]; [| done].
    cbn [mbind result_mbind result_bind].
    destruct (negb (truthy version')); [done |].
    destruct (if negb (py_eq (execute_slither _ _ _) _) then _ else _) as [vs | e];
      [| done].
    cbn [mbind result_mbind result_bind].
    destruct (if negb (py_eq (execute_oyente _ _ _ _) _) then _ else _) as [os | e];
      [| done].
    cbn [mbind result_mbind result_bind]. apply IH.
Qed.

(** X21: a file the parser reports an error for is skipped: the result is that
    of the other files. *)
Theorem unparsable_file_is_skipped (repo_path f : string)
    (before after : list string) :
  unparsable parse_solc f ->
  run_detectors repo_path (before ++ f :: after)
    = run_detectors repo_path (before ++ after).
Proof.
  intros Hf. unfold get_vulnerabilities.
  destruct (get_remappings repo_path) as [remapping | e]; [| done].
  cbn [mbind result_mbind result_bind]. by apply files_loop_unparsable.
Qed.
End vulnerabilities_facts.

Lemma get_vulnerabilities_names_given_files_witness :
  let r := ([mkVulnerability (PStr "reentrancy-eth") "/repo/A.sol" (PStr "C") (PStr "f")
               [5] "children.[*].subNodes.[*].body.statements.[*]"
               (remove_loc_info (sample_stmt "b" 5 6))], []) in
  Forall (fun v => contract_file_path v ∈ ["/repo/A.sol"; "/repo/old.sol"]) (fst r) /\
  Forall (names_one_of ["/repo/A.sol"; "/repo/old.sol"]) (snd r).
Proof.
  apply (get_vulnerabilities_names_given_files scenario_parse_solc
           scenario_get_solc_version scenario_execute_slither scenario_execute_oyente
           (fun _ => Ok EmptyString) "oyente.py" "/repo").
  vm_compute. reflexivity.
Defined.

Lemma incompatible_file_ends_the_run_witness :
  get_vulnerabilities scenario_parse_solc scenario_get_solc_version
    scenario_execute_slither scenario_execute_oyente (fun _ => Ok EmptyString)
    "oyente.py" "/repo" (["/repo/B.sol"] ++ "/repo/old.sol" :: ["/repo/A.sol"])
  = get_vulnerabilities scenario_parse_solc scenario_get_solc_version
      scenario_execute_slither scenario_execute_oyente (fun _ => Ok EmptyString)
      "oyente.py" "/repo" ["/repo/B.sol"].
Proof.
  apply incompatible_file_ends_the_run.
  exists (PDict [("type", PStr "SourceUnit"); ("children", PList [])]), PNone,
         (PList []), [], (PStr EmptyString), PNone.
  repeat split; reflexivity.
Defined.

Lemma unparsable_file_is_skipped_witness :
  get_vulnerabilities scenario_parse_solc scenario_get_solc_version
    scenario_execute_slither scenario_execute_oyente (fun _ => Ok EmptyString)
    "oyente.py" "/repo" ([] ++ "/repo/B.sol" :: ["/repo/A.sol"])
  = get_vulnerabilities scenario_parse_solc scenario_get_solc_version
      scenario_execute_slither scenario_execute_oyente (fun _ => Ok EmptyString)
      "oyente.py" "/repo" ([] ++ ["/repo/A.sol"]).
Proof.
  apply unparsable_file_is_skipped.
  exists PNone, (PStr "ParserError"). split; reflexivity.
Defined.

(** ** Names carried over between Slither results *)

Lemma slither_elements_keep_names (sol_file : string) (elements : list pyval) :
  forall est est',
    no_function_element elements ->
    slither_elements sol_file est elements = Ok est' ->
    es_function_name est' = es_function_name est /\
    es_contract_name est' = es_contract_name est.
Proof.
  induction elements as [| element rest IH]; intros est est' Hno;
    [by intros [= <-] |].
  apply Forall_cons in Hno as [Hel Hrest]. cbn [slither_elements]. rewrite Hel.
  destruct (py_eq (get_attr element "type") (PStr "node")).
  - destruct (py_iter _) as [more | e]; [| done].
    cbn [mbind result_mbind result_bind mret result_ret].
    destruct (negb _); [by intros [= <-] |].
    intros Hr. by destruct (IH _ _ Hrest Hr).
  - cbn [mbind result_mbind result_bind mret result_ret].
    destruct (negb _); [by intros [= <-] |].
    intros Hr. by destruct (IH _ _ Hrest Hr).
Qed.

(** X22: a detector result without an element of type ['function'] does not
    rebind [function_name] and [contract_name]: a finding made from it
    carries the names left by the results in front of it. *)
Theorem slither_result_without_function_keeps_names (ast : pyval)
    (sol_file : string) (st st' : slither_state) (detector : pyval)
    (elements : list pyval) :
  py_iter (get_attr detector "elements") = Ok elements ->
  no_function_element elements ->
  slither_detector ast sol_file st detector = Ok st' ->
  st_function_name st' = st_function_name st /\
  st_contract_name st' = st_contract_name st /\
  (st_vulns st' = st_vulns st \/
   exists v, st_vulns st' = st_vulns st ++ [v] /\
             st_function_name st = Some (function_name v) /\
             st_contract_name st = Some (contract_name v)).
Proof.
  intros Hes Hno. unfold slither_detector.
  destruct (negb (truthy _)); [intros [= <-]; by repeat split; try left |].
  rewrite Hes. cbn [mbind result_mbind result_bind].
  destruct (slither_elements _ _ elements) as [est | e] eqn:Hel; [| done].
  cbn [mbind result_mbind result_bind].
  destruct (slither_elements_keep_names _ _ _ _ Hno Hel) as [Hfn Hcn].
  cbn in Hfn, Hcn.
  destruct (es_lines est) as [| first_line more];
    [intros [= <-]; cbn; by repeat split; try left |].
  destruct (es_isImported est); [intros [= <-]; cbn; by repeat split; try left |].
  destruct (join_lines _) as [text | e];
    destruct (get_node_and_node_path ast first_line) as [[ast_node ast_node_path] | e'];
    try (intros [= <-]; cbn; by repeat split; try left).
  - destruct (es_contract_name est) as [cn |]; [| done].
    destruct (es_function_name est) as [fn |]; [| done].
    cbn [bound mbind result_mbind result_bind].
    unfold new_Vulnerability.
    destruct (line_num_converter text) as [lines | e]; [| done].
    cbn. intros [= <-]. cbn. split; [done |]. split; [done |]. right.
    eexists. split; [done |]. by cbn.
  - destruct (bound (es_contract_name est)) as [cn | e'']; [| done].
    cbn [mbind result_mbind result_bind].
    by destruct (bound (es_function_name est)) as [fn | e''].
Qed.

Lemma slither_result_without_function_keeps_names_witness :
  let st := mkSlitherState (Some (PStr "g")) (Some (PStr "D")) [] in
  let v := mkVulnerability (PStr "reentrancy-eth") "A.sol" (PStr "D") (PStr "g")
             [5; 6] "children.[*].subNodes.[*].body.statements.[*]"
             (remove_loc_info (sample_stmt "b" 5 6)) in
  let st' := mkSlitherState (Some (PStr "g")) (Some (PStr "D")) [v] in
  st_function_name st' = st_function_name st /\
  st_contract_name st' = st_contract_name st /\
  (st_vulns st' = st_vulns st \/
   exists v, st_vulns st' = st_vulns st ++ [v] /\
             st_function_name st = Some (function_name v) /\
             st_contract_name st = Some (contract_name v)).
Proof.
  intros st v st'.
  apply (slither_result_without_function_keeps_names sample_tree "A.sol" st st'
           (node_only_result "A.sol" "reentrancy-eth" [5; 6])
           [PDict [("type", PStr "node");
                   ("name", PStr "statement");
                   ("source_mapping",
                    PDict [("filename_used", PStr "A.sol");
                           ("lines", PList (map PInt [5; 6]))])]]).
  - reflexivity.
  - repeat constructor.
  - vm_compute. reflexivity.
Defined.

(** ** [patches.process_repo]: the files of a commit *)

(** X23: every file the detectors are run on for a commit is one of the current
    solidity files of the repository, and is [repo_path/f] for a line [f] of
    the commit's file list that ends in [.sol] and contains none of
    [node_modules], [mocks], [test]. *)
Theorem changed_sol_files_sound (repo_path : string)
    (current_sol_files files : list string) (sol_file : string) :
  sol_file ∈ changed_sol_files repo_path current_sol_files files ->
  sol_file ∈ current_sol_files /\
  exists f, f ∈ files /\ sol_file = repo_path +:+ "/" +:+ f /\
            ends_with f ".sol" = true /\
            contains f "node_modules" = false /\
            contains f "mocks" = false /\ contains f "test" = false.
Proof.
  induction files as [| f rest IH]; cbn [changed_sol_files].
  - by intros ?%elem_of_nil.
  - assert (Hnext : sol_file ∈ changed_sol_files repo_path current_sol_files rest ->
              sol_file ∈ current_sol_files /\
              exists f', f' ∈ f :: rest /\ sol_file = repo_path +:+ "/" +:+ f' /\
                         ends_with f' ".sol" = true /\
                         contains f' "node_modules" = false /\
                         contains f' "mocks" = false /\ contains f' "test" = false).
    { intros Hin. destruct (IH Hin) as (Hc & f' & Hf' & Hr).
      split; [done |]. exists f'. split; [by right | done]. }
    destruct (String.eqb f EmptyString); [by intros ?%elem_of_nil |].
    destruct (ends_with f ".sol") eqn:He; cbn [negb orb]; [| exact Hnext].
    destruct (contains f "node_modules") eqn:Hn; cbn [orb]; [exact Hnext |].
    destruct (contains f "mocks") eqn:Hm; cbn [orb]; [exact Hnext |].
    destruct (contains f "test") eqn:Ht; cbn [orb]; [exact Hnext |].
    destruct (existsb _ current_sol_files) eqn:Hex; [| exact Hnext].
    intros [-> | Hin]%elem_of_cons; [| by apply Hnext].
    split.
    + apply List.existsb_exists in Hex as (x & Hx & ->%String.eqb_eq).
      by apply list_elem_of_In.
    + exists f. split; [by left | done].
Qed.

Lemma changed_sol_files_sound_witness :
  "/repo/contracts/A.sol" ∈ ["/repo/contracts/A.sol"] /\
  exists f, f ∈ ["contracts/A.sol"; "README.md"; EmptyString] /\
            "/repo/contracts/A.sol" = "/repo" +:+ "/" +:+ f /\
            ends_with f ".sol" = true /\
            contains f "node_modules" = false /\
            contains f "mocks" = false /\ contains f "test" = false.
Proof.
  apply (changed_sol_files_sound "/repo" ["/repo/contracts/A.sol"]).
  vm_compute. by left.
Defined.

(** ** [patches.process_repo]: what is reported, and when *)

Section walk_reports.
Context `{PyHash}.

Lemma rows_of_commits (fs : findings_state) (tc : list string) (ms : list meta)
    (rows : list patch_row) :
  rows_of fs tc ms = Ok rows ->
  Forall (fun r => row_commits r = tc) rows /\ length rows = length ms.
Proof.
  revert rows. induction ms as [| [[fn cn] file] ms IH]; intros rows;
    [by intros [= <-] |].
  cbn [rows_of]. destruct (groups_of fs (fn, cn)) as [groups | e]; [| done].
  cbn [mbind result_mbind result_bind].
  destruct (rows_of fs tc ms) as [rows' | e]; [| done].
  cbn. intros [= <-]. destruct (IH _ eq_refl) as [Hall Hlen].
  split; [by constructor | cbn; by rewrite Hlen].
Qed.

Lemma set_lookkey_prefix (s t : pyset) (key : elem) (h : Z) :
  set_lookkey (s ++ t) key h = Ok false -> set_lookkey s key h = Ok false.
Proof.
  apply set_lookkey_absent_sub. intros e He. apply elem_of_app. by left.
Qed.

Lemma vdict_add_entries (d d' : vdict) (key : vkey) (v : Vulnerability) (h : Z) :
  elem_hash (Some v) = Ok h ->
  vdict_add d key v = Ok d' ->
  dict_entries d' ⊆ (h, Some v) :: dict_entries d.
Proof.
  intros Hh. revert d'. unfold dict_entries.
  induction d as [| [k s] d IH]; intros d'; cbn [vdict_add].
  - unfold set_add, set_insert. rewrite Hh. cbn. intros [= <-]. cbn.
    intros e He. apply list_elem_of_singleton in He. subst. by left.
  - destruct (vkey_eq k key).
    + unfold set_add, set_insert. rewrite Hh.
      cbn [mbind result_mbind result_bind fst snd].
      destruct (set_lookkey s (Some v) h) as [found | e]; [| done].
      cbn. intros [= <-]. cbn. intros e He.
      apply elem_of_app in He as [He | He].
      * destruct found; [right; apply elem_of_app; by left |].
        apply elem_of_app in He as [He | He]; [right; apply elem_of_app; by left |].
        apply list_elem_of_singleton in He. subst. by left.
      * right. apply elem_of_app. by right.
    + destruct (vdict_add d key v) as [d1 | e]; [| done]. cbn. intros [= <-].
      cbn. intros e He. apply elem_of_app in He as [He | He].
      * right. apply elem_of_app. by left.
      * apply (IH _ eq_refl) in He. apply elem_of_cons in He as [-> | He];
          [by left | right; apply elem_of_app; by right].
Qed.

Lemma visit_new (tv0 : pyset) (detector : detector_name)
    (st st' : findings_state) (v : elem) :
  tv0 `prefix_of` total_vuln st ->
  all_new_to tv0 st ->
  visit detector st v = Ok st' ->
  all_new_to tv0 st'.
Proof.
  intros [t Ht] [Hs Ho]. unfold visit. destruct v as [vu |]; [| by intros [= <-]].
  unfold set_contains.
  destruct (elem_hash (Some vu)) as [h | e] eqn:Hh; [| done].
  cbn [mbind result_mbind result_bind].
  destruct (set_lookkey (total_vuln st) (Some vu) h) as [[] | e] eqn:Hl;
    cbn [mbind result_mbind result_bind]; [by intros [= <-] | | done].
  rewrite (set_add_new _ _ h Hh Hl). cbn [mbind result_mbind result_bind].
  assert (Hnew : new_to tv0 (h, Some vu)).
  { exists vu. split; [done |]. cbn. rewrite Ht in Hl. by eapply set_lookkey_prefix. }
  destruct detector.
  - destruct (vdict_add _ _ vu) as [d' | e] eqn:Hadd; [| done]. cbn. intros [= <-].
    split; [| done]. cbn. apply Forall_forall. intros e He.
    apply (vdict_add_entries _ _ _ _ _ Hh Hadd) in He.
    apply elem_of_cons in He as [-> | He]; [done |].
    rewrite Forall_forall in Hs. by apply Hs.
  - destruct (vdict_add _ _ vu) as [d' | e] eqn:Hadd; [| done]. cbn. intros [= <-].
    split; [done |]. cbn. apply Forall_forall. intros e He.
    apply (vdict_add_entries _ _ _ _ _ Hh Hadd) in He.
    apply elem_of_cons in He as [-> | He]; [done |].
    rewrite Forall_forall in Ho. by apply Ho.
Qed.

Lemma visit_all_new (tv0 : pyset) (detector : detector_name) (vulns : list elem) :
  forall st st',
    tv0 `prefix_of` total_vuln st ->
    dicts_within_seen st ->
    all_new_to tv0 st ->
    visit_all detector st vulns = Ok st' ->
    all_new_to tv0 st' /\ dicts_within_seen st' /\ tv0 `prefix_of` total_vuln st'.
Proof.
  induction vulns as [| v vulns IH]; intros st st' Hp Hin Hnew; cbn [visit_all].
  - by intros [= <-].
  - destruct (visit detector st v) as [st1 | e] eqn:Hv; [| done]. cbn. intros Hrest.
    destruct (visit_grows detector st st1 v Hin Hv) as (Hin1 & Hp1 & _).
    eapply IH; [by etrans | done | by eapply visit_new | done].
Qed.

Variable get_vulnerabilities :
  string -> list string -> result (list Vulnerability * list elem).
Variables (repo_path : string) (current_sol_files : list string).

#[local] Abbreviation commit_step :=
  (process_commit get_vulnerabilities repo_path current_sol_files).
#[local] Abbreviation run_walk :=
  (walk get_vulnerabilities repo_path current_sol_files).

Lemma process_commit_reports (st st' : walk_state) (c : commit) (o : commit_output) :
  commit_step st c = Ok (st', o) ->
  Forall (new_to (seen st)) (reported o) /\
  reported o ⊆ seen st' /\
  total_commits st ++ [commit_hash c] = reported_commits o ++ total_commits st' /\
  Forall (fun r => row_commits r = reported_commits o) (out_rows o).
Proof.
  unfold process_commit.
  destruct (changed_sol_files _ _ _) as [| f fs_].
  { intros [= <- <-]. cbn. split; [constructor |]. split; [| done].
    by intros e ?%elem_of_nil. }
  destruct (get_vulnerabilities _ _) as [vs | e]; [| done].
  cbn [mbind result_mbind result_bind].
  destruct (collect_new (seen st) vs) as [fs | e] eqn:Hc; [| done].
  cbn [mbind result_mbind result_bind].
  assert (Hfs : all_new_to (seen st) fs /\ dicts_within_seen fs).
  { unfold collect_new in Hc.
    destruct (visit_all slither _ _) as [st1 | e] eqn:Hs; [| done]. cbn in Hc.
    assert (Hp0 : seen st `prefix_of` total_vuln (mkFindingsState (seen st) [] [] []))
      by done.
    assert (Hin0 : dicts_within_seen (mkFindingsState (seen st) [] [] []))
      by (split; constructor).
    assert (Hn0 : all_new_to (seen st) (mkFindingsState (seen st) [] [] []))
      by (split; constructor).
    destruct (visit_all_new _ _ _ _ _ Hp0 Hin0 Hn0 Hs) as (Hn1 & Hin1 & Hp1).
    destruct (visit_all_new (seen st) oyente _ st1 fs Hp1 Hin1 Hn1 Hc)
      as (Hn & Hin & _).
    done. }
  destruct Hfs as [[Hns Hno] [Hws Hwo]].
  assert (Hrep : Forall (new_to (seen st))
                   (dict_entries (new_vulns_slither fs) ++
                    dict_entries (new_vulns_oyente fs))).
  { apply Forall_app. by split. }
  assert (Hsub : dict_entries (new_vulns_slither fs) ++
                 dict_entries (new_vulns_oyente fs) ⊆ total_vuln fs).
  { intros e He. unfold dict_entries in He.
    apply elem_of_app in He as [He | He];
      apply list_elem_of_In, List.in_flat_map in He as (ks & Hks & He);
      apply list_elem_of_In in Hks, He.
    - unfold within_seen in Hws. rewrite Forall_forall in Hws. by apply (Hws ks).
    - unfold within_seen in Hwo. rewrite Forall_forall in Hwo. by apply (Hwo ks). }
  destruct (functions_meta fs) as [| m ms].
  - intros [= <- <-]. cbn. unfold reported. cbn. done.
  - destruct (rows_of fs _ (m :: ms)) as [rows | e] eqn:Hrows; [| done].
    cbn [mbind result_mbind result_bind]. intros [= <- <-].
    destruct (rows_of_commits _ _ _ _ Hrows) as [Hall Hlen].
    destruct rows as [| r rows]; [done |].
    apply Forall_cons in Hall as [Hr Hall].
    unfold reported, reported_commits. cbn. rewrite Hr, app_nil_r.
    split; [done |]. split; [done |]. split; [done |].
    constructor; [done |]. eapply Forall_impl; [exact Hall |]. by intros r' ->.
Qed.

Lemma new_to_prefix (tv tv' : pyset) (entry : Z * elem) :
  tv `prefix_of` tv' -> new_to tv' entry -> new_to tv entry.
Proof.
  intros [t ->] (v & Hv & Hl). exists v. split; [done |].
  by eapply set_lookkey_prefix.
Qed.

Lemma walk_reports (commits : list commit) :
  forall st st' outs,
    run_walk st commits = Ok (st', outs) ->
    Forall (fun o => Forall (new_to (seen st)) (reported o) /\
                     reported o ⊆ seen st' /\
                     Forall (fun r => row_commits r = reported_commits o)
                       (out_rows o)) outs /\
    total_commits st ++ map commit_hash commits
      = flat_map reported_commits outs ++ total_commits st'.
Proof.
  induction commits as [| c commits IH]; intros st st' outs; cbn [walk].
  - intros [= <- <-]. cbn. split; [constructor | by rewrite app_nil_r].
  - destruct (commit_step st c) as [[st1 o] | e] eqn:Hc; [| done]. cbn.
    destruct (run_walk st1 commits) as [[st2 os] | e] eqn:Hw; [| done]. cbn.
    intros [= <- <-].
    destruct (process_commit_reports _ _ _ _ Hc) as (Hnew & Hsub & Hcommits & Hrows).
    destruct (process_commit_grows _ _ _ _ _ _ _ Hc) as [Hp1 _].
    destruct (walk_grows _ _ _ _ _ _ _ Hw) as (_ & Hp2 & _).
    destruct (IH _ _ _ Hw) as [Hall Hrest].
    split.
    + constructor.
      * split; [done |]. split; [| done]. intros e He.
        destruct Hp2 as [t ->]. apply elem_of_app. left. by apply Hsub.
      * eapply Forall_impl; [exact Hall |]. intros o' (Hn' & Hs' & Hr').
        split; [| done]. eapply Forall_impl; [exact Hn' |].
        intros e. by apply new_to_prefix.
    + cbn [map flat_map].
      change (total_commits st ++ commit_hash c :: map commit_hash commits)
        with (total_commits st ++ ([commit_hash c] ++ map commit_hash commits)).
      by rewrite (app_assoc (total_commits st)), Hcommits, <- !app_assoc, Hrest.
Qed.

(** X24: the [Commits] columns partition the walk: the hashes the walk started
    with, followed by the hashes of the commits walked, are the [Commits]
    columns of the commits that had rows written, in order, followed by the
    hashes still waiting for a commit with new findings; all rows of one
    commit carry the same [Commits]. *)
Theorem commits_are_reported_once (st st' : walk_state) (commits : list commit)
    (outs : list commit_output) :
  run_walk st commits = Ok (st', outs) ->
  total_commits st ++ map commit_hash commits
    = flat_map reported_commits outs ++ total_commits st' /\
  Forall (fun o => Forall (fun r => row_commits r = reported_commits o) (out_rows o))
    outs.
Proof.
  intros Hw. destruct (walk_reports _ _ _ _ Hw) as [Hall Hc].
  split; [done |]. eapply Forall_impl; [exact Hall |]. by intros o (_ & _ & Hr).
Qed.

Lemma new_to_differs (tv : pyset) (h h' : Z) (a b : Vulnerability) :
  (h', Some a) ∈ tv -> new_to tv (h, Some b) ->
  ~ (h = h' /\ Vulnerability__eq__ a b = true).
Proof.
  intros Hin (v & [= <-] & Hl) [-> Heq]. cbn in Hl.
  apply set_lookkey_absent in Hl. rewrite Forall_forall in Hl.
  specialize (Hl _ Hin). unfold misses in Hl. cbn in Hl.
  rewrite Z.eqb_refl in Hl. specialize (Hl eq_refl). congruence.
Qed.

(** X25: no finding reported for a commit equals a finding the walk started
    with: what is in the seed set (the findings of the head) is never
    reported. *)
Theorem reported_findings_are_new_to_the_seed (st st' : walk_state)
    (commits : list commit) (outs : list commit_output) (o : commit_output)
    (h h' : Z) (a b : Vulnerability) :
  run_walk st commits = Ok (st', outs) ->
  o ∈ outs ->
  (h', Some a) ∈ seen st ->
  (h, Some b) ∈ reported o ->
  ~ (h = h' /\ Vulnerability__eq__ a b = true).
Proof.
  intros Hw Ho Ha Hb. destruct (walk_reports _ _ _ _ Hw) as [Hall _].
  rewrite Forall_forall in Hall. destruct (Hall _ Ho) as (Hnew & _ & _).
  rewrite Forall_forall in Hnew. by eapply new_to_differs; [| apply Hnew].
Qed.

(** X26: no finding is reported for two commits: a finding reported for a commit
    differs, by hash or by [__eq__], from every finding reported for a
    commit walked before it. *)
Theorem finding_is_reported_by_one_commit (st st' : walk_state)
    (commits : list commit) (outs : list commit_output)
    (i j : nat) (oi oj : commit_output) (h h' : Z) (a b : Vulnerability) :
  run_walk st commits = Ok (st', outs) ->
  outs !! i = Some oi -> outs !! j = Some oj -> (i < j)%nat ->
  (h', Some a) ∈ reported oi ->
  (h, Some b) ∈ reported oj ->
  ~ (h = h' /\ Vulnerability__eq__ a b = true).
Proof.
  intros Hw Hi Hj Hij Ha Hb.
  rewrite <- (take_drop j commits) in Hw.
  destruct (walk_app _ _ _ _ _ _ _ _ Hw) as (mid & outs1 & outs2 & H1 & H2 & ->).
  destruct (walk_grows _ _ _ _ _ _ _ H1) as (Hlen1 & _ & _).
  destruct (walk_grows _ _ _ _ _ _ _ Hw) as (Hlen & _ & _).
  assert (Hj' : (j < length commits)%nat).
  { apply lookup_lt_Some in Hj. rewrite Hlen, take_drop in Hj. done. }
  rewrite length_take in Hlen1.
  assert (Hl1 : length outs1 = j) by lia.
  rewrite lookup_app_l in Hi by lia.
  rewrite lookup_app_r in Hj by lia.
  destruct (walk_reports _ _ _ _ H1) as [Hall1 _].
  destruct (walk_reports _ _ _ _ H2) as [Hall2 _].
  rewrite Forall_forall in Hall1, Hall2.
  destruct (Hall1 oi) as (_ & Hsub & _); [by eapply list_elem_of_lookup_2 |].
  destruct (Hall2 oj) as (Hnew & _ & _); [by eapply list_elem_of_lookup_2 |].
  rewrite Forall_forall in Hnew.
  eapply new_to_differs; [by apply Hsub | by apply Hnew].
Qed.
End walk_reports.

Lemma commits_are_reported_once_witness :
  exists st' outs,
    walk (H := cpython312_seed0) scenario_get_vulnerabilities "/repo"
      ["/repo/contracts/A.sol"] (mkWalkState [] []) scenario_commits
      = Ok (st', outs) /\
    [] ++ map commit_hash scenario_commits
      = flat_map reported_commits outs ++ total_commits st' /\
    Forall (fun o => Forall (fun r => row_commits r = reported_commits o) (out_rows o))
      outs /\
    flat_map reported_commits outs = ["c2"] /\ total_commits st' = ["c1"; "c0"].
Proof.
  destruct (walk (H := cpython312_seed0) scenario_get_vulnerabilities "/repo"
              ["/repo/contracts/A.sol"] (mkWalkState [] []) scenario_commits)
    as [[st' outs] | e] eqn:Hw; [| vm_compute in Hw; discriminate].
  exists st', outs. split; [reflexivity |].
  destruct (@commits_are_reported_once cpython312_seed0
              scenario_get_vulnerabilities "/repo" ["/repo/contracts/A.sol"]
              (mkWalkState [] []) st' scenario_commits outs Hw) as [Hc Hr].
  split; [exact Hc |]. split; [exact Hr |].
  vm_compute in Hw. injection Hw as <- <-. split; reflexivity.
Defined.

Lemma reported_findings_are_new_to_the_seed_witness :
  ~ (7517890859386057978 = 8576178117519306143 /\
     Vulnerability__eq__ finding_of_line_5 finding_of_line_4 = true).
Proof.
  destruct (walk (H := cpython312_seed0) scenario_two_reports "/repo"
              ["/repo/contracts/A.sol"]
              (mkWalkState [(8576178117519306143, Some finding_of_line_5)] [])
              (drop 1 scenario_commits))
    as [[st' outs] | e] eqn:Hw; [| vm_compute in Hw; discriminate].
  pose proof Hw as Hw'. vm_compute in Hw'. injection Hw' as <- <-.
  eapply (@reported_findings_are_new_to_the_seed cpython312_seed0
            scenario_two_reports "/repo" ["/repo/contracts/A.sol"]
            _ _ _ _ _ _ _ _ _ Hw).
  - left.
  - left.
  - apply list_elem_of_In. vm_compute. left. reflexivity.
Defined.

Lemma finding_is_reported_by_one_commit_witness :
  ~ (7517890859386057978 = 8576178117519306143 /\
     Vulnerability__eq__ finding_of_line_5 finding_of_line_4 = true).
Proof.
  destruct (walk (H := cpython312_seed0) scenario_two_reports "/repo"
              ["/repo/contracts/A.sol"] (mkWalkState [] []) scenario_commits)
    as [[st' outs] | e] eqn:Hw; [| vm_compute in Hw; discriminate].
  pose proof Hw as Hw'. vm_compute in Hw'. injection Hw' as <- <-.
  eapply (@finding_is_reported_by_one_commit cpython312_seed0
            scenario_two_reports "/repo" ["/repo/contracts/A.sol"]
            _ _ _ _ 0%nat 1%nat _ _ _ _ _ _ Hw).
  - reflexivity.
  - reflexivity.
  - lia.
  - apply list_elem_of_In. vm_compute. left. reflexivity.
  - apply list_elem_of_In. vm_compute. left. reflexivity.
Defined.

(** ** [objects.convert_vuln] *)

Lemma convert_pieces_rejects (pieces : list string) :
  forall d, Exists (fun x => no_char ":" x = true) pieces ->
            convert_pieces d pieces = Raise ValueError.
Proof.
  assert (Hno : forall x, no_char ":" x = true -> split_once ":" x = None).
  { induction x as [| c x IH]; [done |]. cbn [no_char split_once].
    intros [Hc Hx]%andb_prop. apply negb_true_iff in Hc. by rewrite Hc, (IH Hx). }
  induction pieces as [| x rest IH]; intros d Hex; [by inversion Hex |].
  cbn [convert_pieces]. destruct (split_once ":" x) as [[detectors vuls] |] eqn:Hs;
    [| done].
  apply Exists_cons in Hex as [Hx | Hrest]; [| by apply IH].
  by rewrite (Hno x Hx) in Hs.
Qed.

(** X27: a column one of whose semicolon-separated pieces has no colon cannot be
    converted: [convert_vuln] raises [ValueError].  The empty column is such
    a column. *)
Theorem convert_vuln_rejects_piece_without_colon (value : string) :
  Exists (fun x => no_char ":" x = true) (split_on ";" value) ->
  convert_vuln value = Raise ValueError.
Proof. apply convert_pieces_rejects. Qed.

Lemma convert_vuln_rejects_piece_without_colon_witness :
  convert_vuln EmptyString = Raise ValueError.
Proof.
  apply convert_vuln_rejects_piece_without_colon. by left.
Defined.

(** *** Reading back a written column *)

Lemma no_char_app (c : ascii) (s t : string) :
  no_char c (s +:+ t) = no_char c s && no_char c t.
Proof.
  induction s as [| a s IH]; [done |]. rewrite append_cons. cbn [no_char].
  by rewrite IH, andb_assoc.
Qed.

Lemma no_char_join (c sep : ascii) (l : list string) :
  Ascii.eqb sep c = false ->
  Forall (fun p => no_char c p = true) l ->
  no_char c (join (String sep EmptyString) l) = true.
Proof.
  intros Hsep. induction 1 as [| p l Hp Hl IH]; [done |].
  destruct l as [| q l]; [done |].
  change (join (String sep EmptyString) (p :: q :: l))
    with (p +:+ String sep EmptyString +:+ join (String sep EmptyString) (q :: l)).
  rewrite !no_char_app, Hp, IH. cbn. by rewrite Hsep.
Qed.

Lemma split_on_no_char (sep : ascii) (p : string) :
  no_char sep p = true -> split_on sep p = [p].
Proof.
  induction p as [| c p IH]; [done |]. cbn [no_char split_on].
  intros [Hc Hp]%andb_prop. rewrite (IH Hp). apply negb_true_iff in Hc. by rewrite Hc.
Qed.

Lemma split_on_app_any (sep : ascii) (p rest : string) :
  no_char sep p = true ->
  split_on sep (p +:+ String sep rest) = p :: split_on sep rest.
Proof.
  induction p as [| c p IH]; cbn [no_char]; intros Hc.
  - change (EmptyString +:+ String sep rest) with (String sep rest).
    cbn [split_on]. destruct (split_on sep rest) eqn:Hs.
    + by destruct (split_on_nonempty sep rest).
    + by rewrite Ascii.eqb_refl.
  - apply andb_prop in Hc as [Hc Hp]. rewrite append_cons. cbn [split_on].
    rewrite (IH Hp). apply negb_true_iff in Hc. by rewrite Hc.
Qed.

Lemma split_on_join_any (sep : ascii) (pieces : list string) :
  pieces <> [] -> Forall (fun p => no_char sep p = true) pieces ->
  split_on sep (join (String sep EmptyString) pieces) = pieces.
Proof.
  intros Hne Hall. induction Hall as [| p l Hp Hl IH]; [done |].
  destruct l as [| q l]; [by apply split_on_no_char |].
  change (join (String sep EmptyString) (p :: q :: l))
    with (p +:+ String sep EmptyString +:+ join (String sep EmptyString) (q :: l)).
  change (String sep EmptyString +:+ ?x) with (String sep x).
  rewrite (split_on_app_any _ _ _ Hp). f_equal. by apply IH.
Qed.

Lemma split_once_app (k v : string) :
  no_char ":" k = true -> split_once ":" (k +:+ ":" +:+ v) = Some (k, v).
Proof.
  induction k as [| c k IH]; [done |]. cbn [no_char].
  intros [Hc Hk]%andb_prop. rewrite append_cons. cbn [split_once].
  apply negb_true_iff in Hc. by rewrite Hc, (IH Hk).
Qed.

Lemma re_split_go_body (skipping : bool) (body rest : string) :
  no_char ")" body = true ->
  (skipping = true -> String.prefix "|" body = false) ->
  re_split_go skipping (body +:+ ")" +:+ rest) = body :: re_split_go true rest.
Proof.
  intros Hbody Hbar.
  assert (Hfalse : forall b, no_char ")" b = true ->
            re_split_go false (b +:+ ")" +:+ rest) = b :: re_split_go true rest).
  { induction b as [| c b IH]; [done |]. cbn [no_char].
    intros [Hc Hb]%andb_prop. rewrite append_cons. cbn [re_split_go andb].
    apply negb_true_iff in Hc. by rewrite Hc, (IH Hb). }
  destruct skipping; [| by apply Hfalse].
  destruct body as [| c body]; [done |].
  cbn [no_char] in Hbody. apply andb_prop in Hbody as [Hc Hb].
  specialize (Hbar eq_refl). rewrite append_cons. cbn [re_split_go andb].
  assert (Hnb : Ascii.eqb c "|" = false).
  { destruct (Ascii.eqb_spec c "|") as [-> | Hne]; [| done]. by destruct body. }
  apply negb_true_iff in Hc. by rewrite Hnb, Hc, (Hfalse body Hb).
Qed.

Lemma re_split_go_texts (texts : list string) :
  forall skipping,
    Forall vul_text texts -> texts <> [] ->
    exists bodies,
      re_split_go skipping (join "|" texts) = bodies ++ [EmptyString] /\
      Forall (fun b => b <> EmptyString) bodies /\
      map (fun b => b +:+ ")") bodies = texts.
Proof.
  induction texts as [| t texts IH]; intros skipping Hall Hne; [done |].
  apply Forall_cons in Hall as [(body & -> & Hb & Hp & _ & Hbar) Hall].
  destruct texts as [| t' texts].
  - exists [body]. cbn [join]. rewrite <- (append_nil_r (body +:+ ")")) at 1.
    rewrite append_assoc, re_split_go_body by done.
    split; [done |]. split; [by repeat constructor | done].
  - destruct (IH true Hall) as (bodies & Hsplit & Hnon & Hmap); [done |].
    exists (body :: bodies).
    change (join "|" ((body +:+ ")") :: t' :: texts))
      with ((body +:+ ")") +:+ "|" +:+ join "|" (t' :: texts)).
    rewrite append_assoc, re_split_go_body by done.
    change ("|" +:+ join "|" (t' :: texts)) with (String "|" (join "|" (t' :: texts))).
    cbn [re_split_go andb]. change (Ascii.eqb "|" "|") with true. cbv iota.
    rewrite Hsplit. split; [done |]. split; [by constructor |].
    cbn [map]. by rewrite Hmap.
Qed.

Lemma vuls_of_join (texts : list string) :
  Forall vul_text texts -> vuls_of (join "|" texts) = texts.
Proof.
  intros Hall. unfold vuls_of, re_split_paren_bars.
  destruct texts as [| t texts]; [done |].
  destruct (re_split_go_texts (t :: texts) false Hall) as (bodies & -> & Hnon & <-);
    [done |].
  f_equal. rewrite List.filter_app. cbn. rewrite app_nil_r.
  induction Hnon as [| b bodies Hb _ IH]; [done |]. cbn.
  apply String.eqb_neq in Hb. by rewrite Hb, IH.
Qed.

Lemma vuln_dict_set_new (d : vuln_dict) (key value : list string) :
  key ∉ map fst d -> vuln_dict_set d key value = d ++ [(key, value)].
Proof.
  induction d as [| [k v] d IH]; [done |]. cbn. intros Hk.
  rewrite bool_decide_eq_false_2.
  - rewrite IH; [done |]. intros Hin. apply Hk. by right.
  - intros ->. apply Hk. by left.
Qed.

Lemma vul_text_no_semicolon (t : string) : vul_text t -> no_char ";" t = true.
Proof. intros (body & -> & _ & _ & Hs & _). by rewrite no_char_app, Hs. Qed.

Lemma convert_pieces_entries (d : vuln_dict) :
  forall acc,
    NoDup (map fst (acc ++ d)) ->
    Forall (fun kv => fst kv <> [] /\ Forall plain_detector (fst kv) /\
                      Forall vul_text (snd kv)) d ->
    convert_pieces acc (map vulnerabilities_entry d) = Ok (acc ++ d).
Proof.
  induction d as [| [key texts] d IH]; intros acc Hnd Hall.
  - cbn. by rewrite app_nil_r.
  - apply Forall_cons in Hall as [(Hkey & Hdet & Htexts) Hall]. cbn [fst snd] in *.
    cbn [map convert_pieces]. unfold vulnerabilities_entry at 1. cbn [fst snd].
    rewrite split_once_app.
    2:{ apply no_char_join; [done |]. eapply Forall_impl; [exact Hdet |].
        by intros s (_ & ? & _). }
    rewrite split_on_join_any; [| done |].
    2:{ eapply Forall_impl; [exact Hdet |]. by intros s (? & _). }
    rewrite (vuls_of_join _ Htexts).
    rewrite vuln_dict_set_new.
    2:{ rewrite map_app in Hnd. apply NoDup_app in Hnd as (_ & Hdis & _).
        intros Hin. apply (Hdis key Hin). by left. }
    rewrite IH; [by rewrite <- app_assoc | by rewrite <- app_assoc | done].
Qed.

(** X28: reading back a written column: for a dictionary of the shape the
    dataset writes (pairwise distinct keys of detector names, texts
    [name(lines)]), [convert_vuln] applied to the cell [toDictWriterRow]
    makes of it returns the dictionary itself. *)
Theorem convert_vuln_reads_back_written_column (d : vuln_dict) :
  column_ok d ->
  convert_vuln (vulnerabilities_text d) = Ok d.
Proof.
  intros (Hne & Hnd & Hall). unfold convert_vuln, vulnerabilities_text.
  rewrite split_on_join_any.
  - by apply (convert_pieces_entries d []).
  - by destruct d.
  - apply Forall_forall. intros x Hx.
    apply list_elem_of_fmap in Hx as ([key texts] & -> & Hin).
    rewrite Forall_forall in Hall. destruct (Hall _ Hin) as (_ & Hdet & Htexts).
    unfold vulnerabilities_entry. cbn [fst snd] in *.
    rewrite !no_char_app. rewrite !no_char_join; [done | done | | done |].
    + eapply Forall_impl; [exact Htexts |]. apply vul_text_no_semicolon.
    + eapply Forall_impl; [exact Hdet |]. by intros s (_ & _ & ?).
Qed.

Lemma convert_vuln_reads_back_written_column_witness :
  convert_vuln
    (vulnerabilities_text
       [(["Slither"; "Oyente"], ["reentrancy-eth(5:6)"; "callstack(4)"]);
        (["Oyente"], ["time_dependency(9)"])])
  = Ok [(["Slither"; "Oyente"], ["reentrancy-eth(5:6)"; "callstack(4)"]);
        (["Oyente"], ["time_dependency(9)"])].
Proof.
  apply convert_vuln_reads_back_written_column.
  split; [done |]. split.
  - cbn. apply NoDup_cons. split; [| apply NoDup_singleton].
    intros Hin. apply list_elem_of_singleton in Hin. discriminate.
  - constructor; [| constructor; [| constructor]]; cbn [fst snd].
    + split; [discriminate |]. split; [by repeat constructor |].
      constructor; [| constructor; [| constructor]].
      * exists "reentrancy-eth(5:6". repeat split; (discriminate || reflexivity).
      * exists "callstack(4". repeat split; (discriminate || reflexivity).
    + split; [discriminate |]. split; [by repeat constructor |].
      constructor; [| constructor].
      exists "time_dependency(9". repeat split; (discriminate || reflexivity).
Defined.

(** ** [objects.Patch] *)

Lemma join_split_on (sep : ascii) (s : string) :
  join (String sep EmptyString) (split_on sep s) = s.
Proof.
  induction s as [| c s IH]; [done |]. cbn [split_on].
  destruct (split_on sep s) as [| p ps] eqn:Hs; [by destruct (split_on_nonempty sep s) |].
  destruct (Ascii.eqb_spec c sep) as [-> | Hne].
  - change (join (String sep EmptyString) (EmptyString :: p :: ps))
      with (String sep (join (String sep EmptyString) (p :: ps))).
    by rewrite IH.
  - rewrite <- IH. by destruct ps.
Qed.

(** X29: the row written for a patch, after the conversions of the constructor:
    the [Commits] cell is the text given; the [Merged] cell is ['True'] for
    every non-empty status, ['False'] included; an empty list of issue ids
    is written as ['null'], like no list. *)
Theorem patch_row_as_written (path_text : string -> string) (repo : pyval)
    (prid issues commits merged : string) (cn fn : pyval)
    (file vulns : string) (p : Patch) :
  new_Patch path_text repo prid issues commits merged cn fn file vulns = Ok p ->
  assoc "Commits" (Patch_toDictWriterRow p) = Some (PStr commits) /\
  assoc "Merged" (Patch_toDictWriterRow p)
    = Some (PStr (if String.eqb merged EmptyString then "False" else "True")) /\
  (issues = EmptyString \/ issues = "null" ->
   assoc "IssueIDs" (Patch_toDictWriterRow p) = Some (PStr "null")).
Proof.
  unfold new_Patch. destruct (PRID_converter prid) as [prid' | e]; [| done].
  cbn [mbind result_mbind result_bind].
  destruct (IssueIDs_converter issues) as [issues' | e] eqn:Hi; [| done].
  cbn [mbind result_mbind result_bind].
  destruct (convert_vuln vulns) as [d | e]; [| done].
  cbn [mbind result_mbind result_bind mret result_ret]. intros [= <-].
  split; [| split].
  - cbn. unfold Commits_converter. by rewrite join_split_on.
  - cbn. unfold Merged_converter. by destruct (String.eqb merged EmptyString).
  - intros [-> | ->]; vm_compute in Hi; injection Hi as <-; reflexivity.
Qed.

Lemma patch_row_as_written_witness :
  exists p,
    new_Patch (fun x => x) (PStr "owner/repo") "null" EmptyString "c2;c1" "False"
      (PStr "C") (PStr "f") "/repo/contracts/A.sol" "Slither:reentrancy-eth(5:6)"
      = Ok p /\
    assoc "Commits" (Patch_toDictWriterRow p) = Some (PStr "c2;c1") /\
    assoc "Merged" (Patch_toDictWriterRow p) = Some (PStr "True") /\
    assoc "IssueIDs" (Patch_toDictWriterRow p) = Some (PStr "null").
Proof.
  eexists. split; [reflexivity |].
  destruct (patch_row_as_written (fun x => x) (PStr "owner/repo") "null" EmptyString
              "c2;c1" "False" (PStr "C") (PStr "f") "/repo/contracts/A.sol"
              "Slither:reentrancy-eth(5:6)" _ eq_refl) as (Hc & Hm & Hi).
  split; [exact Hc |]. split; [exact Hm |]. apply Hi. by left.
Defined.

(** ** Occurrences the Oyente adapter cannot read *)

(** X30: an occurrence whose text cannot be read is not skipped.  When reading
    the line of the first occurrence of the file under analysis raises
    ([IndexError] for a text without a colon, [ValueError] for a second
    piece that is no integer), [parse_oyente_output] raises the same
    exception. *)
Theorem oyente_adapter_raises_on_unreadable_occurrence (ast : pyval)
    (sol_file c_name v_name : string) (o : oyente_occurrence_info)
    (os : list oyente_occurrence_info)
    (kinds : list (string * list oyente_occurrence_info)) (e : exn) :
  (line_num ← second_piece (PStr (oc_text o)); int_of_str line_num) = Raise e ->
  parse_oyente_output (oyente_json sol_file c_name ((v_name, o :: os) :: kinds))
    ast sol_file
  = Raise e.
Proof.
  intros Hbad. unfold parse_oyente_output, oyente_json.
  cbn [dict_items mbind result_mbind result_bind collect].
  rewrite String.eqb_refl.
  cbn [negb dict_items mbind result_mbind result_bind collect getitem assoc
       String.eqb Ascii.eqb Bool.eqb map fst snd truthy py_iter
       oyente_occurrence].
  destruct (second_piece (PStr (oc_text o))) as [line_num | e'] eqn:Hs.
  - cbn [mbind result_mbind result_bind] in Hbad |- *.
    unfold get_vuln_object.
    destruct (int_of_str line_num) as [z | e'']; [done |].
    cbn [mbind result_mbind result_bind] in Hbad |- *. by injection Hbad as ->.
  - cbn [mbind result_mbind result_bind] in Hbad |- *. by injection Hbad as ->.
Qed.

Lemma oyente_adapter_raises_on_unreadable_occurrence_witness :
  parse_oyente_output
    (oyente_json "A.sol" "C"
       [("reentrancy", [mkOccurrence "A.sol:five" 5 (PStr "f")])])
    sample_tree "A.sol"
  = Raise ValueError /\
  parse_oyente_output
    (oyente_json "A.sol" "C" [("reentrancy", [mkOccurrence "line 5" 5 (PStr "f")])])
    sample_tree "A.sol"
  = Raise IndexError.
Proof.
  split.
  - apply (oyente_adapter_raises_on_unreadable_occurrence sample_tree "A.sol" "C"
             "reentrancy" (mkOccurrence "A.sol:five" 5 (PStr "f")) [] []).
    reflexivity.
  - apply (oyente_adapter_raises_on_unreadable_occurrence sample_tree "A.sol" "C"
             "reentrancy" (mkOccurrence "line 5" 5 (PStr "f")) [] []).
    reflexivity.
Defined.

(** ** Findings of both detectors at one place *)

Lemma py_eq_str_inv (x : pyval) (s : string) :
  py_eq x (PStr s) = true -> x = PStr s.
Proof.
  destruct x as [| [] | z | t | l | d]; cbn; try done.
  by intros ->%String.eqb_eq.
Qed.

Lemma py_eq_str_is (x : pyval) (s : string) :
  py_eq (PStr s) x = true -> x = PStr s.
Proof.
  destruct x as [| [] | z | t | l | d]; cbn; try done.
  by intros ->%String.eqb_eq.
Qed.

Lemma kinds_differ (x y : pyval) (checks : list string) :
  in_strs x checks = true -> in_strs y checks = false -> py_eq x y = false.
Proof.
  unfold in_strs. intros Hx Hy. apply existsb_exists in Hx as (s & Hs & Hx).
  apply py_eq_str_inv in Hx as ->.
  destruct (py_eq (PStr s) y) eqn:Heq; [| done].
  apply py_eq_str_is in Heq as ->.
  assert (existsb (fun s0 : string => py_eq (PStr s) (PStr s0)) checks = true);
    [| congruence].
  apply existsb_exists. exists s. split; [done | apply py_eq_refl].
Qed.

Lemma result_bind_value {A B : Type} (m : result A) (k : A -> result B)
    (x : A) (r : result B) :
  m = Ok x -> k x = r -> m ≫= k = r.
Proof. by intros -> <-. Qed.

Section findings_of_both_detectors.
Context `{PyHash}.
Variables (tv : pyset) (a b : Vulnerability) (ha hb : Z).
Hypothesis hash_a : hash_Vulnerability a = Ok ha.
Hypothesis hash_b : hash_Vulnerability b = Ok hb.
Hypothesis kinds : py_eq (vuln_name a) (vuln_name b) = false.
Hypothesis place : same_place a b = true.
Hypothesis a_new : set_lookkey tv (Some a) ha = Ok false.
Hypothesis b_new : set_lookkey tv (Some b) hb = Ok false.

Let after_both : findings_state :=
  mkFindingsState (tv ++ [(ha, Some a); (hb, Some b)])
    ((function_name a, contract_name a, contract_file_path a) ::
     if String.eqb (contract_file_path a) (contract_file_path b) then []
     else [(function_name b, contract_name b, contract_file_path b)])
    [((function_name a, contract_name a), [(ha, Some a)])]
    [((function_name b, contract_name b), [(hb, Some b)])].

Lemma a_differs_from_b : Vulnerability__eq__ a b = false.
Proof. unfold Vulnerability__eq__. rewrite kinds. apply andb_false_r. Qed.

Lemma same_names :
  py_eq (function_name a) (function_name b) = true /\
  py_eq (contract_name a) (contract_name b) = true.
Proof.
  unfold same_place in place.
  apply andb_true_iff in place as [[[_ _]%andb_true_iff Hc]%andb_true_iff Hf].
  done.
Qed.

Lemma b_new_after_a : set_lookkey (tv ++ [(ha, Some a)]) (Some b) hb = Ok false.
Proof.
  rewrite (set_lookkey_app_absent tv _ _ hb b_new). cbn [set_lookkey].
  destruct (ha =? hb); [| done]. cbn [elem_eq]. by rewrite a_differs_from_b.
Qed.

Lemma both_new_collected :
  collect_new tv ([a], [Some b]) = Ok after_both.
Proof.
  unfold collect_new. cbn [fst snd map].
  rewrite (slither_pass tv a ha hash_a a_new).
  cbn [mbind result_mbind result_bind visit_all visit total_vuln].
  unfold set_contains. cbn [elem_hash]. rewrite hash_b.
  cbn [mbind result_mbind result_bind]. rewrite b_new_after_a.
  cbn [mbind result_mbind result_bind].
  rewrite (set_add_new _ (Some b) hb hash_b b_new_after_a).
  cbn [mbind result_mbind result_bind new_vulns_oyente new_vulns_slither
       functions_meta vdict_add].
  rewrite (set_add_new [] (Some b) hb hash_b eq_refl).
  cbn [mbind result_mbind result_bind mret result_ret].
  unfold after_both, meta_add, meta_eq. cbn [existsb fst snd app].
  destruct same_names as [-> ->]. cbn [andb orb].
  rewrite <- app_assoc. cbn [app].
  by destruct (String.eqb _ _).
Qed.

Lemma groups_after_both (key : vkey) :
  vkey_eq (function_name a, contract_name a) key = true ->
  groups_of after_both key = Ok [("Slither|Oyente", [(ha, Some a); (hb, Some b)])].
Proof.
  intros Hk. unfold groups_of.
  change (new_vulns_slither after_both)
    with [((function_name a, contract_name a), [(ha, Some a)])].
  change (new_vulns_oyente after_both)
    with [((function_name b, contract_name b), [(hb, Some b)])].
  cbn [vdict_get]. rewrite Hk.
  assert (Hkb : vkey_eq (function_name b, contract_name b) key = true).
  { destruct (hash_names a ha hash_a) as (hcn & hfn & _ & Hcn & Hfn & _).
    destruct (hash_names b hb hash_b) as (hcn' & hfn' & _ & Hcn' & Hfn' & _).
    destruct same_names as [Hf Hc].
    unfold vkey_eq in *. cbn [fst snd] in *.
    apply andb_true_iff in Hk as [Hk1 Hk2]. apply andb_true_iff. split.
    - rewrite (py_eq_sym_hashable _ _ _ Hfn) in Hf.
      eapply py_eq_trans; [exact Hf | exact Hk1].
    - rewrite (py_eq_sym_hashable _ _ _ Hcn) in Hc.
      eapply py_eq_trans; [exact Hc | exact Hk2]. }
  rewrite Hkb. cbn [set_union]. unfold set_insert. cbn [fst snd set_lookkey].
  destruct (ha =? hb); [| done]. cbn [elem_eq]. by rewrite a_differs_from_b.
Qed.

Lemma rows_after_both (commits : list string) :
  rows_of after_both commits (functions_meta after_both) =
  Ok (mkPatchRow commits (contract_name a) (function_name a) (contract_file_path a)
        [("Slither|Oyente", [(ha, Some a); (hb, Some b)])] ::
      if String.eqb (contract_file_path a) (contract_file_path b) then []
      else [mkPatchRow commits (contract_name b) (function_name b)
              (contract_file_path b)
              [("Slither|Oyente", [(ha, Some a); (hb, Some b)])]]).
Proof.
  change (functions_meta after_both)
    with ((function_name a, contract_name a, contract_file_path a) ::
          if String.eqb (contract_file_path a) (contract_file_path b) then []
          else [(function_name b, contract_name b, contract_file_path b)]).
  pose proof (groups_after_both _ (vkey_eq_refl _)) as Ga.
  assert (Gb : groups_of after_both (function_name b, contract_name b)
               = Ok [("Slither|Oyente", [(ha, Some a); (hb, Some b)])]).
  { apply groups_after_both. destruct same_names as [Hf Hc].
    unfold vkey_eq. cbn [fst snd]. by rewrite Hf, Hc. }
  cbn [rows_of]. rewrite Ga. cbn [mbind result_mbind result_bind].
  destruct (String.eqb (contract_file_path a) (contract_file_path b)); [done |].
  cbn [rows_of]. by rewrite Gb.
Qed.
End findings_of_both_detectors.



(** ** The seen set holds distinct findings *)

Section walk_distinct.
Context `{PyHash}.

Lemma holds_app_l (s t : pyset) (h : Z) (v : Vulnerability) :
  holds s h v -> holds (s ++ t) h v.
Proof. intros (a & Hin & Heq). exists a. split; [| done]. apply elem_of_app. by left. Qed.

Lemma set_lookkey_holds (s : pyset) (v : Vulnerability) (h : Z) :
  set_lookkey s (Some v) h = Ok true -> holds s h v.
Proof.
  induction s as [| [h' stored] s IH]; [done |]. cbn [set_lookkey].
  assert (Hnext : set_lookkey s (Some v) h = Ok true -> holds ((h', stored) :: s) h v).
  { intros Hs. destruct (IH Hs) as (a & Hin & Heq). exists a. split; [by right | done]. }
  destruct (h' =? h) eqn:Hh; [| exact Hnext].
  apply Z.eqb_eq in Hh. subst h'.
  destruct stored as [a |]; [| done]. cbn.
  destruct (Vulnerability__eq__ a v) eqn:Heq; [| exact Hnext].
  intros _. exists a. split; [by left | done].
Qed.

Lemma set_lookkey_not_holds (s : pyset) (v : Vulnerability) (h : Z) :
  set_lookkey s (Some v) h = Ok false -> ~ holds s h v.
Proof.
  intros Hl (a & Hin & Heq). apply set_lookkey_absent in Hl.
  rewrite Forall_forall in Hl. specialize (Hl _ Hin). unfold misses in Hl.
  cbn in Hl. rewrite Z.eqb_refl in Hl. specialize (Hl eq_refl). congruence.
Qed.

Lemma distinct_new_nil (s : pyset) : distinct_new s [] [].
Proof.
  split; [| split].
  - by intros h e ?%elem_of_nil.
  - intros before h v after Heq. by destruct before.
  - by intros v ?%elem_of_nil.
Qed.

Lemma distinct_new_app (s : pyset) (reports1 reports2 : list Vulnerability)
    (added1 added2 : list (Z * elem)) :
  distinct_new s reports1 added1 ->
  distinct_new (s ++ added1) reports2 added2 ->
  distinct_new s (reports1 ++ reports2) (added1 ++ added2).
Proof.
  intros (He1 & Hd1 & Hc1) (He2 & Hd2 & Hc2). split; [| split].
  - intros h e [Hin | Hin]%elem_of_app.
    + destruct (He1 _ _ Hin) as (v & -> & Hh & Hv). exists v.
      split; [done |]. split; [done |]. apply elem_of_app. by left.
    + destruct (He2 _ _ Hin) as (v & -> & Hh & Hv). exists v.
      split; [done |]. split; [done |]. apply elem_of_app. by right.
  - intros before h v after Heq.
    apply List.app_eq_app in Heq as (l & [[-> Hl] | [-> Hl]]).
    + destruct l as [| x l].
      * cbn in Hl. specialize (Hd2 [] h v after (eq_sym Hl)).
        by rewrite !app_nil_r in Hd2.
      * injection Hl as <- _. by apply (Hd1 before h v l).
    + rewrite app_assoc. by apply (Hd2 l h v after).
  - intros v [Hin | Hin]%elem_of_app.
    + destruct (Hc1 _ Hin) as (h & Hh & Hheld). exists h. split; [done |].
      rewrite app_assoc. by apply holds_app_l.
    + destruct (Hc2 _ Hin) as (h & Hh & Hheld). exists h. split; [done |].
      by rewrite app_assoc.
Qed.

Lemma visit_distinct (detector : detector_name) (st st' : findings_state) (v : elem) :
  visit detector st v = Ok st' ->
  exists added,
    total_vuln st' = total_vuln st ++ added /\
    distinct_new (total_vuln st) (omap id [v]) added.
Proof.
  unfold visit. destruct v as [vu |].
  2:{ intros [= <-]. exists []. split; [by rewrite app_nil_r | apply distinct_new_nil]. }
  unfold set_contains.
  destruct (elem_hash (Some vu)) as [h | e] eqn:Hh; [| done].
  cbn [mbind result_mbind result_bind].
  destruct (set_lookkey (total_vuln st) (Some vu) h) as [[] | e] eqn:Hl;
    cbn [mbind result_mbind result_bind]; [| | done].
  - intros [= <-]. exists []. split; [by rewrite app_nil_r |].
    split; [| split].
    + by intros h' e ?%elem_of_nil.
    + intros before h' v after Heq. by destruct before.
    + intros v Hv. cbn in Hv. apply list_elem_of_singleton in Hv as ->.
      exists h. split; [done |]. rewrite app_nil_r. by apply set_lookkey_holds.
  - rewrite (set_add_new _ _ h Hh Hl). cbn [mbind result_mbind result_bind].
    assert (Hd : distinct_new (total_vuln st) (omap id [Some vu]) [(h, Some vu)]).
    { split; [| split].
      - intros h' e Hin. apply list_elem_of_singleton in Hin as [= -> ->].
        exists vu. split; [done |]. split; [done |]. cbn. by left.
      - intros before h' v after Heq. destruct before as [| x before].
        + injection Heq as <- <- _. rewrite app_nil_r. by apply set_lookkey_not_holds.
        + injection Heq as _ Heq. by destruct before.
      - intros v Hv. cbn in Hv. apply list_elem_of_singleton in Hv as ->.
        exists h. split; [done |]. exists vu.
        split; [apply elem_of_app; right; by left | apply Vulnerability_eq_refl]. }
    destruct detector.
    + destruct (vdict_add _ _ vu) as [d' | e]; [| done]. cbn. intros [= <-].
      by exists [(h, Some vu)].
    + destruct (vdict_add _ _ vu) as [d' | e]; [| done]. cbn. intros [= <-].
      by exists [(h, Some vu)].
Qed.

Lemma omap_id_cons (v : elem) (vulns : list elem) :
  omap id (v :: vulns) = omap id [v] ++ omap id vulns.
Proof. by destruct v. Qed.

Lemma visit_all_distinct (detector : detector_name) (vulns : list elem) :
  forall st st',
    visit_all detector st vulns = Ok st' ->
    exists added,
      total_vuln st' = total_vuln st ++ added /\
      distinct_new (total_vuln st) (omap id vulns) added.
Proof.
  induction vulns as [| v vulns IH]; intros st st'; cbn [visit_all].
  - intros [= <-]. exists []. split; [by rewrite app_nil_r | apply distinct_new_nil].
  - destruct (visit detector st v) as [st1 | e] eqn:Hv; [| done].
    cbn [mbind result_mbind result_bind]. intros Hrest.
    destruct (visit_distinct _ _ _ _ Hv) as (added1 & Ht1 & Hd1).
    destruct (IH _ _ Hrest) as (added2 & Ht2 & Hd2).
    exists (added1 ++ added2). split; [by rewrite Ht2, Ht1, app_assoc |].
    rewrite (omap_id_cons v vulns).
    apply distinct_new_app; [done |]. by rewrite <- Ht1.
Qed.

Lemma omap_id_Some (l : list Vulnerability) : omap id (map Some l) = l.
Proof. induction l as [| x l IH]; [done |]. cbn. by rewrite IH. Qed.

Lemma collect_new_distinct (tv : pyset)
    (vulnerabilities : list Vulnerability * list elem) (fs : findings_state) :
  collect_new tv vulnerabilities = Ok fs ->
  exists added,
    total_vuln fs = tv ++ added /\
    distinct_new tv (fst vulnerabilities ++ omap id (snd vulnerabilities)) added.
Proof.
  unfold collect_new.
  destruct (visit_all slither _ _) as [st1 | e] eqn:Hs; [| done].
  cbn [mbind result_mbind result_bind]. intros Ho.
  destruct (visit_all_distinct _ _ _ _ Hs) as (added1 & Ht1 & Hd1).
  destruct (visit_all_distinct _ _ _ _ Ho) as (added2 & Ht2 & Hd2).
  cbn [total_vuln] in Ht1, Hd1. rewrite omap_id_Some in Hd1.
  exists (added1 ++ added2). split; [by rewrite Ht2, Ht1, app_assoc |].
  apply distinct_new_app; [done |]. by rewrite <- Ht1.
Qed.

Variable get_vulnerabilities :
  string -> list string -> result (list Vulnerability * list elem).
Variables (repo_path : string) (current_sol_files : list string).

#[local] Abbreviation reports_of :=
  (detector_reports get_vulnerabilities repo_path current_sol_files).

Lemma process_commit_distinct (st st' : walk_state) (c : commit) (o : commit_output) :
  process_commit get_vulnerabilities repo_path current_sol_files st c = Ok (st', o) ->
  exists added,
    seen st' = seen st ++ added /\
    distinct_new (seen st) (reports_of c) added.
Proof.
  unfold process_commit, detector_reports.
  destruct (changed_sol_files _ _ _) as [| f fs_].
  { intros [= <- <-]. exists []. cbn.
    split; [by rewrite app_nil_r | apply distinct_new_nil]. }
  destruct (get_vulnerabilities _ _) as [vs | e]; [| done].
  cbn [mbind result_mbind result_bind].
  destruct (collect_new (seen st) vs) as [fs | e] eqn:Hc; [| done].
  cbn [mbind result_mbind result_bind].
  destruct (collect_new_distinct _ _ _ Hc) as (added & Ht & Hd).
  destruct (functions_meta fs) as [| m ms].
  - intros [= <- <-]. by exists added.
  - destruct (rows_of fs _ (m :: ms)) as [rows | e]; [| done].
    cbn [mbind result_mbind result_bind]. intros [= <- <-]. by exists added.
Qed.

Lemma walk_distinct (commits : list commit) :
  forall st st' outs,
    walk get_vulnerabilities repo_path current_sol_files st commits = Ok (st', outs) ->
    exists added,
      seen st' = seen st ++ added /\
      distinct_new (seen st) (flat_map reports_of commits) added.
Proof.
  induction commits as [| c commits IH]; intros st st' outs; cbn [walk].
  - intros [= <- <-]. exists []. split; [by rewrite app_nil_r | apply distinct_new_nil].
  - destruct (process_commit _ _ _ st c) as [[st1 o] | e] eqn:Hc; [| done].
    cbn [mbind result_mbind result_bind].
    destruct (walk _ _ _ st1 commits) as [[st2 os] | e] eqn:Hw; [| done].
    cbn [mbind result_mbind result_bind mret result_ret]. intros [= <- <-].
    destruct (process_commit_distinct _ _ _ _ Hc) as (added1 & Ht1 & Hd1).
    destruct (IH _ _ _ Hw) as (added2 & Ht2 & Hd2).
    exists (added1 ++ added2). split; [by rewrite Ht2, Ht1, app_assoc |].
    cbn [flat_map]. apply distinct_new_app; [done |]. by rewrite <- Ht1.
Qed.
End walk_distinct.


